(** * caldav-web: reconciliation and codec engine

    A shallow embedding of the parts of [caldav_client.py], [models.py] and
    [app.py] that decode and encode VTODO records, repair the task hierarchy,
    pull and push tasks, and retry remote calls, together with the properties
    the design document states about them.

    Conventions.
    - Python values that the code inspects dynamically ([int(...)],
      [isinstance], truthiness) are values of [Py.pyval].
    - A function that can raise returns an [outcome]; code that threads the
      database session, the remote calendar or the clock takes and returns
      the state explicitly.
    - A [dict] whose iteration order matters is an association list in
      insertion order.
    - The interpreter's resource limits (recursion depth, memory) and the
      contents of log messages are outside the model. *)

From Stdlib Require Import String Ascii List ZArith QArith Bool Arith Lia.
From Stdlib Require Import Relations DecimalString.
From Stdlib Require Import Permutation.
Import ListNotations.

Local Open Scope string_scope.
Local Open Scope list_scope.

(** A call either returns a value or raises; [E] is the exception. *)
Inductive outcome (E A : Type) :=
| Returned (a : A)
| Raised (e : E).
Arguments Returned {E A} a.
Arguments Raised {E A} e.

(* ================================================================== *)
(** ** Python values *)
(* ================================================================== *)

Module Py.

(** [datetime.datetime]: the wall-clock reading in seconds, and the offset
    of its [tzinfo] in seconds ([None] for a naive value). *)
Record datetime := mkDatetime { dt_wall : Z; dt_tzinfo : option Z }.

(** [d.replace(tzinfo=...)] keeps the reading. *)
Definition replace_tzinfo (tz : option Z) (d : datetime) : datetime :=
  mkDatetime (dt_wall d) tz.

(** [d.astimezone(timezone.utc)]: a naive value is taken to be in the
    local zone of the process, [local_offset] seconds east of UTC. *)
Definition astimezone_utc (local_offset : Z) (d : datetime) : datetime :=
  match dt_tzinfo d with
  | Some off => mkDatetime (dt_wall d - off) (Some 0%Z)
  | None => mkDatetime (dt_wall d - local_offset) (Some 0%Z)
  end.

Inductive pyval :=
| PyNone
| PyBool (b : bool)
| PyInt (z : Z)
| PyStr (s : string)
| PyDatetime (d : datetime)
| PyDate (days : Z)            (* datetime.date: no time, no astimezone *)
| PyList (l : list string).    (* lists of strings, as in [params] *)

(** [a == b] on datetimes: two naive values compare their readings, two
    aware values their instants, and a naive value equals no aware one. *)
Definition datetime_eqb (a b : datetime) : bool :=
  match dt_tzinfo a, dt_tzinfo b with
  | None, None => (dt_wall a =? dt_wall b)%Z
  | Some oa, Some ob => (dt_wall a - oa =? dt_wall b - ob)%Z
  | _, _ => false
  end.

Definition int_of_bool (b : bool) : Z := if b then 1%Z else 0%Z.

(** [a == b] *)
Definition eqb (a b : pyval) : bool :=
  match a, b with
  | PyNone, PyNone => true
  | PyBool x, PyBool y => Bool.eqb x y
  | PyInt x, PyInt y => (x =? y)%Z
  | PyBool x, PyInt y | PyInt y, PyBool x => (int_of_bool x =? y)%Z
  | PyStr x, PyStr y => (x =? y)%string
  | PyDatetime x, PyDatetime y => datetime_eqb x y
  | PyDate x, PyDate y => (x =? y)%Z
  | PyList x, PyList y =>
      if list_eq_dec string_dec x y then true else false
  | _, _ => false
  end.

(** Python truthiness ([if x:]). *)
Definition truthy (v : pyval) : bool :=
  match v with
  | PyNone => false
  | PyBool b => b
  | PyInt z => negb (z =? 0)%Z
  | PyStr s => negb (s =? "")
  | PyDatetime _ => true
  | PyDate _ => true
  | PyList l => match l with [] => false | _ => true end
  end.

Definition is_none (v : pyval) : bool :=
  match v with PyNone => true | _ => false end.

(** [isinstance(v, int)]: [bool] is a subclass of [int]. *)
Definition isinstance_int (v : pyval) : bool :=
  match v with PyInt _ | PyBool _ => true | _ => false end.

Definition isinstance_str (v : pyval) : bool :=
  match v with PyStr _ => true | _ => false end.

Definition isinstance_datetime (v : pyval) : bool :=
  match v with PyDatetime _ => true | _ => false end.

(** [hasattr(v, 'year')]: dates and datetimes. *)
Definition has_year (v : pyval) : bool :=
  match v with PyDatetime _ | PyDate _ => true | _ => false end.

(** [hasattr(v, 'astimezone')]. *)
Definition has_astimezone (v : pyval) : bool :=
  match v with PyDatetime _ => true | _ => false end.

(** *** [str.strip()] *)

Definition is_space (c : ascii) : bool :=
  let n := nat_of_ascii c in
  (n =? 32)%nat || ((9 <=? n)%nat && (n <=? 13)%nat)
  || ((28 <=? n)%nat && (n <=? 31)%nat).

Fixpoint lstrip (s : string) : string :=
  match s with
  | String c r => if is_space c then lstrip r else s
  | EmptyString => EmptyString
  end.

Fixpoint rstrip (s : string) : string :=
  match s with
  | EmptyString => EmptyString
  | String c r =>
      match rstrip r with
      | EmptyString => if is_space c then EmptyString else String c EmptyString
      | r' => String c r'
      end
  end.

Definition strip (s : string) : string := rstrip (lstrip s).

(** *** [int(...)]

    On a string: surrounding whitespace is dropped, one sign is allowed,
    then decimal digits, where single underscores may separate digits.
    Anything else raises [ValueError], here [None].  Only ASCII digits are
    modelled. *)

Definition digit_of (c : ascii) : option Z :=
  let n := nat_of_ascii c in
  if ((48 <=? n)%nat && (n <=? 57)%nat)%bool
  then Some (Z.of_nat (n - 48)) else None.

Definition is_underscore (c : ascii) : bool := (nat_of_ascii c =? 95)%nat.

(** [digits acc prev_digit s]: [prev_digit] tells whether the previous
    character was a digit (an underscore must stand between two digits). *)
Fixpoint digits (acc : Z) (prev_digit : bool) (s : string) : option Z :=
  match s with
  | EmptyString => if prev_digit then Some acc else None
  | String c r =>
      match digit_of c with
      | Some d => digits (10 * acc + d) true r
      | None =>
          if (is_underscore c && prev_digit)%bool
          then match r with
               | String c' _ =>
                   match digit_of c' with
                   | Some _ => digits acc false r
                   | None => None
                   end
               | EmptyString => None
               end
          else None
      end
  end.

Definition int_of_str (s : string) : option Z :=
  match strip s with
  | String "-" r => option_map Z.opp (digits 0 false r)
  | String "+" r => digits 0 false r
  | r => digits 0 false r
  end.

Inductive conv_error := ValueError | TypeError.

(** [int(v)] with the exception it raises. *)
Definition int_result (v : pyval) : outcome conv_error Z :=
  match v with
  | PyInt z => Returned z
  | PyBool b => Returned (if b then 1 else 0)%Z
  | PyStr s =>
      match int_of_str s with
      | Some z => Returned z
      | None => Raised ValueError
      end
  | PyNone | PyDatetime _ | PyDate _ | PyList _ => Raised TypeError
  end.

(** [int(v)] under [except (ValueError, TypeError)]: [None] when it
    raises. *)
Definition int (v : pyval) : option Z :=
  match int_result v with
  | Returned z => Some z
  | Raised _ => None
  end.

(** [str(z)] for an integer: its decimal representation. *)
Definition str_of_int (z : Z) : string :=
  NilZero.string_of_int (Z.to_int z).

(** A string is the decimal representation of an integer. *)
Definition is_decimal_str (s : string) : bool :=
  match int_of_str s with
  | Some z => s =? str_of_int z
  | None => false
  end.

End Py.

(* ================================================================== *)
(** ** RetryPolicy: [retry_on_failure] (caldav_client.py) *)
(* ================================================================== *)

Module Retry.

(** The exceptions the wrapped call can raise.  The decorator retries on
    [ConnectionError], [TimeoutError] and [PropfindError] and re-raises
    every other exception at once. *)
Inductive pyexc :=
| ConnectionError (msg : string)
| TimeoutError (msg : string)
| PropfindError (msg : string)
| OtherException (msg : string).

Definition is_transient (e : pyexc) : bool :=
  match e with
  | ConnectionError _ | TimeoutError _ | PropfindError _ => true
  | OtherException _ => false
  end.

(** What the wrapper raises: the exception of the call, re-raised, or
    [CalDAVConnectionError] carrying [last_exception]. *)
Inductive raised :=
| Reraised (e : pyexc)
| CalDAVConnectionError (max_retries : nat) (last_exception : option pyexc).

(** Observable effects of the wrapper, in order. *)
Inductive event :=
| Invoked                (* one call of the wrapped function *)
| Slept (seconds : Q).   (* time.sleep(...) *)

(** [delay * (2 ** attempt)].  Scaling by a power of two is exact in
    binary floating point (overflow apart), so rationals model it. *)
Definition backoff (delay : Q) (attempt : nat) : Q :=
  delay * inject_Z (2 ^ Z.of_nat attempt).

Section Wrapper.
Context {St A : Type}.
(** The wrapped call: it may change the world [St] whatever it does. *)
Variable func : St -> outcome pyexc A * St.
Variable max_retries : nat.
Variable delay : Q.

(** The body of [for attempt in range(max_retries)], from iteration
    [attempt] on; [todo] counts the iterations left. *)
Fixpoint attempts (todo attempt : nat) (last_exception : option pyexc)
         (s : St) (tr : list event)
  : outcome raised A * St * list event :=
  match todo with
  | O => (Raised (CalDAVConnectionError max_retries last_exception), s, tr)
  | S todo' =>
      match func s with
      | (Returned a, s') => (Returned a, s', tr ++ [Invoked])
      | (Raised e, s') =>
          if is_transient e then
            if (attempt <? max_retries - 1)%nat then
              attempts todo' (S attempt) (Some e) s'
                       (tr ++ [Invoked; Slept (backoff delay attempt)])
            else
              attempts todo' (S attempt) (Some e) s' (tr ++ [Invoked])
          else (Raised (Reraised e), s', tr ++ [Invoked])
      end
  end.

Definition wrapper (s : St) : outcome raised A * St * list event :=
  attempts max_retries 0 None s [].

(** [retry_on_failure(max_retries, delay)(func)]: the decorated call. *)
Definition retry_on_failure (s : St) : outcome raised A * St * list event :=
  wrapper s.

(** [fails_then_returns n s a s']: from [s] the call raises a transient
    exception [n] times in a row and then returns [a], leaving [s']. *)
Inductive fails_then_returns : nat -> St -> A -> St -> Prop :=
| ftr_returns s a s' :
    func s = (Returned a, s') -> fails_then_returns 0 s a s'
| ftr_fails n s e s1 a s' :
    func s = (Raised e, s1) -> is_transient e = true ->
    fails_then_returns n s1 a s' ->
    fails_then_returns (S n) s a s'.
End Wrapper.

(** Reading a trace. *)
Definition invocations (tr : list event) : nat :=
  length (filter (fun e => match e with Invoked => true | _ => false end) tr).

Fixpoint sleeps (tr : list event) : list Q :=
  match tr with
  | [] => []
  | Invoked :: r => sleeps r
  | Slept d :: r => d :: sleeps r
  end.

Definition total_delay (tr : list event) : Q :=
  fold_right Qplus 0 (sleeps tr).

(** The sleep requested between invocation [k - 1] and invocation [k]
    (invocations counted from 0), if there is one. *)
Fixpoint delay_before_from (prev : option Q) (tr : list event) (k : nat)
  : option Q :=
  match tr with
  | [] => None
  | Slept d :: r => delay_before_from (Some d) r k
  | Invoked :: r =>
      match k with
      | O => prev
      | S k' => delay_before_from None r k'
      end
  end.

Definition delay_before (tr : list event) (k : nat) : option Q :=
  delay_before_from None tr k.

(** A call that follows a script: each invocation consumes one entry. *)
Definition scripted {A} (default : outcome pyexc A)
           (script : list (outcome pyexc A))
  : outcome pyexc A * list (outcome pyexc A) :=
  match script with
  | [] => (default, [])
  | r :: rest => (r, rest)
  end.

End Retry.

(* ================================================================== *)
(** ** The Task model (models.py) *)
(* ================================================================== *)

Module Models.
Import Py.

(** A row of [tasks].  [due] and [completed_at] hold a datetime or
    [PyNone]; timestamps the code only stamps are clock readings. *)
Record Task := mkTask {
  uid : string;
  summary : string;
  completed : bool;
  parent_uid : option string;
  calendar_url : string;
  due : pyval;
  created : option Z;
  updated : option Z;
  completed_at : pyval;
  priority : option Z;
  description : option string;
  tags : option string;
  estimated_duration : option Z;
  actual_duration : option Z;
  is_synced : bool;
  operation : option string;      (* 'create', 'update', 'delete' *)
  last_sync : option Z;
  sync_attempts : Z
}.

(** Attribute assignments. *)
Definition set_uid (v : string) (t : Task) : Task :=
  mkTask v (summary t) (completed t) (parent_uid t) (calendar_url t)
         (due t) (created t) (updated t) (completed_at t) (priority t)
         (description t) (tags t) (estimated_duration t)
         (actual_duration t) (is_synced t) (operation t) (last_sync t)
         (sync_attempts t).

Definition set_summary (v : string) (t : Task) : Task :=
  mkTask (uid t) v (completed t) (parent_uid t) (calendar_url t)
         (due t) (created t) (updated t) (completed_at t) (priority t)
         (description t) (tags t) (estimated_duration t)
         (actual_duration t) (is_synced t) (operation t) (last_sync t)
         (sync_attempts t).

Definition set_completed (v : bool) (t : Task) : Task :=
  mkTask (uid t) (summary t) v (parent_uid t) (calendar_url t)
         (due t) (created t) (updated t) (completed_at t) (priority t)
         (description t) (tags t) (estimated_duration t)
         (actual_duration t) (is_synced t) (operation t) (last_sync t)
         (sync_attempts t).

Definition set_parent_uid (v : option string) (t : Task) : Task :=
  mkTask (uid t) (summary t) (completed t) v (calendar_url t)
         (due t) (created t) (updated t) (completed_at t) (priority t)
         (description t) (tags t) (estimated_duration t)
         (actual_duration t) (is_synced t) (operation t) (last_sync t)
         (sync_attempts t).

Definition set_due (v : pyval) (t : Task) : Task :=
  mkTask (uid t) (summary t) (completed t) (parent_uid t) (calendar_url t)
         v (created t) (updated t) (completed_at t) (priority t)
         (description t) (tags t) (estimated_duration t)
         (actual_duration t) (is_synced t) (operation t) (last_sync t)
         (sync_attempts t).

Definition set_updated (v : option Z) (t : Task) : Task :=
  mkTask (uid t) (summary t) (completed t) (parent_uid t) (calendar_url t)
         (due t) (created t) v (completed_at t) (priority t)
         (description t) (tags t) (estimated_duration t)
         (actual_duration t) (is_synced t) (operation t) (last_sync t)
         (sync_attempts t).

Definition set_completed_at (v : pyval) (t : Task) : Task :=
  mkTask (uid t) (summary t) (completed t) (parent_uid t) (calendar_url t)
         (due t) (created t) (updated t) v (priority t)
         (description t) (tags t) (estimated_duration t)
         (actual_duration t) (is_synced t) (operation t) (last_sync t)
         (sync_attempts t).

Definition set_priority (v : option Z) (t : Task) : Task :=
  mkTask (uid t) (summary t) (completed t) (parent_uid t) (calendar_url t)
         (due t) (created t) (updated t) (completed_at t) v
         (description t) (tags t) (estimated_duration t)
         (actual_duration t) (is_synced t) (operation t) (last_sync t)
         (sync_attempts t).

Definition set_description (v : option string) (t : Task) : Task :=
  mkTask (uid t) (summary t) (completed t) (parent_uid t) (calendar_url t)
         (due t) (created t) (updated t) (completed_at t) (priority t)
         v (tags t) (estimated_duration t)
         (actual_duration t) (is_synced t) (operation t) (last_sync t)
         (sync_attempts t).

Definition set_tags (v : option string) (t : Task) : Task :=
  mkTask (uid t) (summary t) (completed t) (parent_uid t) (calendar_url t)
         (due t) (created t) (updated t) (completed_at t) (priority t)
         (description t) v (estimated_duration t)
         (actual_duration t) (is_synced t) (operation t) (last_sync t)
         (sync_attempts t).

Definition set_estimated_duration (v : option Z) (t : Task) : Task :=
  mkTask (uid t) (summary t) (completed t) (parent_uid t) (calendar_url t)
         (due t) (created t) (updated t) (completed_at t) (priority t)
         (description t) (tags t) v
         (actual_duration t) (is_synced t) (operation t) (last_sync t)
         (sync_attempts t).

Definition set_actual_duration (v : option Z) (t : Task) : Task :=
  mkTask (uid t) (summary t) (completed t) (parent_uid t) (calendar_url t)
         (due t) (created t) (updated t) (completed_at t) (priority t)
         (description t) (tags t) (estimated_duration t)
         v (is_synced t) (operation t) (last_sync t)
         (sync_attempts t).

Definition set_is_synced (v : bool) (t : Task) : Task :=
  mkTask (uid t) (summary t) (completed t) (parent_uid t) (calendar_url t)
         (due t) (created t) (updated t) (completed_at t) (priority t)
         (description t) (tags t) (estimated_duration t)
         (actual_duration t) v (operation t) (last_sync t)
         (sync_attempts t).

Definition set_operation (v : option string) (t : Task) : Task :=
  mkTask (uid t) (summary t) (completed t) (parent_uid t) (calendar_url t)
         (due t) (created t) (updated t) (completed_at t) (priority t)
         (description t) (tags t) (estimated_duration t)
         (actual_duration t) (is_synced t) v (last_sync t)
         (sync_attempts t).

Definition set_last_sync (v : option Z) (t : Task) : Task :=
  mkTask (uid t) (summary t) (completed t) (parent_uid t) (calendar_url t)
         (due t) (created t) (updated t) (completed_at t) (priority t)
         (description t) (tags t) (estimated_duration t)
         (actual_duration t) (is_synced t) (operation t) v
         (sync_attempts t).

Definition set_sync_attempts (v : Z) (t : Task) : Task :=
  mkTask (uid t) (summary t) (completed t) (parent_uid t) (calendar_url t)
         (due t) (created t) (updated t) (completed_at t) (priority t)
         (description t) (tags t) (estimated_duration t)
         (actual_duration t) (is_synced t) (operation t) (last_sync t)
         v.

(** [@validates('summary')]: [None] stands for the [ValueError]. *)
Definition validate_summary (summary : string) : option string :=
  if ((summary =? "") || (strip summary =? ""))%bool then None
  else Some (strip summary).

(** [@validates('priority')]: the argument is the assigned value, [PyNone]
    for [None]; [Raised] is the [ValueError] with its message. *)
Definition validate_priority (priority : pyval)
  : outcome string (option Z) :=
  match priority with
  | PyNone => Returned None
  | _ =>
      match int priority with
      | None => Raised "Priority must be an integer"
      | Some p =>
          if ((1 <=? p) && (p <=? 9))%Z%bool then Returned (Some p)
          else Raised "Priority must be between 1 and 9"
      end
  end.

(** [@validates('uid')] *)
Definition validate_uid (fresh_uuid : string) (uid : string) : string :=
  if uid =? "" then fresh_uuid else uid.

(** [mark_completed()]; [now] is [datetime.now(timezone.utc)]. *)
Definition mark_completed (now : Z) (t : Task) : Task :=
  set_updated (Some now)
    (set_completed_at (PyDatetime (mkDatetime now (Some 0%Z)))
       (set_completed true t)).

(** [mark_incomplete()] *)
Definition mark_incomplete (now : Z) (t : Task) : Task :=
  set_updated (Some now) (set_completed_at PyNone (set_completed false t)).

(** [mark_for_sync(operation)] *)
Definition mark_for_sync (operation : string) (now : Z) (t : Task) : Task :=
  set_updated (Some now)
    (set_sync_attempts 0
       (set_operation (Some operation) (set_is_synced false t))).

(** [mark_synced()] *)
Definition mark_synced (now : Z) (t : Task) : Task :=
  set_sync_attempts 0
    (set_last_sync (Some now) (set_operation None (set_is_synced true t))).

(** [increment_sync_attempts()] *)
Definition increment_sync_attempts (t : Task) : Task :=
  set_sync_attempts (sync_attempts t + 1) t.

Record SyncLog := mkSyncLog {
  log_calendar_url : string;
  log_operation : string;
  log_task_uid : option string;
  log_status : string;            (* 'success', 'error', 'warning' *)
  log_error_details : option string
}.

(** The database as the session sees it: the rows of the last commit and
    the rows of the open transaction. *)
Record tables := mkTables { tasks : list Task; sync_logs : list SyncLog }.
Record session := mkSession { committed : tables; working : tables }.

Definition commit (s : session) : session :=
  mkSession (working s) (working s).
Definition rollback (s : session) : session :=
  mkSession (committed s) (committed s).

(** [Task.query.filter_by(uid=..., calendar_url=...).first()] *)
Definition same_row (u cal : string) (t : Task) : bool :=
  ((uid t =? u) && (calendar_url t =? cal))%bool.

Definition find_task (u cal : string) (s : session) : option Task :=
  find (same_row u cal) (tasks (working s)).

(** [db.session.add(task)] *)
Definition add_task (t : Task) (s : session) : session :=
  mkSession (committed s)
            (mkTables (tasks (working s) ++ [t]) (sync_logs (working s))).

Definition add_log (l : SyncLog) (s : session) : session :=
  mkSession (committed s)
            (mkTables (tasks (working s)) (sync_logs (working s) ++ [l])).

(** A loaded row written back, found by the key it was loaded under. *)
Definition store_task (u cal : string) (t : Task) (s : session) : session :=
  mkSession (committed s)
            (mkTables (map (fun r => if same_row u cal r then t else r)
                           (tasks (working s)))
                      (sync_logs (working s))).

(** What the flush does to a row of [parent.subtasks] when the parent
    [u] is deleted: the relationship [parent] (backref [subtasks]) has no
    delete cascade, so the subtask stays and its [parent_uid] is set to
    NULL.  The join is on [uid] alone, whatever the calendar. *)
Definition orphaned (u : string) (r : Task) : Task :=
  match parent_uid r with
  | Some p => if p =? u then set_parent_uid None r else r
  | None => r
  end.

(** [db.session.delete(task)], for the task loaded under [u] and [cal]:
    its row goes, and its subtasks lose their parent.  The session does
    both at the flush of the next commit; the model does them at the
    call.  A row that was loaded before the call and is written back
    after it by [store_task] is written back as it was loaded; the
    [onupdate] stamp of [updated] is not modelled. *)
Definition delete_task_row (u cal : string) (s : session) : session :=
  mkSession (committed s)
            (mkTables (map (orphaned u)
                           (filter (fun r => negb (same_row u cal r))
                                   (tasks (working s))))
                      (sync_logs (working s))).

(** A row as the INSERT completes it from the column defaults. *)
Definition new_task (uid calendar_url : string) (now : Z) : Task :=
  mkTask uid "" false None calendar_url PyNone (Some now) (Some now)
         PyNone None None None None None true None None 0.

End Models.

(* ================================================================== *)
(** ** The vobject component tree, as the client uses it *)
(* ================================================================== *)

Module VObject.
Import Py.

(** A content line of a component in memory.  Names are upper case, as
    vobject stores them; [vtodo.percent_complete] reads the first line
    named [PERCENT-COMPLETE]. *)
Record content_line := mkLine {
  name : string;
  value : pyval;
  params : list (string * list string)
}.

(** The children of a VTODO.  vobject groups them by name; that changes
    only the order in which [getChildren()] yields them, and no function
    below depends on that order. *)
Definition component := list content_line.

Definition named (n : string) (l : content_line) : bool := name l =? n.

(** [hasattr(vtodo, n)] *)
Definition has (n : string) (c : component) : bool := existsb (named n) c.

(** [vtodo.n]: the first child of that name. *)
Definition first (n : string) (c : component) : option content_line :=
  find (named n) c.

(** [vtodo.n.value = v] *)
Fixpoint set_value (n : string) (v : pyval) (c : component) : component :=
  match c with
  | [] => []
  | l :: r =>
      if named n l then mkLine (name l) v (params l) :: r
      else l :: set_value n v r
  end.

(** [vtodo.remove(vtodo.n)]: [vtodo.n] is the first child of that name
    ([contents[n][0]]) and [remove] takes that one child out; further
    children of the name stay. *)
Fixpoint remove_first (n : string) (c : component) : component :=
  match c with
  | [] => []
  | l :: r => if named n l then r else l :: remove_first n r
  end.

(** [for child in list(vtodo.getChildren()): if child.name.upper() == n:
    vtodo.remove(child)] *)
Definition remove_all (n : string) (c : component) : component :=
  filter (fun l => negb (named n l)) c.

(** [vtodo.add(n).value = v], with the parameters set afterwards. *)
Definition add (n : string) (v : pyval) (ps : list (string * list string))
           (c : component) : component :=
  c ++ [mkLine n v ps].

(** [if hasattr(vtodo, n): vtodo.n.value = v else: vtodo.add(n).value = v] *)
Definition set_or_add (n : string) (v : pyval) (c : component) : component :=
  if has n c then set_value n v c else add n v [] c.

(** The values of all children named [n]. *)
Definition values_of (n : string) (c : component) : list pyval :=
  map value (filter (named n) c).

(** *** A record as it arrives

    A calendar object split into components and lines, values still text.
    [None] is data that is no calendar object at all. *)
Record raw_line := mkRaw { raw_name : string; raw_value : string }.
Record raw_component := mkComp {
  comp_name : string;
  comp_lines : list raw_line
}.
Definition todo_data := option (list raw_component).

(** The properties the parser turns into [datetime] or [date] values. *)
Definition native_names : list string :=
  ["DUE"; "DTSTART"; "DTEND"; "CREATED"; "DTSTAMP"; "COMPLETED";
   "LAST-MODIFIED"].

Definition is_native (n : string) : bool :=
  existsb (String.eqb n) native_names.

(** The properties the parser turns into a list of texts. *)
Definition multi_text_names : list string := ["CATEGORIES"; "RESOURCES"].

Definition is_multi_text (n : string) : bool :=
  existsb (String.eqb n) multi_text_names.

(** The characters a backslash escapes: backslash, semicolon, comma, N,
    n and the double quote. *)
Definition escapable (ch : ascii) : bool :=
  existsb (Nat.eqb (nat_of_ascii ch)) [92; 59; 44; 78; 110; 34]%nat.

Definition is_backslash (ch : ascii) : bool := (nat_of_ascii ch =? 92)%nat.
Definition is_comma (ch : ascii) : bool := (nat_of_ascii ch =? 44)%nat.
Definition is_n (ch : ascii) : bool :=
  ((nat_of_ascii ch =? 78) || (nat_of_ascii ch =? 110))%nat.
Definition newline : ascii := ascii_of_nat 10.
Definition backslash : ascii := ascii_of_nat 92.

(** vobject's [stringToTextValues(s)], the state machine that splits the
    text of such a property at its commas: [escaped] is the state 'read
    escaped char', [current] the text read since the last comma.  An
    escaped n is a line feed, a backslash before any other character is
    kept; the last text is dropped when it is empty and another came
    before it.  At the end of the input the state machine reads the
    marker 'eof' as if it were a character, which a backslash in last
    position keeps. *)
Fixpoint text_values_from (escaped : bool) (current : string)
         (results : list string) (s : string) : list string :=
  match s with
  | EmptyString =>
      let current :=
        if escaped then (current ++ String backslash "eof")%string
        else current in
      if (negb (current =? "")
          || match results with [] => true | _ => false end)%bool
      then results ++ [current] else results
  | String ch r =>
      if escaped then
        if escapable ch then
          text_values_from false
            (current ++ String (if is_n ch then newline else ch) "")%string
            results r
        else
          text_values_from false
            (current ++ String backslash (String ch ""))%string results r
      else if is_backslash ch then text_values_from true current results r
      else if is_comma ch then
        text_values_from false "" (results ++ [current]) r
      else
        text_values_from false (current ++ String ch "")%string results r
  end.

Definition text_values (s : string) : list string :=
  text_values_from false "" [] s.

Section Parser.
(** vobject's date-time parser; [None] when the text is no date. *)
Variable parse_date_time : string -> option pyval.

(** The value of a line as vobject's behaviours give it: a date under
    the date names, a list of texts for CATEGORIES and RESOURCES, the
    text elsewhere.  The properties of further types a VTODO may carry
    (DURATION, RDATE, EXDATE and the like) are read as their text; the
    client reads none of them. *)
Definition native_value (l : raw_line) : option pyval :=
  if is_native (raw_name l) then parse_date_time (raw_value l)
  else if is_multi_text (raw_name l)
       then Some (PyList (text_values (raw_value l)))
       else Some (PyStr (raw_value l)).

Fixpoint read_lines (ls : list raw_line) : option component :=
  match ls with
  | [] => Some []
  | l :: r =>
      match native_value l, read_lines r with
      | Some v, Some c => Some (mkLine (raw_name l) v [] :: c)
      | _, _ => None
      end
  end.

Fixpoint read_components (cs : list raw_component)
  : option (list (string * component)) :=
  match cs with
  | [] => Some []
  | c :: r =>
      match read_lines (comp_lines c), read_components r with
      | Some ls, Some rest => Some ((comp_name c, ls) :: rest)
      | _, _ => None
      end
  end.

(** [vobject.readOne(data)]; [None] when it raises. *)
Definition readOne (d : todo_data) : option (list (string * component)) :=
  match d with
  | None => None
  | Some cs => read_components cs
  end.
End Parser.

End VObject.

(* ================================================================== *)
(** ** RecordCodec (caldav_client.py) *)
(* ================================================================== *)

Module Codec.
Import Py VObject.

(** The dictionary [_parse_vtodo_safely] returns. *)
Record task_data := mkTaskData {
  td_uid : string;
  td_summary : string;
  td_description : option string;
  td_due : pyval;
  td_created : pyval;
  td_completed_at : pyval;
  td_priority : option Z;
  td_percent_complete : pyval;
  td_completed : bool;
  td_parent_uid : option string
}.

Definition set_td_parent_uid (p : option string) (t : task_data) : task_data :=
  mkTaskData (td_uid t) (td_summary t) (td_description t) (td_due t)
             (td_created t) (td_completed_at t) (td_priority t)
             (td_percent_complete t) (td_completed t) p.

(** [max(1, min(9, priority))] *)
Definition clamp_priority (priority : Z) : Z := Z.max 1 (Z.min 9 priority).

(** The block under [# Validate priority]: the value read from the record
    ([PyNone] when the property is absent) becomes an integer in 1..9 or
    is dropped. *)
Definition parse_priority (raw : pyval) : option Z :=
  match raw with
  | PyNone => None
  | _ =>
      match int raw with
      | Some priority => Some (clamp_priority priority)
      | None => None
      end
  end.

(** The block under [# Validate and convert dates], for one field. *)
Definition convert_date (local_offset : Z) (v : pyval) : pyval :=
  match v with
  | PyDatetime d => PyDatetime (astimezone_utc local_offset d)
  | _ => v
  end.

(** [safe_get_value] on a text property: the text of the first line of
    that name. *)
Definition safe_get_text (n : string) (ls : list raw_line) : option string :=
  option_map raw_value (find (fun l => raw_name l =? n) ls).

(** [safe_get_value] on a parsed property, with [PyNone] as default. *)
Definition safe_get_value (n : string) (c : component) : pyval :=
  match first n c with
  | Some l => value l
  | None => PyNone
  end.

Definition or_default {A} (d : A) (o : option A) : A :=
  match o with Some a => a | None => d end.

Section Decode.
Variable parse_date_time : string -> option pyval.
Variable local_offset : Z.
(** [str(uuid.uuid4())] *)
Variable fresh_uuid : string.

(** [_parse_vtodo_safely(todo_data)]; [None] is its [None].  The value
    vobject gives a text property is the text of its line, so the text
    fields are read from the lines of the VTODO; the date-time properties
    and the priority are read from the parsed component. *)
Definition _parse_vtodo_safely (d : todo_data) : option task_data :=
  match d, readOne parse_date_time d with
  | Some cs, Some _ =>
      match find (fun c => comp_name c =? "VTODO") cs with
      | None => None
      | Some rc =>
          let raw := comp_lines rc in
          match read_lines parse_date_time raw with
          | None => None
          | Some vtodo =>
              let status :=
                or_default "NEEDS-ACTION" (safe_get_text "STATUS" raw) in
              let related_to := safe_get_text "RELATED-TO" raw in
              Some (mkTaskData
                (or_default fresh_uuid (safe_get_text "UID" raw))
                (or_default "Untitled Task" (safe_get_text "SUMMARY" raw))
                (safe_get_text "DESCRIPTION" raw)
                (convert_date local_offset (safe_get_value "DUE" vtodo))
                (convert_date local_offset (safe_get_value "CREATED" vtodo))
                (convert_date local_offset
                              (safe_get_value "COMPLETED" vtodo))
                (parse_priority (safe_get_value "PRIORITY" vtodo))
                (match safe_get_text "PERCENT-COMPLETE" raw with
                 | Some s => PyStr s
                 | None => PyInt 0
                 end)
                (status =? "COMPLETED")
                (match related_to with
                 | Some r => if r =? "" then None else Some r
                 | None => None
                 end))
          end
      end
  | _, _ => None
  end.
End Decode.

(** The text of the PRIORITY property of the record's VTODO, if any. *)
Definition priority_text (d : todo_data) : option string :=
  match d with
  | Some cs =>
      match find (fun c => comp_name c =? "VTODO") cs with
      | Some rc => safe_get_text "PRIORITY" (comp_lines rc)
      | None => None
      end
  | None => None
  end.

(** *** Encoding *)

Section Encode.
(** [datetime.fromisoformat] after the [Z] replacement; [None] when it
    raises. *)
Variable fromisoformat : string -> option datetime.
Variable local_offset : Z.

(** [_normalize_date_value(date_value)]; [None] is its [None]. *)
Definition _normalize_date_value (date_value : pyval) : option datetime :=
  match date_value with
  | PyNone => None
  | PyDatetime d =>
      match dt_tzinfo d with
      | None => Some (replace_tzinfo (Some 0%Z) d)
      | Some _ => Some (astimezone_utc local_offset d)
      end
  | PyInt z =>
      if ((0 <=? z) && (z <=? 2147483647))%Z%bool
      then Some (mkDatetime z (Some 0%Z)) else None
  | PyBool b => Some (mkDatetime (if b then 1 else 0)%Z (Some 0%Z))
  | PyStr s =>
      match fromisoformat s with
      | Some d =>
          Some (astimezone_utc local_offset
                  (match dt_tzinfo d with
                   | None => replace_tzinfo (Some 0%Z) d
                   | Some _ => d
                   end))
      | None => None
      end
  | PyDate _ | PyList _ => None
  end.

(** [_create_vtodo]: the component handed to [serialize()], or the
    exception.  [now] is the clock read for DTSTAMP and CREATED. *)
Definition _create_vtodo (fresh_uuid : string) (now : Z)
           (summary uid : string) (parent_uid description : option string)
           (due priority : pyval) : outcome string component :=
  if ((summary =? "") || (strip summary =? ""))%bool
  then Raised "Task summary cannot be empty"
  else
    let uid := if uid =? "" then fresh_uuid else uid in
    (* Validate and coerce priority *)
    let priority : option Z :=
      match priority with
      | PyNone => None
      | _ => option_map clamp_priority (int priority)
      end in
    (* Sanitize due field *)
    let due : pyval :=
      match due with
      | PyInt z =>
          if ((0 <? z) && (z <? 2147483647))%Z%bool
          then PyDatetime (mkDatetime z (Some 0%Z)) else PyNone
      | PyBool b =>
          if b then PyDatetime (mkDatetime 1 (Some 0%Z)) else PyNone
      | PyDatetime _ | PyStr _ | PyNone => due
      | PyDate _ | PyList _ => if truthy due then PyNone else due
      end in
    let now_utc := PyDatetime (mkDatetime now None) in
    let v := add "UID" (PyStr uid) [] [] in
    let v := add "SUMMARY" (PyStr (strip summary)) [] v in
    let v := add "DTSTAMP" now_utc [] v in
    let v := add "CREATED" now_utc [] v in
    let v := add "STATUS" (PyStr "NEEDS-ACTION") [] v in
    let v :=
      match parent_uid with
      | Some p =>
          if p =? "" then v
          else add "RELATED-TO" (PyStr p) [("RELTYPE", ["PARENT"])] v
      | None => v
      end in
    let v :=
      match description with
      | Some d =>
          if ((d =? "") || (strip d =? ""))%bool then v
          else add "DESCRIPTION" (PyStr (strip d)) [] v
      | None => v
      end in
    let v :=
      if truthy due then
        match _normalize_date_value due with
        | Some d =>
            add "DUE" (PyDatetime (replace_tzinfo None d))
                [("TZID", ["UTC"])] v
        | None => v
        end
      else v in
    let v :=
      match priority with
      | Some p => add "PRIORITY" (PyInt p) [] v
      | None => v
      end in
    Returned v.

Definition integer_properties : list string :=
  ["PRIORITY"; "PERCENT-COMPLETE"; "SEQUENCE"].
Definition datetime_properties : list string :=
  ["DUE"; "DTSTART"; "DTEND"; "CREATED"; "DTSTAMP"; "COMPLETED";
   "LAST-MODIFIED"].

Definition mem_name (n : string) (l : list string) : bool :=
  existsb (String.eqb n) l.

(** [str(value)] for the values that are neither strings nor
    integers. *)
Variable str_other : pyval -> string.

(** [str(value)] *)
Definition str (v : pyval) : string :=
  match v with
  | PyStr s => s
  | PyInt z => str_of_int z
  | PyBool b => if b then "True" else "False"
  | PyNone => "None"
  | _ => str_other v
  end.

(** What [_validate_and_fix_vtodo_properties] records for one child. *)
Inductive prop_fix := Keep | Remove | Update (v : pyval).

Definition fix_of (child : content_line) : prop_fix :=
  let value := value child in
  let prop_name := name child in
  if is_none value then Remove
  else if mem_name prop_name integer_properties then
    if isinstance_int value then Update (PyStr (str value))
    else if negb (isinstance_str value) then
      match int value with
      | Some int_value => Update (PyStr (str_of_int int_value))
      | None => Remove
      end
    else Keep
  else if mem_name prop_name datetime_properties then
    if (negb (isinstance_datetime value) && negb (has_year value))%bool
    then Remove else Keep
  else
    if negb (isinstance_str value) then Update (PyStr (str value))
    else Keep.

Definition apply_fix (child : content_line) : list content_line :=
  match fix_of child with
  | Keep => [child]
  | Remove => []
  | Update v => [mkLine (name child) v (params child)]
  end.

Definition is_fix (child : content_line) : bool :=
  match fix_of child with Keep => false | _ => true end.

(** [_validate_and_fix_vtodo_properties(vtodo)]: the component after the
    fixes, and [len(properties_to_fix) > 0]. *)
Definition _validate_and_fix_vtodo_properties (vtodo : component)
  : component * bool :=
  (flat_map apply_fix vtodo, existsb is_fix vtodo).

(** [_set_priority_safely(vtodo, priority_value)] *)
Definition _set_priority_safely (vtodo : component) (priority_value : pyval)
  : component :=
  match priority_value with
  | PyNone =>
      if has "PRIORITY" vtodo then remove_first "PRIORITY" vtodo else vtodo
  | _ =>
      match int priority_value with
      | Some priority_int =>
          let priority_int := clamp_priority priority_int in
          let vtodo :=
            if has "PRIORITY" vtodo then remove_first "PRIORITY" vtodo
            else vtodo in
          add "PRIORITY" (PyStr (str_of_int priority_int)) [] vtodo
      | None => vtodo
      end
  end.

(** The blocks of [update_task] between [vobject.readOne] and
    [vcal.serialize()], in order.  Each takes and returns the VTODO and
    [changed]; an absent keyword argument is [None] (or [PyNone]). *)
Definition edit_state := (component * bool)%type.

(* Summary *)
Definition update_summary (summary : option string) (st : edit_state)
  : edit_state :=
  match summary with
  | Some s => (set_or_add "SUMMARY" (PyStr (strip s)) (fst st), true)
  | None => st
  end.

(* Description *)
Definition update_description (description : option string)
           (st : edit_state) : edit_state :=
  match description with
  | Some d =>
      let vtodo := fst st in
      let description_str := if d =? "" then "" else strip d in
      (if has "DESCRIPTION" vtodo then
         if negb (description_str =? "")
         then set_value "DESCRIPTION" (PyStr description_str) vtodo
         else remove_first "DESCRIPTION" vtodo
       else
         if negb (description_str =? "")
         then add "DESCRIPTION" (PyStr description_str) [] vtodo
         else vtodo,
       true)
  | None => st
  end.

(* Related-to (parent task) *)
Definition update_parent_uid (parent_uid : option string)
           (st : edit_state) : edit_state :=
  match parent_uid with
  | Some p =>
      let vtodo := fst st in
      let vtodo :=
        if has "RELATED-TO" vtodo then remove_first "RELATED-TO" vtodo
        else vtodo in
      (if p =? "" then vtodo
       else add "RELATED-TO" (PyStr p) [("RELTYPE", ["PARENT"])] vtodo,
       true)
  | None => st
  end.

(* Due date *)
Definition update_due (due : pyval) (st : edit_state) : edit_state :=
  match _normalize_date_value due with
  | Some normalized_due =>
      let utc_due :=
        PyDatetime (replace_tzinfo None
                      (astimezone_utc local_offset normalized_due)) in
      (set_or_add "DUE" utc_due (fst st), true)
  | None => st
  end.

(* Priority *)
Definition update_priority (priority : pyval) (st : edit_state)
  : edit_state :=
  match priority with
  | PyNone => st
  | _ => (_set_priority_safely (fst st) priority, true)
  end.

(* Completion status; [now] is the clock *)
Definition update_completed (now : Z) (completed : option bool)
           (st : edit_state) : edit_state :=
  match completed with
  | Some c =>
      let status_str := if c then "COMPLETED" else "NEEDS-ACTION" in
      let vtodo := set_or_add "STATUS" (PyStr status_str) (fst st) in
      (if c then
         let completed_time := PyDatetime (mkDatetime now None) in
         let vtodo := set_or_add "COMPLETED" completed_time vtodo in
         let vtodo := remove_all "PERCENT-COMPLETE" vtodo in
         add "PERCENT-COMPLETE" (PyStr "100") [] vtodo
       else
         let vtodo :=
           if has "COMPLETED" vtodo then remove_first "COMPLETED" vtodo
           else vtodo in
         let vtodo := remove_all "PERCENT-COMPLETE" vtodo in
         add "PERCENT-COMPLETE" (PyStr "0") [] vtodo,
       true)
  | None => st
  end.

(* Last-modified stamp and the validation before serialization *)
Definition update_finish (now : Z) (st : edit_state) : edit_state :=
  if snd st then
    let vtodo :=
      set_or_add "LAST-MODIFIED" (PyDatetime (mkDatetime now None))
                 (fst st) in
    (fst (_validate_and_fix_vtodo_properties vtodo), true)
  else st.

(** The VTODO as [update_task] serializes it, and [changed]; nothing is
    serialized or saved when [changed] is false. *)
Definition update_vtodo (now : Z) (vtodo : component)
           (summary description parent_uid : option string)
           (due priority : pyval) (completed : option bool)
  : edit_state :=
  update_finish now
    (update_completed now completed
       (update_priority priority
          (update_due due
             (update_parent_uid parent_uid
                (update_description description
                   (update_summary summary (vtodo, false))))))).
End Encode.

End Codec.

(* ================================================================== *)
(** ** HierarchyValidator: [_validate_task_hierarchy] *)
(* ================================================================== *)

Module Hierarchy.
Import Codec.

(** [Dict[str, Dict]] in insertion order.  A Python dict has each key
    once; on a list with a repeated key, [get] reads the first entry. *)
Definition batch := list (string * task_data).

Definition keys (m : batch) : list string := map fst m.

(** [task_map[k]] *)
Fixpoint get (k : string) (m : batch) : option task_data :=
  match m with
  | [] => None
  | (k', t) :: r => if k' =? k then Some t else get k r
  end.

(** [k in task_map] *)
Definition contains (k : string) (m : batch) : bool :=
  match get k m with Some _ => true | None => false end.

(** Truthiness of [task.get('parent_uid')]: neither [None] nor [''] . *)
Definition truthy_uid (p : option string) : bool :=
  match p with
  | Some s => negb (s =? "")
  | None => false
  end.

Definition mem (k : string) (visited : list string) : bool :=
  existsb (String.eqb k) visited.

(** First pass.  The loop assigns only to ['parent_uid'] of the record it
    visits, so the keys of [task_map] are those at loop entry. *)
Fixpoint orphan_loop (task_map todo : batch) (fixed_count : nat)
  : batch * nat :=
  match todo with
  | [] => ([], fixed_count)
  | (uid, task) :: rest =>
      let parent_uid := td_parent_uid task in
      if (truthy_uid parent_uid
          && negb (match parent_uid with
                   | Some p => contains p task_map
                   | None => false
                   end))%bool
      then
        let '(rest', n) := orphan_loop task_map rest (S fixed_count) in
        ((uid, set_td_parent_uid None task) :: rest', n)
      else
        let '(rest', n) := orphan_loop task_map rest fixed_count in
        ((uid, task) :: rest', n)
  end.

(** [has_cycle(start_uid, current_uid, visited)].  Each call that recurses
    has put a key of [task_map] into [visited] that was not there, so
    [fuel] beyond the number of entries is never used up. *)
Fixpoint has_cycle_fuel (fuel : nat) (task_map : batch)
         (start_uid : string) (current_uid : option string)
         (visited : list string) : bool :=
  match fuel with
  | O => false
  | S fuel' =>
      match current_uid with
      | None => false
      | Some current =>
          if current =? start_uid then true
          else if mem current visited then false
          else
            match get current task_map with
            | None => false
            | Some t =>
                has_cycle_fuel fuel' task_map start_uid (td_parent_uid t)
                               (current :: visited)
            end
      end
  end.

Definition has_cycle (task_map : batch) (start_uid : string)
           (current_uid : option string) (visited : list string) : bool :=
  has_cycle_fuel (S (length task_map)) task_map start_uid current_uid
                 visited.

(** Second pass: [done] holds the entries already visited, as the loop
    left them; [todo] those still to visit.  [has_cycle] reads the whole
    dictionary as it is at that moment. *)
Fixpoint cycle_loop (done todo : batch) (fixed_count : nat)
  : batch * nat :=
  match todo with
  | [] => (done, fixed_count)
  | (uid, task) :: rest =>
      let parent_uid := td_parent_uid task in
      if (truthy_uid parent_uid
          && has_cycle (done ++ todo) uid parent_uid [])%bool
      then cycle_loop (done ++ [(uid, set_td_parent_uid None task)]) rest
                      (S fixed_count)
      else cycle_loop (done ++ [(uid, task)]) rest fixed_count
  end.

(** The whole function, with [fixed_count] next to the returned map. *)
Definition _validate_task_hierarchy_count (m : batch) : batch * nat :=
  let '(m1, n1) := orphan_loop m m 0 in
  cycle_loop [] m1 n1.

Definition _validate_task_hierarchy (m : batch) : batch :=
  fst (_validate_task_hierarchy_count m).

(** *** The invariant *)

(** [edge m a b]: the record under key [a] names [b] as its parent. *)
Definition edge (m : batch) (a b : string) : Prop :=
  exists t, get a m = Some t /\ td_parent_uid t = Some b.

(** No key is its own ancestor. *)
Definition acyclic (m : batch) : Prop :=
  forall u, ~ clos_trans string (edge m) u u.

(** Every parent reference of a record names a key of the batch. *)
Definition parents_resolve (m : batch) : Prop :=
  forall k t p, In (k, t) m -> td_parent_uid t = Some p ->
                contains p m = true.

Definition valid (m : batch) : Prop :=
  parents_resolve m /\ acyclic m.

(** The same, counting only references the code takes for a parent (not
    the empty string). *)
Definition proper_edge (m : batch) (a b : string) : Prop :=
  edge m a b /\ b <> "".

Definition proper_parents_resolve (m : batch) : Prop :=
  forall k t p, In (k, t) m -> td_parent_uid t = Some p -> p <> "" ->
                contains p m = true.

Definition proper_acyclic (m : batch) : Prop :=
  forall u, ~ clos_trans string (proper_edge m) u u.

(** No record has the empty string for a parent. *)
Definition no_empty_parent (m : batch) : Prop :=
  forall k t, In (k, t) m -> td_parent_uid t <> Some "".

(** Boolean checks, for concrete batches. *)
Definition no_empty_parentb (m : batch) : bool :=
  forallb (fun e => match td_parent_uid (snd e) with
                    | Some p => negb (p =? "")
                    | None => true
                    end) m.

Definition parents_resolveb (m : batch) : bool :=
  forallb (fun e => match td_parent_uid (snd e) with
                    | Some p => contains p m
                    | None => true
                    end) m.

(** No record's chain of parents leads back to its own key, as
    [has_cycle] sees it. *)
Definition acyclicb (m : batch) : bool :=
  forallb (fun e => match td_parent_uid (snd e) with
                    | Some p => negb (has_cycle m (fst e) (Some p) [])
                    | None => true
                    end) m.

Fixpoint nodupb (l : list string) : bool :=
  match l with
  | [] => true
  | x :: r => (negb (mem x r) && nodupb r)%bool
  end.

End Hierarchy.

(* ================================================================== *)
(** ** Pull: [get_all_tasks] and [sync_tasks_to_db] *)
(* ================================================================== *)

Module Pull.
Import Py VObject Codec Hierarchy Models.

Record sync_stats := mkStats {
  total_fetched : nat;
  created : nat;
  updated : nat;
  errors : nat;
  hierarchy_fixes : nat
}.

(** The dictionary [sync_tasks_to_db] returns ([duration] left out). *)
Record sync_result := mkResult { count : nat; stats : sync_stats }.

(** [d[k] = v] on an insertion-ordered dictionary. *)
Fixpoint dict_set (k : string) (v : task_data) (m : batch) : batch :=
  match m with
  | [] => [(k, v)]
  | (k', v') :: r =>
      if k' =? k then (k, v) :: r else (k', v') :: dict_set k v r
  end.

(** [{task['uid']: task for task in tasks_from_caldav}] *)
Definition task_map_of (tasks : list task_data) : batch :=
  fold_left (fun m t => dict_set (td_uid t) t m) tasks [].

Section Pull.
(** [self._parse_vtodo_safely] on the record fetched at a position; the
    position selects the identifier [uuid.uuid4()] would draw there. *)
Variable decode : nat -> todo_data -> option task_data.
Variable calendar_url : string.
Variable now : Z.
(** [uuid.uuid4()] inside the [uid] validator of the model. *)
Variable model_uuid : string.

(** The loop of [get_all_tasks] from position [i]: the records decoded
    so far and [parse_errors]. *)
Fixpoint get_all_tasks_loop (i : nat) (todos : list todo_data)
         (task_dicts : list task_data) (parse_errors : nat)
  : list task_data * nat :=
  match todos with
  | [] => (task_dicts, parse_errors)
  | todo :: rest =>
      match decode i todo with
      | Some task_data =>
          get_all_tasks_loop (S i) rest (task_dicts ++ [task_data])
                             parse_errors
      | None =>
          get_all_tasks_loop (S i) rest task_dicts (S parse_errors)
      end
  end.

(** [get_all_tasks(calendar_url)].  [fetched] is what
    [get_calendar_by_url] and [calendar.todos()] give.  The function
    returns the list only; [parse_errors] goes to the log.  The retry
    decorator never repeats it: every exception leaves as [CalDAVError],
    which the decorator re-raises. *)
Definition get_all_tasks (fetched : outcome string (list todo_data))
  : outcome string (list task_data) :=
  match fetched with
  | Raised e => Raised ("Failed to retrieve tasks: " ++ e)%string
  | Returned todos => Returned (fst (get_all_tasks_loop 0 todos [] 0))
  end.

(** The records of a fetch that decode, in order, and the number of
    those that do not; positions count from [i]. *)
Fixpoint decoded_from (i : nat) (todos : list todo_data)
  : list task_data :=
  match todos with
  | [] => []
  | todo :: rest =>
      match decode i todo with
      | Some task_data => task_data :: decoded_from (S i) rest
      | None => decoded_from (S i) rest
      end
  end.

Fixpoint failures_from (i : nat) (todos : list todo_data) : nat :=
  match todos with
  | [] => 0
  | todo :: rest =>
      match decode i todo with
      | Some _ => failures_from (S i) rest
      | None => S (failures_from (S i) rest)
      end
  end.

(** The state of the loop over [task_map.values()]: the session, the
    counters, and whether a row was added that never got a summary. *)
Record loop_state := mkLoop {
  ls_session : session;
  ls_created : nat;
  ls_updated : nat;
  ls_errors : nat;
  ls_incomplete_row : bool
}.

(** The assignments after [# Update task fields], from [completed] on;
    [Raised] keeps the row as far as it was assigned. *)
Definition assign_fields (task_data : task_data) (db_task : Task)
  : outcome Task Task :=
  let t := set_completed (td_completed task_data) db_task in
  let t := set_parent_uid (td_parent_uid task_data) t in
  let t := set_description (td_description task_data) t in
  let t := set_due (td_due task_data) t in
  match validate_priority (match td_priority task_data with
                           | Some p => PyInt p
                           | None => PyNone
                           end) with
  | Raised _ => Raised t
  | Returned p =>
      let t := set_priority p t in
      let t :=
        if (td_completed task_data
            && truthy (td_completed_at task_data))%bool
        then set_completed_at (td_completed_at task_data) t
        else if negb (td_completed task_data)
             then set_completed_at PyNone t
             else t in
      Returned (mark_synced now t)
  end.

(** One iteration of [for task_data in task_map.values()]. *)
Definition sync_one (st : loop_state) (task_data : task_data)
  : loop_state :=
  let s := ls_session st in
  match find_task (td_uid task_data) calendar_url s with
  | None =>
      (* Create new task *)
      let key := validate_uid model_uuid (td_uid task_data) in
      let db_task := new_task key calendar_url now in
      let s := add_task db_task s in
      match validate_summary (td_summary task_data) with
      | None =>
          mkLoop s (S (ls_created st)) (ls_updated st)
                 (S (ls_errors st)) true
      | Some summary =>
          match assign_fields task_data (set_summary summary db_task) with
          | Returned t =>
              mkLoop (store_task key calendar_url t s)
                     (S (ls_created st)) (ls_updated st) (ls_errors st)
                     (ls_incomplete_row st)
          | Raised t =>
              mkLoop (store_task key calendar_url t s)
                     (S (ls_created st)) (ls_updated st)
                     (S (ls_errors st)) (ls_incomplete_row st)
          end
      end
  | Some db_task =>
      let key := uid db_task in
      match validate_summary (td_summary task_data) with
      | None =>
          mkLoop s (ls_created st) (S (ls_updated st))
                 (S (ls_errors st)) (ls_incomplete_row st)
      | Some summary =>
          match assign_fields task_data (set_summary summary db_task) with
          | Returned t =>
              mkLoop (store_task key calendar_url t s)
                     (ls_created st) (S (ls_updated st)) (ls_errors st)
                     (ls_incomplete_row st)
          | Raised t =>
              mkLoop (store_task key calendar_url t s)
                     (ls_created st) (S (ls_updated st))
                     (S (ls_errors st)) (ls_incomplete_row st)
          end
      end
  end.

(** [sync_tasks_to_db(calendar_url)]: the returned dictionary or the
    [CalDAVError], and the session afterwards.  A commit fails when a
    row without a summary is pending ([summary] is [NOT NULL]). *)
Definition sync_tasks_to_db (fetched : outcome string (list todo_data))
           (s : session) : outcome string sync_result * session :=
  match get_all_tasks fetched with
  | Raised e => (Raised ("Synchronization failed: " ++ e)%string, rollback s)
  | Returned tasks_from_caldav =>
      let total := length tasks_from_caldav in
      match tasks_from_caldav with
      | [] => (Returned (mkResult 0 (mkStats total 0 0 0 0)), s)
      | _ =>
          let task_map :=
            _validate_task_hierarchy (task_map_of tasks_from_caldav) in
          let st :=
            fold_left sync_one (map snd task_map)
                      (mkLoop s 0 0 0 false) in
          if ls_incomplete_row st then
            (Raised "Synchronization failed: NOT NULL constraint failed",
             rollback (ls_session st))
          else
            (Returned
               (mkResult (ls_created st + ls_updated st)
                         (mkStats total (ls_created st) (ls_updated st)
                                  (ls_errors st) 0)),
             commit (ls_session st))
      end
  end.
End Pull.

End Pull.

(* ================================================================== *)
(** ** The routes of app.py that create, edit and push tasks *)
(* ================================================================== *)

Module App.
Import Py Models.

(** The keyword arguments of [client.update_task]. *)
Record update_args := mkArgs {
  arg_summary : string;
  arg_description : option string;
  arg_due : pyval;
  arg_priority : pyval;
  arg_parent_uid : option string;
  arg_completed : bool
}.

(** The CalDAV client as the routes see it.  [R] is the state of the
    remote calendar and of the connection; every call may change it, and
    every call may raise.  A fetched remote object is named by a string. *)
Record caldav_client (R : Type) := mkClient {
  cl_create_task :
    R -> string -> string -> option string -> option string -> pyval ->
    pyval -> outcome string string * R;
  cl_get_task_by_uid :
    R -> string -> string -> outcome string (option string) * R;
  cl_update_task :
    R -> option string -> update_args -> outcome string unit * R;
  cl_delete_task :
    R -> string -> string -> outcome string bool * R
}.
Arguments cl_create_task {R}.
Arguments cl_get_task_by_uid {R}.
Arguments cl_update_task {R}.
Arguments cl_delete_task {R}.

Inductive push_error :=
| PushError (uid : string) (operation : option string) (error : string).

Inductive body :=
| Error (msg : string)
| Message (msg : string)
| Created (uid : string) (is_synced : bool) (task : Task)
| Updated (changes : list string) (is_synced : bool) (task : Task)
| NoPendingTasks
| PushCompleted (pushed : nat) (errors : list push_error)
                (remaining_unsynced : nat).

Record response := mkResponse { status : nat; resp_body : body }.

(** [handle_caldav_error(func, ...)]: [(result, None)] or
    [(None, error_msg)]. *)
Definition handle_caldav_error {A} (o : outcome string A)
  : option A * option string :=
  match o with
  | Returned a => (Some a, None)
  | Raised e => (None, Some e)
  end.

(** [log_sync_operation(...)]: nothing without an operation; otherwise
    the entry is added and the session committed. *)
Definition log_sync_operation (calendar_url operation : string)
           (task_uid : option string) (status : string)
           (error_details : option string) (s : session) : session :=
  if operation =? "" then s
  else commit (add_log (mkSyncLog calendar_url operation task_uid status
                                  error_details) s).

(** Truthiness of an optional string ([None] and [''] are false). *)
Definition truthy_str (o : option string) : bool :=
  match o with Some x => negb (x =? "") | None => false end.

Definition option_eqb {A} (eqb : A -> A -> bool) (a b : option A) : bool :=
  match a, b with
  | Some x, Some y => eqb x y
  | None, None => true
  | _, _ => false
  end.

(** *** POST /tasks *)

(** The JSON body; [summary] is there (the decorator requires it). *)
Record create_request := mkCreate {
  cr_calendar_url : option string;
  cr_summary : string;
  cr_parent_uid : option string;
  cr_description : option string;
  cr_priority : pyval;              (* [PyNone] when absent or null *)
  cr_tags : option string;          (* [json.dumps(tags)] when truthy *)
  cr_estimated_duration : option Z;
  cr_due : option string
}.

(** *** The body of PATCH /tasks/<uid> and the control flow of its route *)

(** The JSON body: the outer [option] is the presence of the key, the
    inner one distinguishes [null]. *)
Record update_request := mkUpdate {
  ur_calendar_url : option string;
  ur_completed : option pyval;
  ur_summary : option string;
  ur_description : option (option string);
  ur_priority : option pyval;
  ur_due : option (option string);
  ur_parent_uid : option (option string);
  ur_tags : option (option string);   (* dumped; [None] when falsy *)
  ur_estimated_duration : option (option Z);
  ur_actual_duration : option (option Z)
}.

(** Control flow inside the [try] block: go on, [return] a response, or
    raise. *)
Inductive flow (A : Type) :=
| Continue (a : A)
| Return (resp : response)
| Throw (msg : string).
Arguments Continue {A} a.
Arguments Return {A} resp.
Arguments Throw {A} msg.

Definition bind {A B} (m : flow A) (k : A -> flow B) : flow B :=
  match m with
  | Continue a => k a
  | Return resp => Return resp
  | Throw e => Throw e
  end.

Section Routes.
Context {R : Type}.
(** The global [client]; [None] when the connection could not be set
    up at start. *)
Variable client : option (caldav_client R).
(** [dateutil.parser.parse]; [None] when it raises. *)
Variable parse : string -> option datetime.
(** [str(uuid.uuid4())] in the route, and in the [uid] validator. *)
Variable route_uuid : string.
Variable model_uuid : string.
Variable now : Z.

(** [Task(uid=..., summary=..., ...)]: each keyword goes through its
    validator, in order; [Raised] carries the message of the
    [ValueError]. *)
Definition construct_task (uid summary : string) (parent_uid : option string)
           (description : option string) (due priority : pyval)
           (tags : option string) (estimated_duration : option Z)
           (calendar_url : string) (is_synced : bool)
           (operation : option string) : outcome string Task :=
  let uid := validate_uid model_uuid uid in
  match validate_summary summary with
  | None => Raised "Task summary cannot be empty"
  | Some summary =>
      match validate_priority priority with
      | Raised e => Raised e
      | Returned priority =>
          Returned
            (mkTask uid summary false parent_uid calendar_url due
                    (Some now) (Some now) PyNone priority description
                    tags estimated_duration None is_synced operation
                    None 0)
      end
  end.

(** The route: the response, the session and the remote state after
    it.  A commit is taken to succeed. *)
Definition create_task (data : create_request) (r : R) (s : session)
  : response * session * R :=
  match cr_calendar_url data with
  | None => (mkResponse 400 (Error "Missing calendar_url"), s, r)
  | Some calendar_url =>
  if calendar_url =? "" then
    (mkResponse 400 (Error "Missing calendar_url"), s, r)
  else
  let summary := strip (cr_summary data) in
  if summary =? "" then
    (mkResponse 400 (Error "Task summary cannot be empty"), s, r)
  else
  let parent_uid := cr_parent_uid data in
  let description := cr_description data in
  (* Parse due date *)
  match (if truthy_str (cr_due data)
         then match cr_due data with
              | Some d => option_map PyDatetime (parse d)
              | None => Some PyNone
              end
         else Some PyNone) with
  | None =>
      (mkResponse 400 (Error "Invalid 'due' datetime format"), s, r)
  | Some due =>
  (* Validate priority *)
  match (match cr_priority data with
         | PyNone => Returned (Returned PyNone)
         | p =>
             match int_result p with
             | Returned z =>
                 if ((z <? 0) || (9 <? z))%Z%bool
                 then Returned (Raised
                        (mkResponse 400
                           (Error "Priority must be between 0 and 9 ")))
                 else Returned (Returned (PyInt z))
             | Raised ValueError =>
                 Returned (Raised
                   (mkResponse 400 (Error "Priority must be a number")))
             | Raised TypeError => Raised "int() argument"
             end
         end) with
  | Raised e => (mkResponse 500 (Error e), rollback s, r)
  | Returned (Raised resp) => (resp, s, r)
  | Returned (Returned priority) =>
  (* Validate parent task exists *)
  if (truthy_str parent_uid
      && match parent_uid with
         | Some p =>
             match find_task p calendar_url s with
             | Some _ => false
             | None => true
             end
         | None => false
         end)%bool
  then (mkResponse 404 (Error "Parent task not found"), s, r)
  else
  (* Try to create task on CalDAV server *)
  let new_uid := route_uuid in
  let '(new_uid, is_synced, operation, s, r) :=
    match client with
    | Some c =>
        let '(o, r) :=
          cl_create_task c r summary calendar_url parent_uid description
                         due priority in
        match handle_caldav_error o with
        | (Some result, _) =>
            if negb (result =? "") then
              (result, true, None,
               log_sync_operation calendar_url "create" (Some result)
                                  "success" None s, r)
            else
              (new_uid, false, Some "create",
               log_sync_operation calendar_url "create" (Some new_uid)
                                  "error" None s, r)
        | (None, error) =>
            (new_uid, false, Some "create",
             log_sync_operation calendar_url "create" (Some new_uid)
                                "error" error s, r)
        end
    | None => (new_uid, false, Some "create", s, r)
    end in
  (* Create local task *)
  match construct_task new_uid summary parent_uid description due priority
                       (cr_tags data) (cr_estimated_duration data)
                       calendar_url is_synced operation with
  | Raised e => (mkResponse 500 (Error e), rollback s, r)
  | Returned new_task =>
      (mkResponse 201 (Created new_uid is_synced new_task),
       commit (add_task new_task s), r)
  end
  end end end.

(** The checks of the route other than the one on the priority: the
    calendar is named, the summary is not blank, the due date parses,
    the parent is known. *)
Definition other_checks_pass (data : create_request) (s : session)
  : bool :=
  match cr_calendar_url data with
  | None => false
  | Some calendar_url =>
      (negb (calendar_url =? "")
       && negb (strip (cr_summary data) =? "")
       && (if truthy_str (cr_due data)
           then match cr_due data with
                | Some d =>
                    match parse d with Some _ => true | None => false end
                | None => true
                end
           else true)
       && negb (truthy_str (cr_parent_uid data)
                && match cr_parent_uid data with
                   | Some p =>
                       match find_task p calendar_url s with
                       | Some _ => false
                       | None => true
                       end
                   | None => false
                   end))%bool
  end.

(** *** PATCH /tasks/<uid> *)

(** The task being edited and the keys of [changes]. *)
Definition edit := (Task * list string)%type.

Definition edit_completed (data : update_request) (e : edit) : flow edit :=
  let '(task, changes) := e in
  match ur_completed data with
  | Some v =>
      let new_completed := truthy v in
      if negb (Bool.eqb new_completed (completed task)) then
        Continue (if new_completed then mark_completed now task
                  else mark_incomplete now task,
                  changes ++ ["completed"])
      else Continue e
  | None => Continue e
  end.

Definition edit_summary (data : update_request) (e : edit) : flow edit :=
  let '(task, changes) := e in
  match ur_summary data with
  | Some v =>
      let new_summary := strip v in
      if (negb (new_summary =? "")
          && negb (new_summary =? summary task))%bool then
        match validate_summary new_summary with
        | Some v' =>
            Continue (set_summary v' task, changes ++ ["summary"])
        | None => Throw "Task summary cannot be empty"
        end
      else Continue e
  | None => Continue e
  end.

Definition edit_description (data : update_request) (e : edit)
  : flow edit :=
  let '(task, changes) := e in
  match ur_description data with
  | Some v =>
      if negb (option_eqb String.eqb v (description task)) then
        Continue (set_description v task, changes ++ ["description"])
      else Continue e
  | None => Continue e
  end.

Definition edit_priority (data : update_request) (e : edit) : flow edit :=
  let '(task, changes) := e in
  match ur_priority data with
  | Some v =>
      match (match v with
             | PyNone => Continue None
             | _ =>
                 match int_result v with
                 | Raised _ => Throw "invalid literal for int()"
                 | Returned z =>
                     if ((z <? 0) || (9 <? z))%Z%bool
                     then Return (mkResponse 400
                            (Error "Priority must be between 0 and 9"))
                     else Continue (Some z)
                 end
             end) with
      | Continue new_priority =>
          if negb (option_eqb Z.eqb new_priority (priority task)) then
            match validate_priority (match new_priority with
                                     | Some z => PyInt z
                                     | None => PyNone
                                     end) with
            | Returned p =>
                Continue (set_priority p task, changes ++ ["priority"])
            | Raised msg => Throw msg
            end
          else Continue e
      | Return resp => Return resp
      | Throw msg => Throw msg
      end
  | None => Continue e
  end.

Definition edit_due (data : update_request) (e : edit) : flow edit :=
  let '(task, changes) := e in
  match ur_due data with
  | Some v =>
      match (if truthy_str v
             then match v with
                  | Some d => option_map PyDatetime (parse d)
                  | None => Some PyNone
                  end
             else Some PyNone) with
      | None =>
          Return (mkResponse 400 (Error "Invalid 'due' datetime format"))
      | Some new_due =>
          if negb (Py.eqb new_due (due task)) then
            Continue (set_due new_due task, changes ++ ["due"])
          else Continue e
      end
  | None => Continue e
  end.

Definition edit_parent_uid (calendar_url : string) (s : session)
           (data : update_request) (e : edit) : flow edit :=
  let '(task, changes) := e in
  match ur_parent_uid data with
  | Some new_parent =>
      if negb (option_eqb String.eqb new_parent (parent_uid task)) then
        if (truthy_str new_parent
            && match new_parent with
               | Some p =>
                   match find_task p calendar_url s with
                   | Some _ => false
                   | None => true
                   end
               | None => false
               end)%bool
        then Return (mkResponse 404 (Error "Parent task not found"))
        else Continue (set_parent_uid new_parent task,
                       changes ++ ["parent_uid"])
      else Continue e
  | None => Continue e
  end.

Definition edit_tags (data : update_request) (e : edit) : flow edit :=
  let '(task, changes) := e in
  match ur_tags data with
  | Some new_tags =>
      if negb (option_eqb String.eqb new_tags (tags task)) then
        Continue (set_tags new_tags task, changes ++ ["tags"])
      else Continue e
  | None => Continue e
  end.

Definition edit_estimated_duration (data : update_request) (e : edit)
  : flow edit :=
  let '(task, changes) := e in
  match ur_estimated_duration data with
  | Some v =>
      if negb (option_eqb Z.eqb v (estimated_duration task)) then
        Continue (set_estimated_duration v task,
                  changes ++ ["estimated_duration"])
      else Continue e
  | None => Continue e
  end.

Definition edit_actual_duration (data : update_request) (e : edit)
  : flow edit :=
  let '(task, changes) := e in
  match ur_actual_duration data with
  | Some v =>
      if negb (option_eqb Z.eqb v (actual_duration task)) then
        Continue (set_actual_duration v task,
                  changes ++ ["actual_duration"])
      else Continue e
  | None => Continue e
  end.

(** The block under [# Update task fields]. *)
Definition apply_edits (calendar_url : string) (s : session)
           (data : update_request) (task : Task) : flow edit :=
  bind (edit_completed data (task, [])) (fun e =>
  bind (edit_summary data e) (fun e =>
  bind (edit_description data e) (fun e =>
  bind (edit_priority data e) (fun e =>
  bind (edit_due data e) (fun e =>
  bind (edit_parent_uid calendar_url s data e) (fun e =>
  bind (edit_tags data e) (fun e =>
  bind (edit_estimated_duration data e) (fun e =>
  edit_actual_duration data e)))))))).

Definition args_of (task : Task) : update_args :=
  mkArgs (summary task) (description task) (due task)
         (match priority task with Some p => PyInt p | None => PyNone end)
         (parent_uid task) (completed task).

(** The value [handle_caldav_error] binds to [result] for
    [client.update_task]: that method has no [return] statement, so the
    value is [None] when it went through as when it raised. *)
Definition update_result (result : option unit) : pyval := PyNone.

(** The block under [# Try to sync with CalDAV]: the task and the
    session after it, or the exception of [get_task_by_uid]. *)
Definition sync_edit (uid calendar_url : string) (task : Task) (r : R)
           (s : session) : outcome string (Task * session) * R :=
  match client with
  | Some c =>
      match cl_get_task_by_uid c r uid calendar_url with
      | (Raised e, r) => (Raised e, r)
      | (Returned todo, r) =>
          let '(o, r) := cl_update_task c r todo (args_of task) in
          let '(result, error) := handle_caldav_error o in
          if truthy (update_result result) then
            let task := mark_synced now task in
            (Returned (task,
                       log_sync_operation calendar_url "update" (Some uid)
                         "success" None
                         (store_task uid calendar_url task s)), r)
          else
            let task := mark_for_sync "update" now task in
            (Returned (task,
                       log_sync_operation calendar_url "update" (Some uid)
                         "error" error
                         (store_task uid calendar_url task s)), r)
      end
  | None =>
      let task := mark_for_sync "update" now task in
      (Returned (task, store_task uid calendar_url task s), r)
  end.

(** The route.  A response returned from inside the [try] block leaves
    the session as it was: what the block assigned is not committed. *)
Definition update_task (data : update_request) (uid : string) (r : R)
           (s : session) : response * session * R :=
  match ur_calendar_url data with
  | None => (mkResponse 400 (Error "Missing calendar_url"), s, r)
  | Some calendar_url =>
  if calendar_url =? "" then
    (mkResponse 400 (Error "Missing calendar_url"), s, r)
  else
  match find_task uid calendar_url s with
  | None => (mkResponse 404 (Error "Task not found"), s, r)
  | Some task =>
      match apply_edits calendar_url s data task with
      | Throw e => (mkResponse 500 (Error e), rollback s, r)
      | Return resp => (resp, s, r)
      | Continue (task, changes) =>
          match changes with
          | [] => (mkResponse 200 (Message "No changes detected"), s, r)
          | _ =>
              match sync_edit uid calendar_url task r s with
              | (Raised e, r) => (mkResponse 500 (Error e), rollback s, r)
              | (Returned (task, s), r) =>
                  (mkResponse 200 (Updated changes (is_synced task) task),
                   commit s, r)
              end
          end
      end
  end
  end.

(** *** POST /push_pending *)

(** [order_by(Task.updated.asc())], as a stable insertion sort. *)
Definition updated_leb (a b : Task) : bool :=
  match updated a, updated b with
  | None, _ => true
  | Some _, None => false
  | Some x, Some y => (x <=? y)%Z
  end.

Fixpoint insert_by_updated (t : Task) (l : list Task) : list Task :=
  match l with
  | [] => [t]
  | x :: r =>
      if updated_leb x t then x :: insert_by_updated t r else t :: l
  end.

Definition order_by_updated (l : list Task) : list Task :=
  fold_left (fun acc t => insert_by_updated t acc) l [].

Definition unsynced_tasks (calendar_url : string) (s : session)
  : list Task :=
  order_by_updated
    (filter (fun t => (negb (is_synced t)
                       && (Models.calendar_url t =? calendar_url))%bool)
            (tasks (working s))).

(** The state of the loop. *)
Record push_state := mkPush {
  ps_session : session;
  ps_remote : R;
  ps_pushed_count : nat;
  ps_errors : list push_error
}.

(** What follows the three branches: [task.mark_synced()], the counter,
    the log entry.  [key] is the uid the row was loaded under. *)
Definition push_done (calendar_url key : string) (task : Task)
           (st : push_state) (r : R) : push_state :=
  let task := mark_synced now task in
  let s := store_task key calendar_url task (ps_session st) in
  let s :=
    log_sync_operation calendar_url
      (match operation task with
       | Some op => if op =? "" then "unknown" else op
       | None => "unknown"
       end)
      (Some (Models.uid task)) "success" None s in
  mkPush s r (S (ps_pushed_count st)) (ps_errors st).

(** [task.operation == op] *)
Definition operation_is (op : string) (task : Task) : bool :=
  match operation task with
  | Some o => o =? op
  | None => false
  end.

(** The state when an exception leaves the loop. *)
Definition push_raise (e : string) (st : push_state) (r : R)
  : outcome string unit * push_state :=
  (Raised e, mkPush (ps_session st) r (ps_pushed_count st) (ps_errors st)).

(** The loop [for task in unsynced_tasks].  Its body stands in no [try]
    block: an exception of a client call ends the loop and leaves the
    route; the state is the one reached by then. *)
Fixpoint push_loop (c : caldav_client R) (calendar_url : string)
         (todo : list Task) (st : push_state)
  : outcome string unit * push_state :=
  match todo with
  | [] => (Returned tt, st)
  | task :: rest =>
      let r := ps_remote st in
      let key := Models.uid task in
      if operation_is "create" task then
        match cl_create_task c r (summary task) calendar_url
                (parent_uid task) (description task) (due task)
                (match priority task with
                 | Some p => PyInt p
                 | None => PyNone
                 end) with
        | (Raised e, r) => push_raise e st r
        | (Returned result, r) =>
            let task :=
              if negb (result =? "") then set_uid result task
              else task in
            push_loop c calendar_url rest
                      (push_done calendar_url key task st r)
        end
      else if operation_is "update" task then
        match cl_get_task_by_uid c r (Models.uid task) calendar_url with
        | (Raised e, r) => push_raise e st r
        | (Returned None, r) =>
            push_raise ("Task " ++ Models.uid task
                        ++ " not found in remote calendar")%string st r
        | (Returned (Some todo), r) =>
            match cl_update_task c r (Some todo) (args_of task) with
            | (Raised e, r) => push_raise e st r
            | (Returned _, r) =>
                push_loop c calendar_url rest
                          (push_done calendar_url key task st r)
            end
        end
      else if operation_is "delete" task then
        match cl_delete_task c r (Models.uid task) calendar_url with
        | (Raised e, r) => push_raise e st r
        | (Returned _, r) =>
            push_loop c calendar_url rest
              (mkPush (delete_task_row key calendar_url (ps_session st))
                      r (S (ps_pushed_count st)) (ps_errors st))
        end
      else
        push_loop c calendar_url rest
                  (push_done calendar_url key task st r)
  end.

(** The route: its response, or the exception that leaves it (the
    framework answers that with status 500), and the state reached. *)
Definition push_pending (calendar_url : string) (r : R) (s : session)
  : outcome string response * session * R :=
  match client with
  | None =>
      (Returned (mkResponse 503 (Error "CalDAV client not available")),
       s, r)
  | Some c =>
      let unsynced := unsynced_tasks calendar_url s in
      match unsynced with
      | [] => (Returned (mkResponse 200 NoPendingTasks), s, r)
      | _ =>
          match push_loop c calendar_url unsynced (mkPush s r 0 []) with
          | (Raised e, st) => (Raised e, ps_session st, ps_remote st)
          | (Returned _, st) =>
              (Returned
                 (mkResponse 200
                    (PushCompleted (ps_pushed_count st) (ps_errors st)
                       (length unsynced - ps_pushed_count st))),
               commit (ps_session st), ps_remote st)
          end
      end
  end.

End Routes.

End App.

(* ================================================================== *)
(** ** The client's calls to the server (caldav_client.py) *)
(* ================================================================== *)

Module Client.
Import Py Retry VObject Codec.

(** The exceptions the methods of [CalDAVClient] raise themselves:
    [CalDAVError] and its subclasses, and the [ValueError] of
    [create_task].  None of them is one of the three classes the retry
    decorator catches. *)
Inductive caldav_class := Base | Connection | Auth | TaskNotFound.

Inductive client_exc :=
| RaiseCalDAVError (cls : caldav_class) (msg : string)
| RaiseValueError (msg : string).

Definition to_pyexc (e : client_exc) : pyexc :=
  match e with
  | RaiseCalDAVError _ msg => OtherException msg
  | RaiseValueError msg => OtherException msg
  end.

(** [str(e)] *)
Definition str_exc (e : pyexc) : string :=
  match e with
  | ConnectionError msg | TimeoutError msg | PropfindError msg
  | OtherException msg => msg
  end.

Definition str_raised (e : raised) : string :=
  match e with
  | Reraised e => str_exc e
  | CalDAVConnectionError max_retries last_exception =>
      "Failed after " ++ str_of_int (Z.of_nat max_retries) ++ " attempts: "
      ++ match last_exception with
         | Some e => str_exc e
         | None => "None"
         end
  end.

(** A calendar object of the caldav library: its URL and the handle by
    which the server knows it. *)
Record calendar := mkCalendar { url : string; handle : nat }.

(** The attributes of [CalDAVClient] the methods below read or assign. *)
Record client := mkClientState {
  _client : bool;               (* [self._client is not None] *)
  _connection_verified : bool;
  _calendar_cache : list (string * calendar)
}.

Definition set_calendar_cache (cache : list (string * calendar))
           (c : client) : client :=
  mkClientState (_client c) (_connection_verified c) cache.

(** [is_connected()] *)
Definition is_connected (c : client) : bool :=
  (_connection_verified c && _client c)%bool.

(** [self._calendar_cache.get(k)]; [k in cache] is [Some]. *)
Fixpoint cache_get (k : string) (cache : list (string * calendar))
  : option calendar :=
  match cache with
  | [] => None
  | (k', v) :: r => if k' =? k then Some v else cache_get k r
  end.

(** [self._calendar_cache[k] = v] *)
Fixpoint cache_set (k : string) (v : calendar)
         (cache : list (string * calendar)) : list (string * calendar) :=
  match cache with
  | [] => [(k, v)]
  | (k', v') :: r =>
      if k' =? k then (k, v) :: r else (k', v') :: cache_set k v r
  end.

(** The decorated method: the body's exceptions reach the decorator as
    Python exceptions; the default [delay] is 1.0. *)
Definition decorated {St A : Type} (max_retries : nat)
           (body : St -> outcome client_exc A * St)
  : St -> outcome raised A * St * list event :=
  retry_on_failure
    (fun st =>
       match body st with
       | (Returned a, st') => (Returned a, st')
       | (Raised e, st') => (Raised (to_pyexc e), st')
       end)
    max_retries 1.

Section Server.
(** The server and the connection to it: [W] is their state, [T] the
    objects [todo_by_uid] returns.  Each request may raise any exception
    and may change the state. *)
Context {W T : Type}.
(** [self._principal.calendars()] *)
Variable principal_calendars : W -> outcome pyexc (list calendar) * W.
(** [calendar.todo_by_uid(uid)] *)
Variable todo_by_uid : calendar -> string -> W -> outcome pyexc T * W.
(** [task.delete()] *)
Variable todo_delete : T -> W -> outcome pyexc unit * W.
(** [vtodo.serialize()], vobject's serializer: the text of the calendar
    object, or the exception it raises. *)
Variable serialize : component -> outcome pyexc string.
(** [calendar.add_todo(vtodo_data)] *)
Variable add_todo : calendar -> string -> W -> outcome pyexc unit * W.

Definition state : Type := (client * W)%type.

(** The body of [get_calendar_by_url(calendar_url)]. *)
Definition get_calendar_by_url_body (calendar_url : string) (st : state)
  : outcome client_exc calendar * state :=
  let '(c, w) := st in
  if negb (is_connected c) then
    (Raised (RaiseCalDAVError Connection "Client is not connected"), st)
  else
    (* Check cache first *)
    match cache_get calendar_url (_calendar_cache c) with
    | Some cal => (Returned cal, st)
    | None =>
        match principal_calendars w with
        | (Raised e, w) =>
            (Raised (RaiseCalDAVError Base
                       ("Failed to get calendar: " ++ str_exc e)),
             (c, w))
        | (Returned calendars, w) =>
            match find (fun cal => url cal =? calendar_url) calendars with
            | Some cal =>
                (* Cache the calendar *)
                (Returned cal,
                 (set_calendar_cache
                    (cache_set calendar_url cal (_calendar_cache c)) c,
                  w))
            | None =>
                (Raised (RaiseCalDAVError TaskNotFound
                           ("Calendar URL not found: " ++ calendar_url)),
                 (c, w))
            end
        end
    end.

(** [@retry_on_failure(max_retries=3) get_calendar_by_url] *)
Definition get_calendar_by_url (calendar_url : string)
  : state -> outcome raised calendar * state * list event :=
  decorated 3 (get_calendar_by_url_body calendar_url).

(** [_find_task_by_uid(uid, calendar)]: [NotFoundError] and every other
    exception give [None]. *)
Definition _find_task_by_uid (uid : string) (cal : calendar) (w : W)
  : option T * W :=
  match todo_by_uid cal uid w with
  | (Returned task, w) => (Some task, w)
  | (Raised _, w) => (None, w)
  end.

(** [get_task_by_uid(uid, calendar_url)]: the calendar is looked up
    outside the [try] block. *)
Definition get_task_by_uid (uid calendar_url : string) (st : state)
  : outcome raised (option T) * state :=
  match get_calendar_by_url calendar_url st with
  | (Raised e, st, _) => (Raised e, st)
  | (Returned cal, (c, w), _) =>
      match todo_by_uid cal uid w with
      | (Returned task, w) => (Returned (Some task), (c, w))
      | (Raised _, w) => (Returned None, (c, w))
      end
  end.

(** The body of [delete_task(uid, calendar_url)]. *)
Definition delete_task_body (uid calendar_url : string) (st : state)
  : outcome client_exc bool * state :=
  match get_calendar_by_url calendar_url st with
  | (Raised e, st, _) =>
      (Raised (RaiseCalDAVError Base
                 ("Task deletion failed: " ++ str_raised e)), st)
  | (Returned cal, (c, w), _) =>
      match _find_task_by_uid uid cal w with
      | (Some task, w) =>
          match todo_delete task w with
          | (Returned _, w) => (Returned true, (c, w))
          | (Raised e, w) =>
              (Raised (RaiseCalDAVError Base
                         ("Task deletion failed: " ++ str_exc e)),
               (c, w))
          end
      | (None, w) => (Returned false, (c, w))
      end
  end.

(** [@retry_on_failure(max_retries=2) delete_task] *)
Definition delete_task (uid calendar_url : string)
  : state -> outcome raised bool * state * list event :=
  decorated 2 (delete_task_body uid calendar_url).

Section Create.
Variable fromisoformat : string -> option datetime.
Variable local_offset : Z.
(** [str(uuid.uuid4())] in [create_task], and the clock. *)
Variable fresh_uuid : string.
Variable now : Z.

(** The body of [create_task(summary, calendar_url, parent_uid,
    description, due, priority)]. *)
Definition create_task_body (summary calendar_url : string)
           (parent_uid description : option string) (due priority : pyval)
           (st : state) : outcome client_exc string * state :=
  if ((summary =? "") || (strip summary =? ""))%bool then
    (Raised (RaiseValueError "Task summary cannot be empty"), st)
  else
    match get_calendar_by_url calendar_url st with
    | (Raised e, st, _) =>
        (Raised (RaiseCalDAVError Base
                   ("Task creation failed: " ++ str_raised e)), st)
    | (Returned cal, (c, w), _) =>
        let uid := fresh_uuid in
        (* Validate parent exists if specified *)
        let '(parent_uid, w) :=
          match parent_uid with
          | Some p =>
              if p =? "" then (parent_uid, w)
              else
                match _find_task_by_uid p cal w with
                | (Some _, w) => (parent_uid, w)
                | (None, w) => (None, w)
                end
          | None => (parent_uid, w)
          end in
        match _create_vtodo fromisoformat local_offset fresh_uuid now
                summary uid parent_uid description due priority with
        | Raised msg =>
            (Raised (RaiseCalDAVError Base
                       ("Task creation failed: " ++ msg)), (c, w))
        | Returned vtodo =>
            (* [return vtodo.serialize()], in the [try] block of
               [_create_vtodo] *)
            match serialize vtodo with
            | Raised e =>
                (Raised (RaiseCalDAVError Base
                           ("Task creation failed: Failed to create VTODO: "
                            ++ str_exc e)),
                 (c, w))
            | Returned vtodo_data =>
                match add_todo cal vtodo_data w with
                | (Raised e, w) =>
                    (Raised (RaiseCalDAVError Base
                               ("Task creation failed: " ++ str_exc e)),
                     (c, w))
                | (Returned _, w) => (Returned uid, (c, w))
                end
            end
        end
    end.

(** [@retry_on_failure(max_retries=2) create_task] *)
Definition create_task (summary calendar_url : string)
           (parent_uid description : option string) (due priority : pyval)
  : state -> outcome raised string * state * list event :=
  decorated 2 (create_task_body summary calendar_url parent_uid
                                description due priority).
End Create.
End Server.

End Client.

(* ================================================================== *)
(** ** DELETE /tasks/<uid> (app.py) *)
(* ================================================================== *)

Module DeleteRoute.
Import Py Models App.

Inductive delete_body :=
| DeleteError (msg : string)
| TaskDeleted (is_synced : bool).     (* message 'Task deleted' *)

Record delete_response := mkDeleteResponse {
  dr_status : nat;
  dr_body : delete_body
}.

Section Route.
Context {R : Type}.
Variable client : option (caldav_client R).
Variable now : Z.

(** [task.is_synced if task.operation == 'delete' else True] *)
Definition reported_is_synced (task : Task) : bool :=
  if operation_is "delete" task then is_synced task else true.

(** The route; no commit is modelled to fail. *)
Definition delete_task (calendar_url uid : string) (r : R) (s : session)
  : delete_response * session * R :=
  match find_task uid calendar_url s with
  | None => (mkDeleteResponse 404 (DeleteError "Task not found"), s, r)
  | Some task =>
      match client with
      | Some c =>
          let '(o, r) := cl_delete_task c r uid calendar_url in
          match handle_caldav_error o with
          | (Some _, _) =>
              (* Success *)
              let s := delete_task_row uid calendar_url s in
              let s :=
                log_sync_operation calendar_url "delete" (Some uid)
                                   "success" None s in
              (mkDeleteResponse 200 (TaskDeleted (reported_is_synced task)),
               commit s, r)
          | (None, error) =>
              let task := mark_for_sync "delete" now task in
              let s := store_task uid calendar_url task s in
              let s :=
                log_sync_operation calendar_url "delete" (Some uid)
                                   "error" error s in
              (mkDeleteResponse 200 (TaskDeleted (reported_is_synced task)),
               commit s, r)
          end
      | None =>
          let task := mark_for_sync "delete" now task in
          let s := store_task uid calendar_url task s in
          (mkDeleteResponse 200 (TaskDeleted (reported_is_synced task)),
           commit s, r)
      end
  end.
End Route.

End DeleteRoute.

(* ================================================================== *)
(** ** POST /tasks/bulk (app.py) *)
(* ================================================================== *)

Module BulkRoute.
Import Py Models App.

(** The JSON body; [operation] is there (the decorator requires it). *)
Record bulk_request := mkBulk {
  bk_calendar_url : option string;
  bk_operation : string;
  bk_task_uids : list string;       (* [data.get('task_uids', [])] *)
  bk_priority : pyval               (* [data.get('priority')] *)
}.

(** The exception noted in [errors]: the one of [int(priority)], or the
    [ValueError] of the priority validator with its message. *)
Inductive bulk_exc :=
| IntError (e : conv_error)
| PriorityError (msg : string).

Record bulk_error := mkBulkError { be_uid : string; be_error : bulk_exc }.

Inductive bulk_body :=
| BulkError (msg : string)
| BulkCompleted (operation : string) (updated_count total_requested : nat)
                (errors : list bulk_error).

Record bulk_response := mkBulkResponse {
  bulk_status : nat;
  bulk_body_of : bulk_body
}.

Definition valid_operations : list string :=
  ["complete"; "incomplete"; "delete"; "set_priority"].

Section Route.
Context {R : Type}.
Variable client : option (caldav_client R).
Variable now : Z.

Record bulk_state := mkBulkState {
  bs_session : session;
  bs_remote : R;
  bs_updated_count : nat;
  bs_errors : list bulk_error
}.

(** [Task.query.filter(Task.uid.in_(task_uids),
    Task.calendar_url == calendar_url).all()] *)
Definition matching_tasks (task_uids : list string) (calendar_url : string)
           (s : session) : list Task :=
  filter (fun t => (existsb (String.eqb (uid t)) task_uids
                    && (Models.calendar_url t =? calendar_url))%bool)
         (tasks (working s)).

(** The block under [# Mark for sync if needed].  [client.update_task] is
    called with the uid and the calendar URL in the places of [todo] and
    [summary], and with [summary] once more by keyword: Python raises
    [TypeError] before the method runs.  [handle_caldav_error] makes
    [(None, msg)] of it, so [result] is false and the server is not
    contacted. *)
Definition sync_completion (task : Task) : Task :=
  match client with
  | Some _ => mark_for_sync "update" now task
  | None => task
  end.

(** One iteration of [for task in tasks]. *)
Definition bulk_one (calendar_url operation : string) (priority : pyval)
           (st : bulk_state) (task : Task) : bulk_state :=
  let s := bs_session st in
  let key := uid task in
  if operation =? "complete" then
    let '(task, n) :=
      if negb (completed task)
      then (mark_completed now task, S (bs_updated_count st))
      else (task, bs_updated_count st) in
    mkBulkState (store_task key calendar_url (sync_completion task) s)
                (bs_remote st) n (bs_errors st)
  else if operation =? "incomplete" then
    let '(task, n) :=
      if completed task
      then (mark_incomplete now task, S (bs_updated_count st))
      else (task, bs_updated_count st) in
    mkBulkState (store_task key calendar_url (sync_completion task) s)
                (bs_remote st) n (bs_errors st)
  else if operation =? "delete" then
    match client with
    | Some c =>
        let '(o, r) := cl_delete_task c (bs_remote st) key calendar_url in
        match handle_caldav_error o with
        | (Some _, _) =>
            mkBulkState (delete_task_row key calendar_url s) r
                        (S (bs_updated_count st)) (bs_errors st)
        | (None, _) =>
            mkBulkState
              (store_task key calendar_url
                          (mark_for_sync "delete" now task) s)
              r (S (bs_updated_count st)) (bs_errors st)
        end
    | None =>
        mkBulkState
          (store_task key calendar_url (mark_for_sync "delete" now task) s)
          (bs_remote st) (S (bs_updated_count st)) (bs_errors st)
    end
  else if operation =? "set_priority" then
    match priority with
    | PyNone => st
    | _ =>
        match int_result priority with
        | Raised e =>
            mkBulkState s (bs_remote st) (bs_updated_count st)
                        (bs_errors st ++ [mkBulkError key (IntError e)])
        | Returned z =>
            match validate_priority (PyInt z) with
            | Raised msg =>
                mkBulkState s (bs_remote st) (bs_updated_count st)
                            (bs_errors st
                             ++ [mkBulkError key (PriorityError msg)])
            | Returned p =>
                mkBulkState
                  (store_task key calendar_url
                     (mark_for_sync "update" now (set_priority p task)) s)
                  (bs_remote st) (S (bs_updated_count st)) (bs_errors st)
            end
        end
    end
  else st.

(** The route; the commit is taken to succeed. *)
Definition bulk_task_operations (data : bulk_request) (r : R) (s : session)
  : bulk_response * session * R :=
  match bk_calendar_url data with
  | None => (mkBulkResponse 400 (BulkError "Missing calendar_url"), s, r)
  | Some calendar_url =>
  if calendar_url =? "" then
    (mkBulkResponse 400 (BulkError "Missing calendar_url"), s, r)
  else
  match bk_task_uids data with
  | [] => (mkBulkResponse 400 (BulkError "No task UIDs provided"), s, r)
  | task_uids =>
  if negb (existsb (String.eqb (bk_operation data)) valid_operations) then
    (mkBulkResponse 400
       (BulkError
          "Invalid operation. Must be one of: ['complete', 'incomplete', 'delete', 'set_priority']"),
     s, r)
  else
  match matching_tasks task_uids calendar_url s with
  | [] => (mkBulkResponse 404 (BulkError "No matching tasks found"), s, r)
  | tasks =>
      let st :=
        fold_left (bulk_one calendar_url (bk_operation data)
                            (bk_priority data))
                  tasks (mkBulkState s r 0 []) in
      (mkBulkResponse 200
         (BulkCompleted (bk_operation data) (bs_updated_count st)
                        (length task_uids) (bs_errors st)),
       commit (bs_session st), bs_remote st)
  end
  end
  end.
End Route.

End BulkRoute.

(* ================================================================== *)
(** * Properties *)
(* ================================================================== *)

Module RetryFacts.
Import Retry.

Lemma backoff_0 (delay : Q) : backoff delay 0 == delay.
Proof.
  unfold backoff. change (inject_Z (2 ^ Z.of_nat 0)) with 1%Q. ring.
Qed.

Lemma backoff_1 (delay : Q) : backoff delay 1 == 2 * delay.
Proof.
  unfold backoff. change (inject_Z (2 ^ Z.of_nat 1)) with 2%Q. ring.
Qed.

Lemma backoff_succ (delay : Q) (k : nat) :
  backoff delay (S k) == 2 * backoff delay k.
Proof.
  unfold backoff.
  rewrite Nat2Z.inj_succ, Z.pow_succ_r by apply Nat2Z.is_nonneg.
  rewrite inject_Z_mult. change (inject_Z 2) with 2%Q. ring.
Qed.

Section General.
Context {St A : Type}.
Variable func : St -> outcome pyexc A * St.
Variable max_retries : nat.
Variable delay : Q.

(** The trace of [n] failed attempts from attempt [k] on, each followed
    by its sleep, and then the attempt that returns. *)
Fixpoint expected_trace (k n : nat) : list event :=
  match n with
  | O => [Invoked]
  | S n' => Invoked :: Slept (backoff delay k) :: expected_trace (S k) n'
  end.

Lemma attempts_fails_then_returns n :
  forall todo k last s a s' tr,
    fails_then_returns func n s a s' ->
    (n < todo)%nat -> (k + n < max_retries)%nat ->
    attempts func max_retries delay todo k last s tr
    = (Returned a, s', tr ++ expected_trace k n).
Proof.
  induction n as [|n IH]; intros todo k last s a s' tr H Htodo Hmax;
    inversion H; subst; destruct todo as [|todo]; try lia; simpl.
  - rewrite H0. reflexivity.
  - rewrite H1, H2.
    assert (Hlt : (k <? max_retries - 1)%nat = true)
      by (apply Nat.ltb_lt; lia).
    rewrite Hlt.
    rewrite (IH todo (S k) (Some e) s1 a s'
                (tr ++ [Invoked; Slept (backoff delay k)]) H3)
      by lia.
    rewrite <- app_assoc. reflexivity.
Qed.

Lemma invocations_expected k n : invocations (expected_trace k n) = S n.
Proof.
  revert k. induction n as [|n IH]; intros k; simpl; [reflexivity|].
  unfold invocations in *. simpl. rewrite IH. reflexivity.
Qed.

Lemma sleeps_expected k n :
  sleeps (expected_trace k n) = map (backoff delay) (seq k n).
Proof.
  revert k. induction n as [|n IH]; intros k; simpl; [reflexivity|].
  rewrite IH. reflexivity.
Qed.

Lemma delay_before_from_expected n :
  forall k prev j, (j <= n)%nat ->
    delay_before_from prev (expected_trace k n) j
    = match j with
      | O => prev
      | S j' => Some (backoff delay (k + j'))
      end.
Proof.
  induction n as [|n IH]; intros k prev j Hj.
  - assert (j = 0)%nat by lia. subst. reflexivity.
  - destruct j as [|j]; [reflexivity|]. simpl.
    rewrite IH by lia. destruct j as [|j].
    + rewrite Nat.add_0_r. reflexivity.
    + f_equal. f_equal. lia.
Qed.

(** The schedule in general: after [n] transient failures in a row,
    with [n] below [max_retries], the call has been made [n + 1] times,
    the value of the last call is returned, and the sleep before
    attempt [k] (counted from 0, [k] at least 1) is
    [delay * 2 ^ (k - 1)]; nothing is slept before attempt 0. *)
Lemma retry_schedule n s a s' :
  (n < max_retries)%nat ->
  fails_then_returns func n s a s' ->
  exists tr,
    wrapper func max_retries delay s = (Returned a, s', tr)
    /\ invocations tr = S n
    /\ sleeps tr = map (backoff delay) (seq 0 n)
    /\ delay_before tr 0 = None
    /\ forall k, (1 <= k <= n)%nat ->
                 delay_before tr k = Some (backoff delay (k - 1)).
Proof.
  intros Hn H. exists (expected_trace 0 n). unfold wrapper.
  rewrite (attempts_fails_then_returns n max_retries 0 None s a s' [] H)
    by lia.
  repeat split.
  - apply invocations_expected.
  - apply sleeps_expected.
  - unfold delay_before. now rewrite delay_before_from_expected by lia.
  - intros k Hk. unfold delay_before.
    rewrite delay_before_from_expected by lia.
    destruct k as [|k]; [lia|]. simpl. now rewrite Nat.sub_0_r.
Qed.
End General.

(** A call that raises [ConnectionError], then [TimeoutError], then
    returns 7. *)
Definition two_failures : list (outcome pyexc nat) :=
  [Raised (ConnectionError "refused"); Raised (TimeoutError "timed out");
   Returned 7%nat].

Definition run_two_failures (delay : Q) :=
  wrapper (scripted (Raised (OtherException "script exhausted")))
          3 delay two_failures.

(** C8: with [max_retries = 3] and base delay [delay], a call that
    raises a transient exception on its first two invocations and
    returns on the third is invoked exactly 3 times and its value is
    returned; the sleeps requested before the second and the third
    invocation are [delay] and [2 * delay], in total
    [delay + 2 * delay]; and the schedule is [delay * 2 ^ k], where [k]
    is the value of the loop variable [attempt] when the sleep is
    requested: the sleep that follows the failure of attempt [k]
    (counted from 0, as [range(max_retries)] does) and comes before
    attempt [k + 1].  Nothing is slept before attempt 0. *)
Theorem retry_two_failures_then_success
        {St A : Type} (func : St -> outcome pyexc A * St)
        (delay : Q) (s s' : St) (a : A) :
  fails_then_returns func 2 s a s' ->
  exists tr d1 d2,
    wrapper func 3 delay s = (Returned a, s', tr)
    /\ invocations tr = 3%nat
    /\ tr = [Invoked; Slept d1; Invoked; Slept d2; Invoked]
    /\ d1 == delay /\ d2 == 2 * delay
    /\ total_delay tr == delay + 2 * delay
    /\ delay_before tr 0 = None
    /\ (forall k, (k < 2)%nat ->
                  nth_error (sleeps tr) k = Some (backoff delay k)
                  /\ delay_before tr (S k) = Some (backoff delay k))
    /\ delay_before tr 3 = None.
Proof.
  intros H.
  exists (expected_trace delay 0 2), (backoff delay 0), (backoff delay 1).
  unfold wrapper.
  rewrite (attempts_fails_then_returns func 3 delay 2 3 0 None s a s' [] H)
    by lia.
  split; [reflexivity|]. split; [reflexivity|]. split; [reflexivity|].
  split; [apply backoff_0|]. split; [apply backoff_1|].
  split; [|split; [reflexivity|split; [|reflexivity]]].
  - unfold total_delay. simpl. rewrite backoff_0, backoff_1. ring.
  - intros k Hk.
    destruct k as [|[|k]]; [split; reflexivity | split; reflexivity | lia].
Qed.

Lemma two_failures_script :
  fails_then_returns
    (scripted (Raised (OtherException "script exhausted")))
    2 two_failures 7%nat [].
Proof.
  unfold two_failures.
  eapply ftr_fails; [reflexivity | reflexivity |].
  eapply ftr_fails; [reflexivity | reflexivity |].
  apply ftr_returns. reflexivity.
Defined.

Lemma retry_two_failures_then_success_witness :
  exists tr d1 d2,
    run_two_failures 1 = (Returned 7%nat, [], tr)
    /\ invocations tr = 3%nat
    /\ tr = [Invoked; Slept d1; Invoked; Slept d2; Invoked]
    /\ d1 == 1 /\ d2 == 2 * 1
    /\ total_delay tr == 1 + 2 * 1
    /\ delay_before tr 0 = None
    /\ (forall k, (k < 2)%nat ->
                  nth_error (sleeps tr) k = Some (backoff 1 k)
                  /\ delay_before tr (S k) = Some (backoff 1 k))
    /\ delay_before tr 3 = None.
Proof.
  exact (retry_two_failures_then_success
           (scripted (Raised (OtherException "script exhausted")))
           1 two_failures [] 7%nat two_failures_script).
Defined.

End RetryFacts.

Module VObjectFacts.
Import Py VObject.

Lemma named_diff n m v ps : m <> n -> named n (mkLine m v ps) = false.
Proof. intros H. unfold named. simpl. now apply String.eqb_neq. Qed.

Lemma values_of_app n c1 c2 :
  values_of n (c1 ++ c2) = values_of n c1 ++ values_of n c2.
Proof. unfold values_of. now rewrite filter_app, map_app. Qed.

Lemma values_of_add_same n v ps c :
  values_of n (add n v ps c) = values_of n c ++ [v].
Proof.
  unfold add. rewrite values_of_app. f_equal.
  unfold values_of. cbn [filter]. unfold named at 1. cbn [name].
  now rewrite String.eqb_refl.
Qed.

Lemma values_of_add_other n m v ps c :
  m <> n -> values_of n (add m v ps c) = values_of n c.
Proof.
  intros H. unfold add. rewrite values_of_app.
  unfold values_of at 2. cbn [filter].
  rewrite named_diff by assumption. apply app_nil_r.
Qed.

Lemma named_trans n m l : named m l = true -> m <> n -> named n l = false.
Proof.
  unfold named. intros H1 H2. apply String.eqb_eq in H1.
  apply String.eqb_neq. congruence.
Qed.

Lemma values_of_cons n l r :
  values_of n (l :: r)
  = if named n l then value l :: values_of n r else values_of n r.
Proof. unfold values_of. cbn [filter]. now destruct (named n l). Qed.

Lemma named_set n l v : named n (mkLine (name l) v (params l)) = named n l.
Proof. reflexivity. Qed.

Lemma values_of_set_value_other n m v c :
  m <> n -> values_of n (set_value m v c) = values_of n c.
Proof.
  intros H. induction c as [|l r IH]; [reflexivity|]. cbn [set_value].
  destruct (named m l) eqn:E.
  - rewrite !values_of_cons, named_set.
    now rewrite (named_trans n m l E H).
  - rewrite !values_of_cons, IH. reflexivity.
Qed.

Lemma values_of_set_value_same n v c :
  values_of n (set_value n v c)
  = match values_of n c with [] => [] | _ :: r => v :: r end.
Proof.
  induction c as [|l r IH]; [reflexivity|]. cbn [set_value].
  destruct (named n l) eqn:E.
  - rewrite !values_of_cons, named_set, E. reflexivity.
  - rewrite !values_of_cons, E. exact IH.
Qed.

Lemma values_of_remove_first_other n m c :
  m <> n -> values_of n (remove_first m c) = values_of n c.
Proof.
  intros H. induction c as [|l r IH]; [reflexivity|]. cbn [remove_first].
  destruct (named m l) eqn:E.
  - rewrite values_of_cons. now rewrite (named_trans n m l E H).
  - rewrite !values_of_cons, IH. reflexivity.
Qed.

Lemma values_of_remove_first_same n c :
  values_of n (remove_first n c) = tl (values_of n c).
Proof.
  induction c as [|l r IH]; [reflexivity|]. cbn [remove_first].
  destruct (named n l) eqn:E.
  - rewrite values_of_cons, E. reflexivity.
  - rewrite !values_of_cons, E. exact IH.
Qed.

Lemma values_of_remove_all_same n c : values_of n (remove_all n c) = [].
Proof.
  unfold remove_all. induction c as [|l r IH]; [reflexivity|].
  cbn [filter]. destruct (named n l) eqn:E; cbn [negb]; [exact IH|].
  rewrite values_of_cons, E. exact IH.
Qed.

Lemma values_of_remove_all_other n m c :
  m <> n -> values_of n (remove_all m c) = values_of n c.
Proof.
  intros H. unfold remove_all.
  induction c as [|l r IH]; [reflexivity|]. cbn [filter].
  destruct (named m l) eqn:E; cbn [negb].
  - rewrite values_of_cons. now rewrite (named_trans n m l E H).
  - rewrite !values_of_cons, IH. reflexivity.
Qed.

Lemma has_values_of n c :
  has n c = match values_of n c with [] => false | _ => true end.
Proof.
  unfold has. induction c as [|l r IH]; [reflexivity|].
  cbn [existsb]. rewrite values_of_cons.
  destruct (named n l); [reflexivity | exact IH].
Qed.

Lemma values_of_set_or_add_same n v c :
  values_of n (set_or_add n v c)
  = match values_of n c with [] => [v] | _ :: r => v :: r end.
Proof.
  unfold set_or_add. rewrite has_values_of.
  destruct (values_of n c) eqn:E.
  - rewrite values_of_add_same, E. reflexivity.
  - rewrite values_of_set_value_same, E. reflexivity.
Qed.

Lemma values_of_set_or_add_other n m v c :
  m <> n -> values_of n (set_or_add m v c) = values_of n c.
Proof.
  intros H. unfold set_or_add. destruct (has m c).
  - now apply values_of_set_value_other.
  - now apply values_of_add_other.
Qed.

End VObjectFacts.

Module CodecFacts.
Import Py VObject Codec VObjectFacts.

(** *** Decoding the priority *)

Lemma clamp_priority_range z : (1 <= clamp_priority z <= 9)%Z.
Proof. unfold clamp_priority. lia. Qed.

Lemma read_lines_text parse_date_time raw :
  forall c n,
    read_lines parse_date_time raw = Some c ->
    is_native n = false -> is_multi_text n = false ->
    safe_get_value n c
    = match safe_get_text n raw with Some s => PyStr s | None => PyNone end.
Proof.
  induction raw as [|l r IH]; intros c n H Hn Hm.
  - inversion H. reflexivity.
  - cbn [read_lines] in H.
    destruct (native_value parse_date_time l) as [v|] eqn:Ev;
      [|discriminate].
    destruct (read_lines parse_date_time r) as [c'|] eqn:Er;
      [|discriminate].
    inversion H; subst c. clear H.
    unfold safe_get_value, safe_get_text, first in *. cbn [find].
    unfold named at 1. cbn [name].
    destruct (raw_name l =? n) eqn:E.
    + cbn [value option_map]. apply String.eqb_eq in E.
      unfold native_value in Ev. rewrite E, Hn, Hm in Ev.
      now inversion Ev.
    + apply (IH c' n eq_refl Hn Hm).
Qed.

Lemma decode_priority parse_date_time local_offset fresh_uuid d t :
  _parse_vtodo_safely parse_date_time local_offset fresh_uuid d = Some t ->
  td_priority t
  = match priority_text d with
    | Some s => option_map clamp_priority (int_of_str s)
    | None => None
    end.
Proof.
  unfold _parse_vtodo_safely, priority_text. intros H.
  destruct d as [cs|]; [|discriminate].
  destruct (readOne parse_date_time (Some cs)); [|discriminate].
  destruct (find (fun c => comp_name c =? "VTODO") cs) as [rc|];
    [|discriminate].
  destruct (read_lines parse_date_time (comp_lines rc)) as [vtodo|] eqn:E;
    [|discriminate].
  inversion H; subst t; clear H. cbn [td_priority].
  rewrite (read_lines_text _ _ _ "PRIORITY" E eq_refl eq_refl).
  destruct (safe_get_text "PRIORITY" (comp_lines rc)) as [s|];
    [|reflexivity].
  unfold parse_priority, int, int_result.
  destruct (int_of_str s); reflexivity.
Qed.

(** A record with PRIORITY:0. *)
Definition record_priority_0 : todo_data :=
  Some [mkComp "VTODO" [mkRaw "UID" "task-1"; mkRaw "SUMMARY" "Water plants";
                        mkRaw "PRIORITY" "0"]].

Definition no_dates : string -> option pyval := fun _ => None.

(** C3, as stated, fails: a priority field of 0 is decoded as 1, not as
    an absent priority. *)
Lemma decode_priority_0_is_1 :
  exists t,
    _parse_vtodo_safely no_dates 0 "fresh" record_priority_0 = Some t
    /\ td_priority t = Some 1%Z /\ td_priority t <> None.
Proof.
  eexists. split; [reflexivity|]. split; [reflexivity | discriminate].
Qed.

(** C3, amended: for every decoded record, a priority field of 15 yields
    priority 9, a priority field of 0 yields priority 1 (a value below the
    range is clamped up to 1, a value above it down to 9), and a field
    that is no integer, such as "abc", yields an absent priority. *)
Theorem decode_priority_clamped
        parse_date_time local_offset fresh_uuid d t :
  _parse_vtodo_safely parse_date_time local_offset fresh_uuid d = Some t ->
  (priority_text d = Some "15" -> td_priority t = Some 9%Z)
  /\ (priority_text d = Some "0" -> td_priority t = Some 1%Z)
  /\ (priority_text d = Some "abc" -> td_priority t = None)
  /\ (forall s z,
         priority_text d = Some s -> int_of_str s = Some z ->
         td_priority t = Some (Z.max 1 (Z.min 9 z))
         /\ ((z < 1)%Z -> td_priority t = Some 1%Z)
         /\ ((9 < z)%Z -> td_priority t = Some 9%Z)
         /\ ((1 <= z <= 9)%Z -> td_priority t = Some z))
  /\ (forall s,
         priority_text d = Some s -> int_of_str s = None ->
         td_priority t = None).
Proof.
  intros H. rewrite (decode_priority _ _ _ _ _ H).
  repeat split.
  - now intros ->.
  - now intros ->.
  - now intros ->.
  - rewrite H0, H1. reflexivity.
  - intros Hz. rewrite H0, H1. cbn [option_map]. unfold clamp_priority.
    f_equal. lia.
  - intros Hz. rewrite H0, H1. cbn [option_map]. unfold clamp_priority.
    f_equal. lia.
  - intros Hz. rewrite H0, H1. cbn [option_map]. unfold clamp_priority.
    f_equal. lia.
  - intros s Hs Hi. rewrite Hs, Hi. reflexivity.
Qed.

Lemma decode_priority_clamped_witness :
  exists t,
    _parse_vtodo_safely no_dates 0 "fresh" record_priority_0 = Some t
    /\ td_priority t = Some 1%Z.
Proof.
  eexists. split; [reflexivity|].
  apply (decode_priority_clamped no_dates 0 "fresh" record_priority_0 _
           eq_refl).
  reflexivity.
Defined.

End CodecFacts.

Module EncodeFacts.
Import Py VObject Codec VObjectFacts.

Section Encode.
Variable fromisoformat : string -> option datetime.
Variable local_offset : Z.
Variable str_other : pyval -> string.

Definition update_vtodo' :=
  update_vtodo fromisoformat local_offset str_other.

(** *** What the validation pass does to the values under one name *)

Definition fix_value (n : string) (v : pyval) : list pyval :=
  match fix_of str_other (mkLine n v []) with
  | Keep => [v]
  | Remove => []
  | Update v' => [v']
  end.

Lemma values_of_apply_fix n l :
  values_of n (apply_fix str_other l)
  = if named n l then fix_value (name l) (value l) else [].
Proof.
  unfold apply_fix, fix_value.
  change (fix_of str_other (mkLine (name l) (value l) []))
    with (fix_of str_other l).
  destruct (fix_of str_other l); unfold values_of; cbn [filter map];
    try rewrite named_set; destruct (named n l); reflexivity.
Qed.

Lemma values_of_validate n c :
  values_of n (fst (_validate_and_fix_vtodo_properties str_other c))
  = flat_map (fix_value n) (values_of n c).
Proof.
  cbn [_validate_and_fix_vtodo_properties fst].
  induction c as [|l r IH]; [reflexivity|].
  cbn [flat_map]. rewrite values_of_app, IH, values_of_apply_fix,
    values_of_cons.
  destruct (named n l) eqn:E; [|reflexivity].
  cbn [flat_map]. unfold named in E. apply String.eqb_eq in E.
  now rewrite E.
Qed.

(** Every integer-typed property that leaves the validation pass holds
    a string. *)
Lemma validate_integer_properties_are_strings c l :
  In l (fst (_validate_and_fix_vtodo_properties str_other c)) ->
  mem_name (name l) integer_properties = true ->
  isinstance_str (value l) = true.
Proof.
  cbn [_validate_and_fix_vtodo_properties fst].
  intros Hin Hname.
  apply in_flat_map in Hin. destruct Hin as [child [_ Hl]].
  unfold apply_fix in Hl.
  destruct (fix_of str_other child) eqn:Ef; cbn [In] in Hl;
    try (destruct Hl as [<-|[]]); try contradiction.
  - unfold fix_of in Ef.
    destruct (is_none (value child)); [discriminate|].
    rewrite Hname in Ef.
    destruct (isinstance_int (value child)); [discriminate|].
    destruct (isinstance_str (value child)) eqn:Es; [reflexivity|].
    cbn [negb] in Ef. destruct (int (value child)); discriminate.
  - cbn [name value] in *. unfold fix_of in Ef.
    destruct (is_none (value child)); [discriminate|].
    rewrite Hname in Ef.
    destruct (isinstance_int (value child)); [now inversion Ef|].
    destruct (isinstance_str (value child)); [discriminate|].
    cbn [negb] in Ef.
    destruct (int (value child)); [now inversion Ef | discriminate].
Qed.

(** *** The blocks before the completion block leave other names alone *)

Definition untouched (n : string) : Prop :=
  n <> "SUMMARY" /\ n <> "DESCRIPTION" /\ n <> "RELATED-TO"
  /\ n <> "DUE" /\ n <> "PRIORITY".

Lemma values_of_set_priority_safely n c p :
  "PRIORITY" <> n ->
  values_of n (_set_priority_safely c p) = values_of n c.
Proof.
  intros H. unfold _set_priority_safely.
  destruct p; try destruct (int _); try destruct (has "PRIORITY" c);
    try rewrite values_of_add_other by assumption;
    try rewrite values_of_remove_first_other by assumption;
    reflexivity.
Qed.

Lemma values_of_early_blocks n st summary description parent_uid due
      priority :
  untouched n ->
  values_of n
    (fst (update_priority priority
           (update_due fromisoformat local_offset due
             (update_parent_uid parent_uid
               (update_description description
                 (update_summary summary st))))))
  = values_of n (fst st).
Proof.
  intros (H1 & H2 & H3 & H4 & H5).
  assert (E1 : values_of n (fst (update_summary summary st))
               = values_of n (fst st)).
  { unfold update_summary. destruct summary; [|reflexivity].
    cbn [fst]. apply values_of_set_or_add_other. congruence. }
  set (st1 := update_summary summary st) in *.
  assert (E2 : values_of n (fst (update_description description st1))
               = values_of n (fst st1)).
  { unfold update_description. destruct description as [d|];
      [|reflexivity].
    cbn [fst]. destruct (has "DESCRIPTION" (fst st1));
      destruct (negb _);
      try rewrite values_of_set_value_other by congruence;
      try rewrite values_of_remove_first_other by congruence;
      try rewrite values_of_add_other by congruence; reflexivity. }
  set (st2 := update_description description st1) in *.
  assert (E3 : values_of n (fst (update_parent_uid parent_uid st2))
               = values_of n (fst st2)).
  { unfold update_parent_uid. destruct parent_uid as [p|]; [|reflexivity].
    cbn [fst]. destruct (p =? "");
      try rewrite values_of_add_other by congruence;
      destruct (has "RELATED-TO" (fst st2));
      try rewrite values_of_remove_first_other by congruence;
      reflexivity. }
  set (st3 := update_parent_uid parent_uid st2) in *.
  assert (E4 : values_of n
                 (fst (update_due fromisoformat local_offset due st3))
               = values_of n (fst st3)).
  { unfold update_due.
    destruct (_normalize_date_value fromisoformat local_offset due);
      [|reflexivity].
    cbn [fst]. apply values_of_set_or_add_other. congruence. }
  set (st4 := update_due fromisoformat local_offset due st3) in *.
  assert (E5 : values_of n (fst (update_priority priority st4))
               = values_of n (fst st4)).
  { unfold update_priority.
    destruct priority; try reflexivity; cbn [fst];
      apply values_of_set_priority_safely; congruence. }
  congruence.
Qed.

Lemma untouched_status : untouched "STATUS".
Proof. repeat split; discriminate. Qed.
Lemma untouched_completed : untouched "COMPLETED".
Proof. repeat split; discriminate. Qed.
Lemma untouched_percent : untouched "PERCENT-COMPLETE".
Proof. repeat split; discriminate. Qed.

(** The values under [n] in the serialized VTODO, for a name that only
    the completion block writes. *)
Lemma values_of_update_vtodo n now vtodo summary description parent_uid
      due priority c :
  untouched n -> n <> "LAST-MODIFIED" ->
  values_of n
    (fst (update_vtodo' now vtodo summary description parent_uid due
                        priority (Some c)))
  = flat_map (fix_value n)
      (values_of n
         (fst (update_completed now (Some c) (vtodo, false))))
  /\ snd (update_vtodo' now vtodo summary description parent_uid due
                        priority (Some c)) = true.
Proof.
  intros Hn Hlm. unfold update_vtodo', update_vtodo.
  set (st := update_priority _ _).
  assert (Hst : values_of n (fst st) = values_of n vtodo)
    by (apply (values_of_early_blocks n (vtodo, false)); exact Hn).
  unfold update_finish.
  assert (Hsnd : snd (update_completed now (Some c) st) = true)
    by reflexivity.
  rewrite Hsnd. split; [|reflexivity].
  cbn [fst]. rewrite (values_of_validate n).
  rewrite values_of_set_or_add_other by congruence.
  f_equal. unfold update_completed. cbn [fst].
  destruct c.
  - destruct (String.eqb_spec n "PERCENT-COMPLETE") as [->|Hp].
    + now rewrite !values_of_add_same, !values_of_remove_all_same.
    + rewrite !values_of_add_other, !values_of_remove_all_other
        by congruence.
      destruct (String.eqb_spec n "COMPLETED") as [->|Hc].
      * rewrite !values_of_set_or_add_same.
        rewrite !values_of_set_or_add_other by discriminate.
        now rewrite Hst.
      * rewrite !(values_of_set_or_add_other n "COMPLETED")
          by congruence.
        destruct (String.eqb_spec n "STATUS") as [->|Hs].
        -- rewrite !values_of_set_or_add_same. now rewrite Hst.
        -- rewrite !values_of_set_or_add_other by congruence.
           exact Hst.
  - destruct (String.eqb_spec n "PERCENT-COMPLETE") as [->|Hp].
    + now rewrite !values_of_add_same, !values_of_remove_all_same.
    + rewrite !values_of_add_other, !values_of_remove_all_other
        by congruence.
      rewrite !has_values_of.
      destruct (String.eqb_spec n "COMPLETED") as [->|Hc].
      * rewrite !values_of_set_or_add_other by discriminate.
        rewrite Hst.
        destruct (values_of "COMPLETED" vtodo) eqn:Ev.
        -- rewrite !values_of_set_or_add_other by discriminate.
           congruence.
        -- rewrite !values_of_remove_first_same.
           rewrite !values_of_set_or_add_other by discriminate.
           congruence.
      * assert (Hx : forall x,
                   values_of n
                     (if match values_of "COMPLETED" x with
                         | [] => false | _ :: _ => true end
                      then remove_first "COMPLETED" x else x)
                   = values_of n x).
        { intros x. destruct (values_of "COMPLETED" x);
            [reflexivity|].
          apply values_of_remove_first_other. congruence. }
        rewrite !Hx.
        destruct (String.eqb_spec n "STATUS") as [->|Hs].
        -- rewrite !values_of_set_or_add_same. now rewrite Hst.
        -- rewrite !values_of_set_or_add_other by congruence.
           exact Hst.
Qed.
End Encode.

End EncodeFacts.

Module CompletionFacts.
Import Py VObject Codec VObjectFacts EncodeFacts.

Lemma completed_true_values now c :
  let c' := fst (update_completed now (Some true) (c, false)) in
  values_of "PERCENT-COMPLETE" c' = [PyStr "100"]
  /\ values_of "STATUS" c'
     = match values_of "STATUS" c with
       | [] => [PyStr "COMPLETED"]
       | _ :: r => PyStr "COMPLETED" :: r
       end
  /\ values_of "COMPLETED" c'
     = match values_of "COMPLETED" c with
       | [] => [PyDatetime (mkDatetime now None)]
       | _ :: r => PyDatetime (mkDatetime now None) :: r
       end.
Proof.
  cbn [update_completed fst]. repeat split.
  - now rewrite values_of_add_same, values_of_remove_all_same.
  - rewrite values_of_add_other, values_of_remove_all_other,
      values_of_set_or_add_other by discriminate.
    apply values_of_set_or_add_same.
  - rewrite values_of_add_other, values_of_remove_all_other by discriminate.
    rewrite values_of_set_or_add_same.
    now rewrite values_of_set_or_add_other by discriminate.
Qed.

Lemma completed_false_values now c :
  let c' := fst (update_completed now (Some false) (c, false)) in
  values_of "PERCENT-COMPLETE" c' = [PyStr "0"]
  /\ values_of "COMPLETED" c' = tl (values_of "COMPLETED" c).
Proof.
  cbn [update_completed fst]. split.
  - now rewrite values_of_add_same, values_of_remove_all_same.
  - rewrite values_of_add_other, values_of_remove_all_other by discriminate.
    rewrite has_values_of.
    rewrite !values_of_set_or_add_other by discriminate.
    destruct (values_of "COMPLETED" c) eqn:E.
    + now rewrite values_of_set_or_add_other by discriminate.
    + rewrite values_of_remove_first_same.
      rewrite values_of_set_or_add_other by discriminate.
      now rewrite E.
Qed.

(** A remote record that carries two COMPLETED properties. *)
Definition completed_twice : component :=
  [mkLine "UID" (PyStr "task-1") [];
   mkLine "SUMMARY" (PyStr "Water plants") [];
   mkLine "STATUS" (PyStr "COMPLETED") [];
   mkLine "COMPLETED" (PyDatetime (mkDatetime 1700000000 None)) [];
   mkLine "COMPLETED" (PyDatetime (mkDatetime 1700000600 None)) [];
   mkLine "PERCENT-COMPLETE" (PyStr "100") []].

Definition reopen (vtodo : component) : edit_state :=
  update_vtodo (fun _ => None) 0 (fun _ => "") 1700001000 vtodo
               None None None PyNone PyNone (Some false).

(** C9, as stated, fails: [vtodo.remove(vtodo.completed)] takes away one
    child, the first COMPLETED; a record that came with two is serialized
    with the second one still in it after [completed=False]. *)
Lemma update_reopen_keeps_second_completed :
  snd (reopen completed_twice) = true
  /\ has "COMPLETED" (fst (reopen completed_twice)) = true
  /\ values_of "COMPLETED" (fst (reopen completed_twice))
     = [PyDatetime (mkDatetime 1700000600 None)].
Proof. repeat split. Qed.

(** C9, amended: an update with [completed=True] serializes a record
    whose STATUS is COMPLETED, whose only PERCENT-COMPLETE is the string
    "100" and whose COMPLETED property holds the time of the update; an
    update with [completed=False] serializes a record whose only
    PERCENT-COMPLETE is the string "0" and, when the record came with at
    most one COMPLETED property, with no COMPLETED property. *)
Theorem update_completion_transition
        fromisoformat local_offset str_other now vtodo
        summary description parent_uid due priority :
  (let st := update_vtodo fromisoformat local_offset str_other now vtodo
                          summary description parent_uid due priority
                          (Some true) in
   snd st = true
   /\ (exists rest, values_of "STATUS" (fst st) = PyStr "COMPLETED" :: rest)
   /\ values_of "PERCENT-COMPLETE" (fst st) = [PyStr "100"]
   /\ (exists rest,
          values_of "COMPLETED" (fst st)
          = PyDatetime (mkDatetime now None) :: rest))
  /\ (let st := update_vtodo fromisoformat local_offset str_other now vtodo
                             summary description parent_uid due priority
                             (Some false) in
      snd st = true
      /\ values_of "PERCENT-COMPLETE" (fst st) = [PyStr "0"]
      /\ ((length (values_of "COMPLETED" vtodo) <= 1)%nat ->
          has "COMPLETED" (fst st) = false)).
Proof.
  split; cbv zeta.
  - destruct (completed_true_values now vtodo) as (Hp & Hs & Hc).
    split;
      [apply (values_of_update_vtodo fromisoformat local_offset str_other
                "STATUS"); [apply untouched_status | discriminate]|].
    repeat split.
    + destruct (values_of_update_vtodo fromisoformat local_offset str_other
                  "STATUS" now vtodo summary description parent_uid due
                  priority true untouched_status) as [E _];
        [discriminate|].
      unfold update_vtodo' in E. rewrite E, Hs.
      destruct (values_of "STATUS" vtodo); cbn [flat_map];
        eexists; reflexivity.
    + destruct (values_of_update_vtodo fromisoformat local_offset str_other
                  "PERCENT-COMPLETE" now vtodo summary description
                  parent_uid due priority true untouched_percent)
        as [E _]; [discriminate|].
      unfold update_vtodo' in E. rewrite E, Hp. reflexivity.
    + destruct (values_of_update_vtodo fromisoformat local_offset str_other
                  "COMPLETED" now vtodo summary description parent_uid due
                  priority true untouched_completed) as [E _];
        [discriminate|].
      unfold update_vtodo' in E. rewrite E, Hc.
      destruct (values_of "COMPLETED" vtodo); cbn [flat_map];
        eexists; reflexivity.
  - destruct (completed_false_values now vtodo) as (Hp & Hc).
    split;
      [apply (values_of_update_vtodo fromisoformat local_offset str_other
                "STATUS"); [apply untouched_status | discriminate]|].
    split.
    + destruct (values_of_update_vtodo fromisoformat local_offset str_other
                  "PERCENT-COMPLETE" now vtodo summary description
                  parent_uid due priority false untouched_percent)
        as [E _]; [discriminate|].
      unfold update_vtodo' in E. rewrite E, Hp. reflexivity.
    + intros Hlen.
      destruct (values_of_update_vtodo fromisoformat local_offset str_other
                  "COMPLETED" now vtodo summary description parent_uid due
                  priority false untouched_completed) as [E _];
        [discriminate|].
      unfold update_vtodo' in E. rewrite has_values_of, E, Hc.
      destruct (values_of "COMPLETED" vtodo) as [|v [|v' r]];
        [reflexivity | reflexivity | cbn [length] in Hlen; lia].
Qed.

(** A record that is complete, with one COMPLETED property. *)
Definition completed_once : component :=
  [mkLine "UID" (PyStr "task-1") [];
   mkLine "STATUS" (PyStr "COMPLETED") [];
   mkLine "COMPLETED" (PyDatetime (mkDatetime 1700000000 None)) [];
   mkLine "PERCENT-COMPLETE" (PyInt 100) []].

Lemma update_completion_transition_witness :
  (length (values_of "COMPLETED" completed_once) <= 1)%nat
  /\ has "COMPLETED" (fst (reopen completed_once)) = false.
Proof.
  assert (H : (length (values_of "COMPLETED" completed_once) <= 1)%nat)
    by (vm_compute; lia).
  split; [exact H|].
  exact (proj2 (proj2 (proj2
           (update_completion_transition (fun _ => None) 0 (fun _ => "")
              1700001000 completed_once None None None PyNone PyNone))) H).
Defined.

(** *** Creation writes the priority as an integer *)

(** C4 on the creation path: [_create_vtodo] sets PRIORITY to the value
    of [int(priority)] and serializes without the validation pass, so the
    component it hands to the serializer holds an integer there. *)
Theorem create_vtodo_priority_is_raw_integer :
  exists v,
    _create_vtodo (fun _ => None) 0 "fresh" 1700001000 "Buy milk" "task-1"
                 None None PyNone (PyInt 5) = Returned v
    /\ values_of "PRIORITY" v = [PyInt 5]
    /\ existsb isinstance_str (values_of "PRIORITY" v) = false.
Proof. eexists. repeat split. Qed.

(** The update path keeps the rule: whatever the record and the edit,
    every PRIORITY, PERCENT-COMPLETE and SEQUENCE property of a record
    that is serialized holds a string. *)
Lemma update_vtodo_integer_properties_are_strings
      fromisoformat local_offset str_other now vtodo
      summary description parent_uid due priority completed l :
  let st := update_vtodo fromisoformat local_offset str_other now vtodo
                         summary description parent_uid due priority
                         completed in
  snd st = true ->
  In l (fst st) ->
  mem_name (name l) integer_properties = true ->
  isinstance_str (value l) = true.
Proof.
  cbv zeta. unfold update_vtodo, update_finish.
  set (st := update_completed _ _ _).
  destruct (snd st) eqn:E.
  - cbn [fst snd]. intros _.
    apply validate_integer_properties_are_strings.
  - rewrite E. discriminate.
Qed.

End CompletionFacts.

Module PyFacts.
Import Py.

Lemma rstrip_idempotent s : rstrip (rstrip s) = rstrip s.
Proof.
  induction s as [|c r IH]; [reflexivity|]. cbn [rstrip].
  destruct (rstrip r) as [|c' r'] eqn:E.
  - destruct (is_space c) eqn:Ec; [reflexivity|].
    cbn [rstrip]. now rewrite Ec.
  - cbn [rstrip] in *. now rewrite IH.
Qed.

Lemma lstrip_head s :
  match lstrip s with
  | EmptyString => True
  | String c _ => is_space c = false
  end.
Proof.
  induction s as [|c r IH]; [exact I|]. cbn [lstrip].
  destruct (is_space c) eqn:E; [exact IH | exact E].
Qed.

Lemma rstrip_head c r :
  is_space c = false -> exists r', rstrip (String c r) = String c r'.
Proof.
  intros H. cbn [rstrip]. destruct (rstrip r).
  - rewrite H. now eexists.
  - now eexists.
Qed.

Lemma strip_idempotent s : strip (strip s) = strip s.
Proof.
  unfold strip. pose proof (lstrip_head s) as H.
  destruct (lstrip s) as [|c r]; [reflexivity|].
  destruct (rstrip_head c r H) as [r' E]. rewrite E.
  cbn [lstrip]. rewrite H, <- E. apply rstrip_idempotent.
Qed.

End PyFacts.

Module SessionFacts.
Import Py Models.
Local Open Scope nat_scope.
Local Open Scope string_scope.
Local Open Scope list_scope.






Lemma find_task_stored uid cal s task t :
  find_task uid cal s = Some task ->
  same_row uid cal t = true ->
  find_task uid cal (store_task uid cal t s) = Some t.
Proof.
  unfold find_task, store_task. cbn [working tasks]. intros H Ht.
  induction (tasks (working s)) as [|x r IH]; [discriminate|].
  cbn [find map] in *. destruct (same_row uid cal x) eqn:E.
  - now rewrite Ht.
  - rewrite E. auto.
Qed.

Lemma same_row_other u u' cal t :
  u' <> u -> same_row u cal t = true -> same_row u' cal t = false.
Proof.
  unfold same_row. intros Hne H. apply andb_true_iff in H.
  destruct H as [H _]. apply String.eqb_eq in H.
  destruct (String.eqb_spec (uid t) u'); [congruence | reflexivity].
Qed.

(** Writing the row of one key back leaves the rows of other keys. *)
Lemma find_task_store_other u u' cal t s :
  u' <> u -> same_row u cal t = true ->
  find_task u' cal (store_task u cal t s) = find_task u' cal s.
Proof.
  intros Hne Ht. unfold find_task, store_task. cbn [working tasks].
  induction (tasks (working s)) as [|x r IH]; [reflexivity|].
  cbn [find map]. destruct (same_row u cal x) eqn:E.
  - rewrite (same_row_other u u' cal t Hne Ht),
      (same_row_other u u' cal x Hne E). exact IH.
  - destruct (same_row u' cal x); [reflexivity | exact IH].
Qed.

Lemma find_task_add u cal t s :
  find_task u cal (add_task t s)
  = match find_task u cal s with
    | Some x => Some x
    | None => if same_row u cal t then Some t else None
    end.
Proof.
  unfold find_task, add_task. cbn [working tasks].
  induction (tasks (working s)) as [|x r IH]; [reflexivity|].
  cbn [app find]. now destruct (same_row u cal x).
Qed.

End SessionFacts.

Module AppFacts.
Import Py Models App PyFacts SessionFacts.

(** *** Sync state after a local edit *)

Lemma mark_for_sync_state op now t :
  is_synced (mark_for_sync op now t) = false
  /\ operation (mark_for_sync op now t) = Some op
  /\ sync_attempts (mark_for_sync op now t) = 0%Z.
Proof. repeat split. Qed.

Section Routes.
Context {R : Type}.
Variable client : option (caldav_client R).
Variable parse : string -> option datetime.
Variable route_uuid model_uuid : string.
Variable now : Z.

(** The block under [# Try to sync with CalDAV], case by case: without a
    client, and with one whenever [get_task_by_uid] returns, the edited
    task is marked for 'update' and written back, whether
    [client.update_task] returns or raises; an exception of
    [get_task_by_uid] leaves the block. *)
Lemma sync_edit_outcome uid calendar_url task r s :
  sync_edit client now uid calendar_url task r s
  = match client with
    | None =>
        (Returned (mark_for_sync "update" now task,
                   store_task uid calendar_url
                              (mark_for_sync "update" now task) s), r)
    | Some c =>
        match cl_get_task_by_uid c r uid calendar_url with
        | (Raised e, r1) => (Raised e, r1)
        | (Returned todo, r1) =>
            (Returned
               (mark_for_sync "update" now task,
                log_sync_operation calendar_url "update" (Some uid) "error"
                  (snd (handle_caldav_error
                          (fst (cl_update_task c r1 todo (args_of task)))))
                  (store_task uid calendar_url
                              (mark_for_sync "update" now task) s)),
             snd (cl_update_task c r1 todo (args_of task)))
        end
    end.
Proof.
  unfold sync_edit. destruct client as [c|]; [|reflexivity].
  destruct (cl_get_task_by_uid c r uid calendar_url) as [[todo|e] r1];
    [|reflexivity].
  destruct (cl_update_task c r1 todo (args_of task)) as [[[]|e] r2];
    reflexivity.
Qed.

(** The row an edit writes back is found under the key it was loaded
    under, also after the log entry and the commit. *)
Lemma find_task_written_back uid calendar_url s task t error :
  find_task uid calendar_url s = Some task ->
  same_row uid calendar_url t = true ->
  find_task uid calendar_url
    (commit (store_task uid calendar_url t s)) = Some t
  /\ find_task uid calendar_url
       (commit (log_sync_operation calendar_url "update" (Some uid) "error"
                  error (store_task uid calendar_url t s))) = Some t.
Proof.
  intros Hf Ht. split; exact (find_task_stored uid calendar_url s task t Hf Ht).
Qed.

Definition is_error (resp : response) : Prop :=
  match resp_body resp with Error _ => True | _ => False end.

(** No block of the route assigns [uid] or [calendar_url]. *)
Definition same_key (a b : Task) : Prop :=
  uid a = uid b /\ calendar_url a = calendar_url b.

Ltac step_keeps_key :=
  intros e e'; destruct e as [task changes];
  destruct e' as [task' changes'];
  cbv beta delta [edit_completed edit_summary edit_description
                    edit_priority edit_due edit_parent_uid edit_tags
                    edit_estimated_duration edit_actual_duration] iota zeta;
  repeat match goal with
         | |- context [match ?x with _ => _ end] =>
             lazymatch x with
             | context [match _ with _ => _ end] => fail
             | _ => destruct x
             end
         end;
  intros H; inversion H; subst; split; reflexivity.

Lemma edit_completed_key data :
  forall e e', edit_completed now data e = Continue e' ->
               same_key (fst e') (fst e).
Proof. step_keeps_key. Qed.

Lemma edit_summary_key data :
  forall e e', edit_summary data e = Continue e' ->
               same_key (fst e') (fst e).
Proof. step_keeps_key. Qed.

Lemma edit_description_key data :
  forall e e', edit_description data e = Continue e' ->
               same_key (fst e') (fst e).
Proof. step_keeps_key. Qed.

Lemma edit_priority_key data :
  forall e e', edit_priority data e = Continue e' ->
               same_key (fst e') (fst e).
Proof. step_keeps_key. Qed.

Lemma edit_due_key data :
  forall e e', edit_due parse data e = Continue e' ->
               same_key (fst e') (fst e).
Proof. step_keeps_key. Qed.

Lemma edit_parent_uid_key cal s data :
  forall e e', edit_parent_uid cal s data e = Continue e' ->
               same_key (fst e') (fst e).
Proof. step_keeps_key. Qed.

Lemma edit_tags_key data :
  forall e e', edit_tags data e = Continue e' ->
               same_key (fst e') (fst e).
Proof. step_keeps_key. Qed.

Lemma edit_estimated_duration_key data :
  forall e e', edit_estimated_duration data e = Continue e' ->
               same_key (fst e') (fst e).
Proof. step_keeps_key. Qed.

Lemma edit_actual_duration_key data :
  forall e e', edit_actual_duration data e = Continue e' ->
               same_key (fst e') (fst e).
Proof. step_keeps_key. Qed.

Lemma apply_edits_keeps_key cal s data task t changes :
  apply_edits parse now cal s data task = Continue (t, changes) ->
  same_key t task.
Proof.
  unfold apply_edits. intros H.
  change t with (fst (t, changes)).
  revert H. generalize (t, changes). intros e9 H9.
  destruct (edit_completed now data (task, [])) as [e1| |] eqn:E1;
    try discriminate H9.
  pose proof (edit_completed_key _ _ _ E1) as K1. cbn [bind fst] in *.
  destruct (edit_summary data e1) as [e2| |] eqn:E2; try discriminate H9.
  pose proof (edit_summary_key _ _ _ E2) as K2. cbn [bind] in H9.
  destruct (edit_description data e2) as [e3| |] eqn:E3;
    try discriminate H9.
  pose proof (edit_description_key _ _ _ E3) as K3. cbn [bind] in H9.
  destruct (edit_priority data e3) as [e4| |] eqn:E4; try discriminate H9.
  pose proof (edit_priority_key _ _ _ E4) as K4. cbn [bind] in H9.
  destruct (edit_due parse data e4) as [e5| |] eqn:E5; try discriminate H9.
  pose proof (edit_due_key _ _ _ E5) as K5. cbn [bind] in H9.
  destruct (edit_parent_uid cal s data e5) as [e6| |] eqn:E6;
    try discriminate H9.
  pose proof (edit_parent_uid_key _ _ _ _ _ E6) as K6. cbn [bind] in H9.
  destruct (edit_tags data e6) as [e7| |] eqn:E7; try discriminate H9.
  pose proof (edit_tags_key _ _ _ E7) as K7. cbn [bind] in H9.
  destruct (edit_estimated_duration data e7) as [e8| |] eqn:E8;
    try discriminate H9.
  pose proof (edit_estimated_duration_key _ _ _ E8) as K8.
  cbn [bind] in H9.
  pose proof (edit_actual_duration_key _ _ _ H9) as K9.
  unfold same_key in *.
  destruct K1, K2, K3, K4, K5, K6, K7, K8, K9. split; congruence.
Qed.

Lemma same_row_marked uid calendar_url s task t op :
  find_task uid calendar_url s = Some task ->
  same_key t task ->
  same_row uid calendar_url (mark_for_sync op now t) = true.
Proof.
  intros Hf [Hu Hc]. unfold find_task in Hf. apply find_some in Hf.
  destruct Hf as [_ Hrow]. unfold same_row in *. cbn.
  now rewrite Hu, Hc.
Qed.

Ltac step_returns_error :=
  intros e resp; destruct e as [task changes];
  cbv beta delta [edit_completed edit_summary edit_description
                    edit_priority edit_due edit_parent_uid edit_tags
                    edit_estimated_duration edit_actual_duration] iota zeta;
  repeat match goal with
         | |- context [match ?x with _ => _ end] =>
             lazymatch x with
             | context [match _ with _ => _ end] => fail
             | _ => destruct x
             end
         end;
  intros H; inversion H; exact I.

Lemma edit_priority_returns_error data :
  forall e resp, edit_priority data e = Return resp -> is_error resp.
Proof. step_returns_error. Qed.

Lemma edit_due_returns_error data :
  forall e resp, edit_due parse data e = Return resp -> is_error resp.
Proof. step_returns_error. Qed.

Lemma edit_parent_uid_returns_error cal s data :
  forall e resp,
    edit_parent_uid cal s data e = Return resp -> is_error resp.
Proof. step_returns_error. Qed.

Lemma edit_completed_no_return data :
  forall e resp, edit_completed now data e = Return resp -> is_error resp.
Proof. step_returns_error. Qed.

Lemma edit_summary_no_return data :
  forall e resp, edit_summary data e = Return resp -> is_error resp.
Proof. step_returns_error. Qed.

Lemma edit_description_no_return data :
  forall e resp, edit_description data e = Return resp -> is_error resp.
Proof. step_returns_error. Qed.

Lemma edit_tags_no_return data :
  forall e resp, edit_tags data e = Return resp -> is_error resp.
Proof. step_returns_error. Qed.

Lemma edit_estimated_duration_no_return data :
  forall e resp,
    edit_estimated_duration data e = Return resp -> is_error resp.
Proof. step_returns_error. Qed.

Lemma edit_actual_duration_no_return data :
  forall e resp,
    edit_actual_duration data e = Return resp -> is_error resp.
Proof. step_returns_error. Qed.

Lemma bind_returns_error {A B} (m : flow A) (k : A -> flow B) resp :
  bind m k = Return resp ->
  (forall r, m = Return r -> is_error r) ->
  (forall a r, k a = Return r -> is_error r) ->
  is_error resp.
Proof.
  destruct m as [a|r|e]; cbn [bind]; intros H Hm Hk.
  - exact (Hk a resp H).
  - inversion H; subst. now apply Hm.
  - discriminate.
Qed.

Lemma apply_edits_returns_error cal s data task resp :
  apply_edits parse now cal s data task = Return resp -> is_error resp.
Proof.
  unfold apply_edits. intros H.
  repeat (eapply bind_returns_error;
          [exact H | clear H | clear H; intros ? ? H]);
    eauto using edit_priority_returns_error, edit_due_returns_error,
      edit_parent_uid_returns_error, edit_completed_no_return,
      edit_summary_no_return, edit_description_no_return,
      edit_tags_no_return, edit_estimated_duration_no_return,
      edit_actual_duration_no_return.
Qed.

(** *** Creating a task with priority 0 *)

Lemma validate_summary_strip x :
  (strip x =? "") = false -> validate_summary (strip x) = Some (strip x).
Proof.
  intros H. unfold validate_summary.
  now rewrite strip_idempotent, H.
Qed.

Lemma priority_zero_passes_route_check (data : create_request) :
  int_result (cr_priority data) = Returned 0%Z ->
  match cr_priority data with
  | PyNone => Returned (Returned PyNone)
  | p =>
      match int_result p with
      | Returned z =>
          if ((z <? 0) || (9 <? z))%Z%bool
          then Returned (Raised
                 (mkResponse 400
                    (Error "Priority must be between 0 and 9 ")))
          else Returned (Returned (PyInt z))
      | Raised ValueError =>
          Returned (Raised
            (mkResponse 400 (Error "Priority must be a number")))
      | Raised TypeError => Raised "int() argument"
      end
  end = (Returned (Returned (PyInt 0)) :
           outcome string (outcome response pyval)).
Proof.
  intros H. destruct (cr_priority data); try discriminate H;
    rewrite H; reflexivity.
Qed.

(** *** Pushing pending tasks *)

Lemma push_loop_errors (c : caldav_client R) cal todo :
  forall st : @push_state R,
    ps_errors (snd (push_loop now c cal todo st)) = ps_errors st.
Proof.
  induction todo as [|task rest IH]; intros st; [reflexivity|].
  cbn [push_loop].
  repeat match goal with
         | |- context [match ?x with _ => _ end] =>
             lazymatch x with
             | context [match _ with _ => _ end] => fail
             | _ => destruct x
             end
         end;
    try reflexivity; rewrite IH; reflexivity.
Qed.

(** The errors list of a completed push is empty, whatever happened:
    nothing ever appends to it. *)
Lemma push_pending_reports_no_errors cal r s st n errs rem s' r' :
  push_pending client now cal r s
  = (Returned (mkResponse st (PushCompleted n errs rem)), s', r') ->
  errs = [].
Proof.
  unfold push_pending. destruct client as [c|]; [|discriminate].
  destruct (unsynced_tasks cal s) as [|t l]; [discriminate|].
  pose proof (push_loop_errors c cal (t :: l) (mkPush s r 0 [])) as He.
  destruct (push_loop now c cal (t :: l) (mkPush s r 0 []))
    as [[u|e] st'].
  - intros H. inversion H; subst. exact He.
  - discriminate.
Qed.
End Routes.

(** *** Concrete runs *)

Definition no_parse : string -> option datetime := fun _ => None.
Definition no_client : option (caldav_client unit) := None.

(** A task created while the server was away, still waiting to be
    created there. *)
Definition offline_task : Task :=
  mkTask "local-1" "Buy milk" false None "cal" PyNone (Some 100%Z)
         (Some 100%Z) PyNone None None None None None false (Some "create")
         None 0.

Definition offline_session : session :=
  mkSession (mkTables [offline_task] []) (mkTables [offline_task] []).

Definition rename_request : update_request :=
  mkUpdate (Some "cal") None (Some "Buy oat milk") None None None None None
           None None.

(** C2, as stated, fails: a task that is unsynced with pending operation
    'create' comes out of a further local edit with operation 'update'. *)
Lemma edit_of_pending_create_becomes_update :
  find_task "local-1" "cal" offline_session = Some offline_task
  /\ is_synced offline_task = false
  /\ operation offline_task = Some "create"
  /\ exists task' s',
      update_task no_client no_parse 200 rename_request "local-1" tt
                  offline_session
      = (mkResponse 200 (Updated ["summary"] false task'), s', tt)
      /\ find_task "local-1" "cal" s' = Some task'
      /\ operation task' = Some "update"
      /\ operation task' <> Some "create".
Proof.
  repeat split. do 2 eexists. split; [reflexivity|].
  repeat split. discriminate.
Qed.

(** C2, amended: for every task, whatever its sync state (synced, pending
    'update' or pending 'create'), a local edit that changes a field is
    stored and committed as unsynced with pending operation 'update' and
    its attempt counter at 0 whenever the route has no client, or has one
    whose [get_task_by_uid] returns, whether [client.update_task] then
    raises or returns: the answer is 200 with [is_synced] false and the
    row found under the key afterwards is the edited task so marked.
    When [get_task_by_uid] itself raises (the server cannot be reached),
    the route answers 500 and rolls back: the edit is not stored and the
    task keeps the fields and the sync state it had. *)
Theorem edit_not_pushed_marks_update
        {R : Type} (client : option (caldav_client R))
        (parse : string -> option datetime) (now : Z)
        (data : update_request) (uid calendar_url : string) (r : R)
        (s : session) (task edited : Task) (changes : list string) :
  ur_calendar_url data = Some calendar_url ->
  calendar_url <> "" ->
  find_task uid calendar_url s = Some task ->
  apply_edits parse now calendar_url s data task
  = Continue (edited, changes) ->
  changes <> [] ->
  let task' := mark_for_sync "update" now edited in
  let stored (r' : R) :=
    exists s',
      update_task client parse now data uid r s
      = (mkResponse 200 (Updated changes false task'), s', r')
      /\ find_task uid calendar_url s' = Some task'
      /\ committed s' = working s' in
  is_synced task' = false
  /\ operation task' = Some "update"
  /\ sync_attempts task' = 0%Z
  /\ match client with
     | None => stored r
     | Some c =>
         match cl_get_task_by_uid c r uid calendar_url with
         | (Returned todo, r1) =>
             stored (snd (cl_update_task c r1 todo (args_of edited)))
         | (Raised e, r1) =>
             update_task client parse now data uid r s
             = (mkResponse 500 (Error e), rollback s, r1)
             /\ (committed s = working s ->
                 find_task uid calendar_url (rollback s) = Some task)
         end
     end.
Proof.
  intros Hcal Hne Hf Ha Hch. cbv zeta.
  split; [reflexivity|]. split; [reflexivity|]. split; [reflexivity|].
  pose proof (apply_edits_keeps_key parse now _ _ _ _ _ _ Ha) as Hk.
  pose proof (same_row_marked now uid calendar_url s task edited "update"
                Hf Hk) as Hrow.
  destruct (find_task_written_back uid calendar_url s task
              (mark_for_sync "update" now edited) None Hf Hrow)
    as [Hw _].
  assert (Hroute :
            update_task client parse now data uid r s
            = match sync_edit client now uid calendar_url edited r s with
              | (Raised e, r1) => (mkResponse 500 (Error e), rollback s, r1)
              | (Returned (t, s1), r1) =>
                  (mkResponse 200 (Updated changes (is_synced t) t),
                   commit s1, r1)
              end).
  { unfold update_task. rewrite Hcal.
    apply String.eqb_neq in Hne. rewrite Hne, Hf, Ha.
    destruct changes; [contradiction | reflexivity]. }
  rewrite Hroute, sync_edit_outcome.
  destruct client as [c|].
  - destruct (cl_get_task_by_uid c r uid calendar_url) as [[todo|e] r1].
    + eexists. split; [reflexivity|]. split; [|reflexivity].
      exact (proj2 (find_task_written_back uid calendar_url s task
                      (mark_for_sync "update" now edited) _ Hf Hrow)).
    + split; [reflexivity|].
      intros Hc. unfold find_task, rollback. cbn [working].
      rewrite Hc. exact Hf.
  - eexists. split; [reflexivity|]. split; [exact Hw | reflexivity].
Qed.

(** A server that holds the task and refuses every update. *)
Definition refusing_client : caldav_client nat :=
  mkClient nat
    (fun r _ _ _ _ _ _ => (Raised "503 Service Unavailable", S r))
    (fun r uid _ => (Returned (Some uid), S r))
    (fun r _ _ => (Raised "503 Service Unavailable", S r))
    (fun r _ _ => (Raised "503 Service Unavailable", S r)).

Lemma edit_not_pushed_marks_update_witness :
  exists s',
    update_task (Some refusing_client) no_parse 200 rename_request
                "local-1" 0%nat offline_session
    = (mkResponse 200
         (Updated ["summary"] false
            (mark_for_sync "update" 200
               (set_summary "Buy oat milk" offline_task))),
       s', 2%nat)
    /\ find_task "local-1" "cal" s'
       = Some (mark_for_sync "update" 200
                 (set_summary "Buy oat milk" offline_task))
    /\ committed s' = working s'.
Proof.
  destruct (edit_not_pushed_marks_update (Some refusing_client) no_parse
              200 rename_request "local-1" "cal" 0%nat offline_session
              offline_task (set_summary "Buy oat milk" offline_task)
              ["summary"] eq_refl)
    as (_ & _ & _ & H); try reflexivity; try discriminate.
  exact H.
Defined.

(** The validator of the model accepts exactly the integers 1..9. *)
Lemma validate_priority_accepts v z :
  int v = Some z -> v <> PyNone ->
  (validate_priority v = Returned (Some z) <-> (1 <= z <= 9)%Z).
Proof.
  intros Hi Hv. unfold validate_priority.
  destruct v; try contradiction; rewrite Hi;
    destruct ((1 <=? z)%Z && (z <=? 9)%Z)%bool eqn:E;
    (split; [intros H; try discriminate H; lia | intros H; try reflexivity; lia]).
Qed.

(** C10: a creation request whose priority is 0 passes the check of the
    route on the priority (no "must be between 0 and 9" answer), is never
    answered with 201, and adds no task row; when the rest of the request
    is in order the [Task] constructor raises "Priority must be between 1
    and 9", the session is rolled back and the answer is 500. *)
Theorem create_task_priority_zero_never_stored
        {R : Type} (client : option (caldav_client R)) parse
        route_uuid model_uuid now data r s :
  int_result (cr_priority data) = Returned 0%Z ->
  let '(resp, s', r') :=
    create_task client parse route_uuid model_uuid now data r s in
  status resp <> 201%nat
  /\ resp_body resp <> Error "Priority must be between 0 and 9 "
  /\ resp_body resp <> Error "Priority must be a number"
  /\ (tasks (committed s') = tasks (committed s)
      \/ tasks (committed s') = tasks (working s))
  /\ (tasks (working s') = tasks (committed s)
      \/ tasks (working s') = tasks (working s))
  /\ (other_checks_pass parse data s = true ->
      status resp = 500%nat
      /\ resp_body resp = Error "Priority must be between 1 and 9"
      /\ working s' = committed s').
Proof.
  intros H. unfold create_task, other_checks_pass.
  destruct (cr_calendar_url data) as [cal|];
    [|now repeat split; auto; discriminate].
  destruct (cal =? "");
    [now repeat split; auto; discriminate|].
  destruct (strip (cr_summary data) =? "") eqn:Esum;
    [now repeat split; auto; discriminate|].
  match goal with
  | |- context [match ?d with Some due => _ | None => _ end] =>
      destruct d as [due|] eqn:Edue
  end.
  2:{ repeat split; auto; try discriminate;
      destruct (truthy_str (cr_due data)); try discriminate;
      destruct (cr_due data); try discriminate;
      destruct (parse s0); discriminate. }
  rewrite (priority_zero_passes_route_check data H).
  match goal with
  | |- context [if ?b then (mkResponse 404 _, _, _) else _] =>
      destruct b eqn:Epar
  end.
  { repeat split; auto; try discriminate.
    all: match goal with
         | Hc : (_ && negb true)%bool = true |- _ =>
             cbn [negb] in Hc; rewrite Bool.andb_false_r in Hc;
             discriminate Hc
         end. }
  assert (Hdue : (if truthy_str (cr_due data)
                  then match cr_due data with
                       | Some d => match parse d with
                                   | Some _ => true
                                   | None => false
                                   end
                       | None => true
                       end
                  else true) = true).
  { destruct (truthy_str (cr_due data)); [|reflexivity].
    destruct (cr_due data) as [d|]; [|reflexivity].
    destruct (parse d); [reflexivity | discriminate]. }
  unfold construct_task.
  rewrite (validate_summary_strip _ Esum).
  change (validate_priority (PyInt 0))
    with (Raised "Priority must be between 1 and 9" :
            outcome string (option Z)).
  destruct client as [c|].
  - destruct (cl_create_task c r (strip (cr_summary data)) cal
                (cr_parent_uid data) (cr_description data) due (PyInt 0))
      as [[result|e] r1]; cbn [handle_caldav_error].
    + destruct (result =? ""); cbn; repeat split; auto; discriminate.
    + cbn; repeat split; auto; discriminate.
  - cbn; repeat split; auto; discriminate.
Qed.

Definition empty_session : session :=
  mkSession (mkTables [] []) (mkTables [] []).

Definition priority_zero_request : create_request :=
  mkCreate (Some "cal") "Buy milk" None None (PyInt 0) None None None.

Lemma create_task_priority_zero_never_stored_witness :
  int_result (cr_priority priority_zero_request) = Returned 0%Z
  /\ create_task no_client no_parse "route-uuid" "model-uuid" 200
                 priority_zero_request tt empty_session
     = (mkResponse 500 (Error "Priority must be between 1 and 9"),
        empty_session, tt).
Proof.
  split; [reflexivity|].
  pose proof (create_task_priority_zero_never_stored no_client no_parse
                "route-uuid" "model-uuid" 200 priority_zero_request tt
                empty_session eq_refl) as H.
  destruct (create_task no_client no_parse "route-uuid" "model-uuid" 200
                        priority_zero_request tt empty_session)
    as [[resp s'] r'] eqn:E.
  destruct H as (_ & _ & _ & _ & _ & H).
  destruct (H eq_refl) as (Hs & Hb & Hw).
  vm_compute in E. inversion E; subst. reflexivity.
Defined.

(** A remote calendar that holds no task, and notes every call. *)
Definition recording_client : caldav_client (list string) :=
  mkClient (list string)
    (fun r summary _ _ _ _ _ =>
       (Returned ("srv-" ++ summary)%string,
        r ++ [("create " ++ summary)%string]))
    (fun r uid _ => (Returned None, r ++ [("get " ++ uid)%string]))
    (fun r _ _ => (Returned tt, r ++ ["update"]))
    (fun r uid _ => (Returned true, r ++ [("delete " ++ uid)%string])).

Definition pending_update : Task :=
  mkTask "a" "Call plumber" false None "cal" PyNone (Some 100%Z)
         (Some 100%Z) PyNone None None None None None false (Some "update")
         None 0.

Definition pending_create : Task :=
  mkTask "b" "Buy milk" false None "cal" PyNone (Some 200%Z)
         (Some 200%Z) PyNone None None None None None false (Some "create")
         None 0.

Definition pending_session : session :=
  mkSession (mkTables [pending_update; pending_create] [])
            (mkTables [pending_update; pending_create] []).

(** C1 on the code: with two pending tasks, the first of which cannot be
    found on the server, the exception leaves the route.  No response and
    no errors list are produced, the attempt counter of the first task is
    still 0, and the second task is never attempted: the only call the
    server sees is the lookup of "a". *)
Theorem push_pending_stops_at_first_failure :
  unsynced_tasks "cal" pending_session = [pending_update; pending_create]
  /\ push_pending (Some recording_client) 300 "cal" [] pending_session
     = (Raised "Task a not found in remote calendar",
        pending_session, ["get a"])
  /\ option_map sync_attempts (find_task "a" "cal" pending_session)
     = Some 0%Z
  /\ option_map is_synced (find_task "b" "cal" pending_session)
     = Some false.
Proof. repeat split. Qed.

End AppFacts.

Module PullFacts.
Import Py VObject Codec Hierarchy Models Pull.
Local Open Scope nat_scope.

Section Pull.
Variable decode : nat -> todo_data -> option task_data.
Variable calendar_url : string.
Variable now : Z.
Variable model_uuid : string.

Lemma get_all_tasks_loop_spec todos :
  forall i task_dicts parse_errors,
    get_all_tasks_loop decode i todos task_dicts parse_errors
    = (task_dicts ++ decoded_from decode i todos,
       parse_errors + failures_from decode i todos).
Proof.
  induction todos as [|todo rest IH]; intros i acc n; cbn.
  - now rewrite app_nil_r, Nat.add_0_r.
  - destruct (decode i todo).
    + rewrite IH, <- app_assoc. reflexivity.
    + rewrite IH. f_equal. lia.
Qed.

Lemma decoded_plus_failures todos :
  forall i,
    length (decoded_from decode i todos) + failures_from decode i todos
    = length todos.
Proof.
  induction todos as [|todo rest IH]; intros i; cbn; [reflexivity|].
  destruct (decode i todo); cbn; rewrite <- (IH (S i)); lia.
Qed.

Lemma get_all_tasks_decoded todos :
  get_all_tasks decode (Returned todos)
  = Returned (decoded_from decode 0 todos).
Proof.
  unfold get_all_tasks. now rewrite get_all_tasks_loop_spec.
Qed.
End Pull.

(** The decoder, drawing the identifier ["uuid-i"] at position [i] of a
    fetch. *)
Definition decode_at (i : nat) (d : todo_data) : option task_data :=
  _parse_vtodo_safely (fun _ => None) 0
    ("uuid-" ++ NilZero.string_of_uint (Nat.to_uint i))%string d.

(** A fetch of two records: the first is no calendar object, the second a
    task. *)
Definition one_bad_one_good : list todo_data :=
  [None;
   Some [mkComp "VTODO" [mkRaw "UID" "task-1";
                         mkRaw "SUMMARY" "Water plants"]]].

Definition empty_db : session :=
  mkSession (mkTables [] []) (mkTables [] []).

(** C5, as stated, fails: one of two fetched records does not decode, and
    the statistics the pull returns show [errors = 0] and
    [total_fetched = 1]; the failure is counted in [parse_errors] of
    [get_all_tasks] only, which is not returned. *)
Lemma pull_decode_failure_not_in_errors :
  snd (get_all_tasks_loop decode_at 0 one_bad_one_good [] 0) = 1%nat
  /\ exists s',
      sync_tasks_to_db decode_at "cal" 500 "model-uuid"
                       (Returned one_bad_one_good) empty_db
      = (Returned (mkResult 1 (mkStats 1 1 0 0 0)), s').
Proof. split; [reflexivity|]. eexists. reflexivity. Qed.

(** C5, amended: for every pull, a record that fails to decode is skipped
    and the batch goes on: every record that decodes is kept, in order.
    The failure is counted in [parse_errors] of [get_all_tasks], which is
    logged and not returned; the result of the pull, statistics included,
    is determined by the records that decoded, [total_fetched] is their
    number, and [errors] is not incremented for decode failures. *)
Theorem pull_skips_decode_failures
        decode calendar_url now model_uuid todos s :
  get_all_tasks decode (Returned todos)
  = Returned (decoded_from decode 0 todos)
  /\ snd (get_all_tasks_loop decode 0 todos [] 0)
     = failures_from decode 0 todos
  /\ length (decoded_from decode 0 todos) + failures_from decode 0 todos
     = length todos
  /\ (forall todos',
         decoded_from decode 0 todos' = decoded_from decode 0 todos ->
         sync_tasks_to_db decode calendar_url now model_uuid
                          (Returned todos') s
         = sync_tasks_to_db decode calendar_url now model_uuid
                            (Returned todos) s)
  /\ (forall res s',
         sync_tasks_to_db decode calendar_url now model_uuid
                          (Returned todos) s = (Returned res, s') ->
         total_fetched (stats res) = length (decoded_from decode 0 todos)).
Proof.
  repeat split.
  - apply get_all_tasks_decoded.
  - now rewrite get_all_tasks_loop_spec.
  - apply decoded_plus_failures.
  - intros todos' H. unfold sync_tasks_to_db.
    now rewrite !get_all_tasks_decoded, H.
  - intros res s'. unfold sync_tasks_to_db.
    rewrite get_all_tasks_decoded.
    destruct (decoded_from decode 0 todos) as [|t l] eqn:E.
    + intros H. inversion H. reflexivity.
    + match goal with
      | |- context [if ?b then _ else _] => destruct b
      end; intros H; inversion H; reflexivity.
Qed.

Lemma pull_skips_decode_failures_witness :
  sync_tasks_to_db decode_at "cal" 500 "model-uuid"
    (Returned [None; None;
               Some [mkComp "VTODO" [mkRaw "UID" "task-1";
                                     mkRaw "SUMMARY" "Water plants"]]])
    empty_db
  = sync_tasks_to_db decode_at "cal" 500 "model-uuid"
                     (Returned one_bad_one_good) empty_db.
Proof.
  apply (pull_skips_decode_failures decode_at "cal" 500 "model-uuid"
           one_bad_one_good empty_db).
  reflexivity.
Defined.

End PullFacts.

Module HierarchyFacts.
Import Codec Hierarchy.
Local Open Scope nat_scope.
Local Open Scope string_scope.
Local Open Scope list_scope.

(** *** Lookup *)

Lemma get_in k (m : batch) t : get k m = Some t -> In (k, t) m.
Proof.
  induction m as [|[k' t'] r IH]; cbn; [discriminate|].
  destruct (String.eqb_spec k' k) as [->|Hk].
  - intros H. inversion H. now left.
  - intros H. right. now apply IH.
Qed.

Lemma get_app k (m1 m2 : batch) :
  get k (m1 ++ m2)
  = match get k m1 with Some t => Some t | None => get k m2 end.
Proof.
  induction m1 as [|[k' t'] r IH]; cbn; [reflexivity|].
  destruct (k' =? k); [reflexivity | exact IH].
Qed.

Lemma contains_keys k (m : batch) :
  contains k m = true <-> In k (keys m).
Proof.
  unfold contains. induction m as [|[k' t'] r IH]; cbn.
  - split; [discriminate | contradiction].
  - destruct (String.eqb_spec k' k) as [->|Hk].
    + split; auto.
    + rewrite IH. split; [auto | intros [H|H]; [contradiction | exact H]].
Qed.

Lemma contains_same_keys k (m m' : batch) :
  keys m = keys m' -> contains k m = contains k m'.
Proof.
  intros H. destruct (contains k m) eqn:E.
  - symmetry. apply contains_keys. rewrite <- H. now apply contains_keys.
  - destruct (contains k m') eqn:E'; [|reflexivity].
    apply contains_keys in E'. rewrite <- H in E'.
    apply contains_keys in E'. congruence.
Qed.

Lemma get_nodup k t (m : batch) :
  NoDup (keys m) -> In (k, t) m -> get k m = Some t.
Proof.
  induction m as [|[k' t'] r IH]; cbn; [contradiction|].
  intros Hnd [H|H].
  - inversion H; subst. now rewrite String.eqb_refl.
  - inversion Hnd; subst.
    destruct (String.eqb_spec k' k) as [->|Hk].
    + exfalso. apply H2. change k with (fst (k, t)). now apply in_map.
    + now apply IH.
Qed.

(** *** Entries only lose their parent *)

(** [shrinks m m']: the same keys in the same order, and each record is
    as before or as before with its parent cleared. *)
Definition entry_shrinks (e e' : string * task_data) : Prop :=
  fst e' = fst e
  /\ (snd e' = snd e \/ snd e' = set_td_parent_uid None (snd e)).

Definition shrinks (m m' : batch) : Prop := Forall2 entry_shrinks m m'.

Lemma shrinks_refl m : shrinks m m.
Proof.
  induction m as [|e r IH]; constructor; [|exact IH].
  split; [reflexivity | now left].
Qed.

Lemma entry_shrinks_trans e1 e2 e3 :
  entry_shrinks e1 e2 -> entry_shrinks e2 e3 -> entry_shrinks e1 e3.
Proof.
  intros [K1 H1] [K2 H2]. split; [congruence|].
  destruct H1 as [H1|H1], H2 as [H2|H2]; rewrite H2, H1; auto.
Qed.

Lemma shrinks_trans m1 m2 m3 :
  shrinks m1 m2 -> shrinks m2 m3 -> shrinks m1 m3.
Proof.
  intros H. revert m3. induction H as [|e1 e2 r1 r2 He Hr IH];
    intros m3 H3; inversion H3; subst; constructor.
  - eapply entry_shrinks_trans; eassumption.
  - now apply IH.
Qed.

Lemma shrinks_app m1 m1' m2 m2' :
  shrinks m1 m1' -> shrinks m2 m2' -> shrinks (m1 ++ m2) (m1' ++ m2').
Proof. apply Forall2_app. Qed.

Lemma shrinks_keys m m' : shrinks m m' -> keys m' = keys m.
Proof.
  unfold keys. induction 1 as [|e e' r r' [He _] Hr IH]; cbn;
    [reflexivity|].
  now rewrite He, IH.
Qed.

Lemma shrinks_get m m' k t' :
  shrinks m m' -> get k m' = Some t' ->
  exists t, get k m = Some t
            /\ (t' = t \/ t' = set_td_parent_uid None t).
Proof.
  induction 1 as [|[k1 t1] [k2 t2] r r' [He Ht] Hr IH]; cbn;
    [discriminate|].
  cbn in He, Ht. subst k2.
  destruct (k1 =? k).
  - intros H. inversion H; subst. eauto.
  - exact IH.
Qed.

Lemma shrinks_in m m' k t' :
  shrinks m m' -> In (k, t') m' ->
  exists t, In (k, t) m /\ (t' = t \/ t' = set_td_parent_uid None t).
Proof.
  induction 1 as [|[k1 t1] [k2 t2] r r' [He Ht] Hr IH]; cbn;
    [contradiction|].
  cbn in He, Ht. subst k2. intros [H|H].
  - inversion H; subst. eauto.
  - destruct (IH H) as [t [Hin Hor]]. eauto.
Qed.

Lemma shrinks_edge m m' a b : shrinks m m' -> edge m' a b -> edge m a b.
Proof.
  intros Hs [t' [Hg Hp]].
  destruct (shrinks_get m m' a t' Hs Hg) as [t [Hg' [->| ->]]].
  - now exists t.
  - discriminate Hp.
Qed.

Lemma shrinks_reach m m' a b :
  shrinks m m' ->
  clos_refl_trans string (edge m') a b ->
  clos_refl_trans string (edge m) a b.
Proof.
  intros Hs H. induction H as [x y H|x|x y z _ IH1 _ IH2].
  - apply rt_step. eapply shrinks_edge; eassumption.
  - apply rt_refl.
  - eapply rt_trans; eassumption.
Qed.

(** *** [has_cycle] decides whether the chain of parents reaches the
    start *)

(** The entries whose key is not in [visited]. *)
Definition unvisited (m : batch) (visited : list string) : nat :=
  length (filter (fun e => negb (mem (fst e) visited)) m).

Lemma mem_in k l : mem k l = true <-> In k l.
Proof.
  unfold mem. rewrite existsb_exists. split.
  - intros [x [Hin Hx]]. apply String.eqb_eq in Hx. now subst.
  - intros H. exists k. split; [exact H | apply String.eqb_refl].
Qed.

Lemma filter_mono_le {A} (f g : A -> bool) l :
  (forall x, f x = true -> g x = true) ->
  length (filter f l) <= length (filter g l).
Proof.
  intros H. induction l as [|a r IH]; cbn; [lia|].
  destruct (f a) eqn:Ef.
  - rewrite (H a Ef). cbn. lia.
  - destruct (g a); cbn; lia.
Qed.

Lemma filter_mono_lt {A} (f g : A -> bool) l x :
  (forall x, f x = true -> g x = true) ->
  In x l -> g x = true -> f x = false ->
  length (filter f l) < length (filter g l).
Proof.
  intros H. induction l as [|a r IH]; cbn; [contradiction|].
  intros [->|Hin] Hg Hf.
  - rewrite Hg, Hf. cbn.
    pose proof (filter_mono_le f g r H). lia.
  - specialize (IH Hin Hg Hf). destruct (f a) eqn:Ef.
    + rewrite (H a Ef). cbn. lia.
    + destruct (g a); cbn; lia.
Qed.

Lemma unvisited_le_length m v : unvisited m v <= length m.
Proof.
  unfold unvisited. induction m as [|e r IH]; cbn; [lia|].
  destruct (negb _); cbn; lia.
Qed.

Lemma mem_cons k c v : mem k (c :: v) = ((k =? c) || mem k v)%bool.
Proof. reflexivity. Qed.

Lemma unvisited_lt m v c t :
  get c m = Some t -> mem c v = false ->
  unvisited m (c :: v) < unvisited m v.
Proof.
  intros Hg Hv. unfold unvisited.
  apply filter_mono_lt with (x := (c, t)).
  - intros [k t']. cbn [fst]. rewrite mem_cons.
    destruct (k =? c); [discriminate|]. cbn. auto.
  - now apply get_in.
  - cbn [fst]. now rewrite Hv.
  - cbn [fst]. now rewrite mem_cons, String.eqb_refl.
Qed.

(** Fuel above the number of unvisited entries is never used up: the
    result is the same with any such fuel. *)
Lemma has_cycle_fuel_enough m start fuel :
  forall fuel' cur visited,
    unvisited m visited < fuel -> unvisited m visited < fuel' ->
    has_cycle_fuel fuel m start cur visited
    = has_cycle_fuel fuel' m start cur visited.
Proof.
  induction fuel as [|fuel IH]; intros fuel' cur visited H H'; [lia|].
  destruct fuel' as [|fuel']; [lia|]. cbn.
  destruct cur as [c|]; [|reflexivity].
  destruct (c =? start); [reflexivity|].
  destruct (mem c visited) eqn:Ev; [reflexivity|].
  destruct (get c m) as [t|] eqn:Eg; [|reflexivity].
  pose proof (unvisited_lt m visited c t Eg Ev).
  apply IH; lia.
Qed.

Lemma has_cycle_sound m start fuel :
  forall cur visited,
    has_cycle_fuel fuel m start cur visited = true ->
    exists c, cur = Some c /\ clos_refl_trans string (edge m) c start.
Proof.
  induction fuel as [|fuel IH]; intros cur visited; cbn; [discriminate|].
  destruct cur as [c|]; [|discriminate].
  destruct (String.eqb_spec c start) as [->|Hc].
  - intros _. exists start. split; [reflexivity | apply rt_refl].
  - destruct (mem c visited); [discriminate|].
    destruct (get c m) as [t|] eqn:Eg; [|discriminate].
    intros H. destruct (IH _ _ H) as [p [Hp Hr]].
    exists c. split; [reflexivity|].
    eapply rt_trans; [|exact Hr].
    apply rt_step. now exists t.
Qed.

(** The invariant of [visited] along one walk: no visited key is the
    start, and the parent of a visited key is visited or is the key the
    walk stands on. *)
Definition walk_inv (m : batch) (start : string) (visited : list string)
           (cur : string) : Prop :=
  forall v, In v visited ->
            v <> start
            /\ forall w, edge m v w -> In w visited \/ w = cur.

Lemma edge_functional m a b c : edge m a b -> edge m a c -> b = c.
Proof. intros [t [H1 H2]] [t' [H3 H4]]. congruence. Qed.

Lemma closed_reach m (visited : list string) a b :
  (forall v, In v visited -> forall w, edge m v w -> In w visited) ->
  clos_refl_trans string (edge m) a b -> In a visited -> In b visited.
Proof.
  intros Hc H. induction H as [x y H|x|x y z _ IH1 _ IH2]; intros Ha.
  - eapply Hc; eassumption.
  - exact Ha.
  - auto.
Qed.

Lemma has_cycle_complete m start fuel :
  forall cur visited,
    unvisited m visited < fuel ->
    walk_inv m start visited cur ->
    clos_refl_trans string (edge m) cur start ->
    has_cycle_fuel fuel m start (Some cur) visited = true.
Proof.
  induction fuel as [|fuel IH]; intros cur visited Hf Hinv Hr; [lia|].
  cbn. destruct (String.eqb_spec cur start) as [->|Hc]; [reflexivity|].
  destruct (mem cur visited) eqn:Ev.
  - exfalso. apply mem_in in Ev.
    assert (Hclosed : forall v, In v visited ->
                                forall w, edge m v w -> In w visited).
    { intros v Hv w Hw. destruct (Hinv v Hv) as [_ H].
      destruct (H w Hw) as [H'| ->]; assumption. }
    pose proof (closed_reach m visited cur start Hclosed Hr Ev) as Hs.
    destruct (Hinv start Hs) as [Hne _]. now apply Hne.
  - apply clos_rt_rt1n in Hr. inversion Hr as [|y z Hedge Hrest]; subst;
      [contradiction|].
    destruct Hedge as [t [Hg Hp]]. rewrite Hg, Hp.
    apply IH.
    + pose proof (unvisited_lt m visited cur t Hg Ev). lia.
    + intros v [<-|Hv].
      * split; [exact Hc|]. intros w Hw. right.
        eapply edge_functional; [exact Hw | now exists t].
      * destruct (Hinv v Hv) as [Hne H]. split; [exact Hne|].
        intros w Hw. destruct (H w Hw) as [H'| ->];
          left; [now right | now left].
    + now apply clos_rt1n_rt.
Qed.

(** [has_cycle(uid, parent_uid, set())] is true exactly when the chain
    of parents from [parent_uid] reaches [uid]. *)
Lemma has_cycle_iff m start p :
  has_cycle m start (Some p) [] = true
  <-> clos_refl_trans string (edge m) p start.
Proof.
  unfold has_cycle. split.
  - intros H. destruct (has_cycle_sound _ _ _ _ _ H) as [c [Hc Hr]].
    now inversion Hc; subst.
  - intros H. apply has_cycle_complete.
    + pose proof (unvisited_le_length m []). lia.
    + intros v [].
    + exact H.
Qed.

(** *** The two passes *)

Lemma truthy_uid_some p : truthy_uid (Some p) = true <-> p <> "".
Proof.
  cbn. destruct (String.eqb_spec p ""); cbn; split; congruence.
Qed.

Lemma orphan_loop_spec task_map todo :
  forall n,
  exists todo' n',
    orphan_loop task_map todo n = (todo', n')
    /\ shrinks todo todo'
    /\ (forall u t p, In (u, t) todo' -> td_parent_uid t = Some p ->
                      p <> "" -> contains p task_map = true).
Proof.
  induction todo as [|[uid task] rest IH]; intros n.
  - exists [], n. repeat split; [constructor | contradiction].
  - cbn [orphan_loop].
    destruct (truthy_uid (td_parent_uid task)
              && negb match td_parent_uid task with
                      | Some p => contains p task_map
                      | None => false
                      end)%bool eqn:E.
    + destruct (IH (S n)) as (rest' & n' & -> & Hs & Hp).
      exists ((uid, set_td_parent_uid None task) :: rest'), n'.
      repeat split.
      * constructor; [split; [reflexivity | now right] | exact Hs].
      * intros u t p [H|H] Ht Hne; [|now apply (Hp u t p)].
        inversion H; subst. discriminate Ht.
    + destruct (IH n) as (rest' & n' & -> & Hs & Hp).
      exists ((uid, task) :: rest'), n'.
      repeat split.
      * constructor; [split; [reflexivity | now left] | exact Hs].
      * intros u t p [H|H] Ht Hne; [|now apply (Hp u t p)].
        inversion H; subst. rewrite Ht in E.
        apply truthy_uid_some in Hne. rewrite Hne in E. cbn in E.
        now destruct (contains p task_map).
Qed.

Lemma cycle_loop_spec todo :
  forall done n,
  exists todo' n',
    cycle_loop done todo n = (done ++ todo', n')
    /\ shrinks todo todo'
    /\ (forall u t p, In (u, t) todo' -> td_parent_uid t = Some p ->
                      p <> "" ->
                      ~ clos_refl_trans string (edge (done ++ todo')) p u).
Proof.
  induction todo as [|[uid task] rest IH]; intros done n.
  - exists [], n. cbn. rewrite app_nil_r.
    repeat split; [constructor | contradiction].
  - cbn [cycle_loop].
    destruct (truthy_uid (td_parent_uid task)
              && has_cycle (done ++ (uid, task) :: rest) uid
                           (td_parent_uid task) [])%bool eqn:E.
    + destruct (IH (done ++ [(uid, set_td_parent_uid None task)]) (S n))
        as (rest' & n' & Heq & Hs & Hp).
      rewrite <- app_assoc in Heq, Hp. cbn [app] in Heq, Hp.
      exists ((uid, set_td_parent_uid None task) :: rest'), n'.
      repeat split; [exact Heq | |].
      * constructor; [split; [reflexivity | now right] | exact Hs].
      * intros u t p [H|H] Ht Hne; [|now apply (Hp u t p)].
        inversion H; subst. discriminate Ht.
    + destruct (IH (done ++ [(uid, task)]) n)
        as (rest' & n' & Heq & Hs & Hp).
      rewrite <- app_assoc in Heq, Hp. cbn [app] in Heq, Hp.
      exists ((uid, task) :: rest'), n'.
      repeat split; [exact Heq | |].
      * constructor; [split; [reflexivity | now left] | exact Hs].
      * intros u t p [H|H] Ht Hne; [|now apply (Hp u t p)].
        inversion H; subst. rewrite Ht in E.
        apply truthy_uid_some in Hne. rewrite Hne in E. cbn [andb] in E.
        intros Hr.
        assert (Hsh : shrinks (done ++ (u, t) :: rest)
                              (done ++ (u, t) :: rest')).
        { apply shrinks_app; [apply shrinks_refl|].
          constructor; [split; [reflexivity | now left] | exact Hs]. }
        apply (shrinks_reach _ _ _ _ Hsh) in Hr.
        apply has_cycle_iff in Hr. congruence.
Qed.

Lemma orphan_loop_unchanged task_map todo :
  forall n,
    (forall u t p, In (u, t) todo -> td_parent_uid t = Some p ->
                   p <> "" -> contains p task_map = true) ->
    orphan_loop task_map todo n = (todo, n).
Proof.
  induction todo as [|[uid task] rest IH]; intros n H; [reflexivity|].
  cbn [orphan_loop].
  assert (E : (truthy_uid (td_parent_uid task)
               && negb match td_parent_uid task with
                       | Some p => contains p task_map
                       | None => false
                       end)%bool = false).
  { destruct (td_parent_uid task) as [p|] eqn:Ep; [|reflexivity].
    destruct (truthy_uid (Some p)) eqn:Et; [|reflexivity].
    apply truthy_uid_some in Et.
    now rewrite (H uid task p (or_introl eq_refl) Ep Et). }
  rewrite E, IH; [reflexivity|].
  intros u t p Hin. apply (H u t p). now right.
Qed.

Lemma cycle_loop_unchanged todo :
  forall done n,
    (forall u t p, In (u, t) todo -> td_parent_uid t = Some p ->
                   p <> "" ->
                   has_cycle (done ++ todo) u (Some p) [] = false) ->
    cycle_loop done todo n = (done ++ todo, n).
Proof.
  induction todo as [|[uid task] rest IH]; intros done n H.
  - cbn. now rewrite app_nil_r.
  - cbn [cycle_loop].
    assert (E : (truthy_uid (td_parent_uid task)
                 && has_cycle (done ++ (uid, task) :: rest) uid
                              (td_parent_uid task) [])%bool = false).
    { destruct (td_parent_uid task) as [p|] eqn:Ep; [|reflexivity].
      destruct (truthy_uid (Some p)) eqn:Et; [|reflexivity].
      apply truthy_uid_some in Et.
      now rewrite (H uid task p (or_introl eq_refl) Ep Et). }
    rewrite E, IH; rewrite <- app_assoc; [reflexivity|].
    intros u t p Hin. apply (H u t p). now right.
Qed.

(** What the whole function establishes. *)
Lemma validate_spec m :
  exists m' n,
    _validate_task_hierarchy_count m = (m', n)
    /\ shrinks m m'
    /\ (forall u t p, In (u, t) m' -> td_parent_uid t = Some p ->
                      p <> "" -> contains p m' = true)
    /\ (forall u t p, In (u, t) m' -> td_parent_uid t = Some p ->
                      p <> "" ->
                      ~ clos_refl_trans string (edge m') p u).
Proof.
  unfold _validate_task_hierarchy_count.
  destruct (orphan_loop_spec m m 0) as (m1 & n1 & -> & Hs1 & Hp1).
  destruct (cycle_loop_spec m1 [] n1) as (m2 & n2 & -> & Hs2 & Hc2).
  cbn [app] in *. exists m2, n2.
  assert (Hs : shrinks m m2) by (eapply shrinks_trans; eassumption).
  repeat split; [exact Hs | | exact Hc2].
  intros u t p Hin Ht Hne.
  destruct (shrinks_in _ _ _ _ Hs2 Hin) as [t1 [Hin1 [->| ->]]];
    [|discriminate Ht].
  rewrite (contains_same_keys p m2 m) by (now apply shrinks_keys).
  now apply (Hp1 u t1 p).
Qed.

Lemma reach_proper_to_edge m a b :
  clos_refl_trans string (proper_edge m) a b ->
  clos_refl_trans string (edge m) a b.
Proof.
  induction 1 as [x y [H _]|x|x y z _ IH1 _ IH2].
  - now apply rt_step.
  - apply rt_refl.
  - eapply rt_trans; eassumption.
Qed.

Lemma cycle_first_step {R : relation string} u :
  clos_trans string R u u ->
  exists p, R u p /\ clos_refl_trans string R p u.
Proof.
  intros H. apply clos_trans_t1n in H.
  inversion H as [y Hy|y z Hy Hrest]; subst.
  - exists u. split; [exact Hy | apply rt_refl].
  - exists y. split; [exact Hy|].
    apply clos_t_clos_rt. now apply clos_t1n_trans.
Qed.

Lemma no_empty_parentb_sound m :
  no_empty_parentb m = true -> no_empty_parent m.
Proof.
  unfold no_empty_parentb, no_empty_parent. rewrite forallb_forall.
  intros H k t Hin Hp. specialize (H (k, t) Hin). cbn [snd] in H.
  rewrite Hp in H. discriminate H.
Qed.

Lemma parents_resolveb_sound m :
  parents_resolveb m = true -> parents_resolve m.
Proof.
  unfold parents_resolveb, parents_resolve. rewrite forallb_forall.
  intros H k t p Hin Hp. specialize (H (k, t) Hin). cbn [snd] in H.
  now rewrite Hp in H.
Qed.

Lemma acyclicb_sound m : acyclicb m = true -> acyclic m.
Proof.
  unfold acyclicb, acyclic. rewrite forallb_forall. intros H u Hc.
  destruct (cycle_first_step u Hc) as [p [[t [Hg Hp]] Hr]].
  specialize (H (u, t) (get_in _ _ _ Hg)). cbn [fst snd] in H.
  rewrite Hp in H. apply has_cycle_iff in Hr. rewrite Hr in H.
  discriminate H.
Qed.

Lemma nodupb_sound l : nodupb l = true -> NoDup l.
Proof.
  induction l as [|x r IH]; cbn; [constructor|].
  intros H. apply Bool.andb_true_iff in H. destruct H as [H1 H2].
  constructor; [|now apply IH].
  intros Hin. apply mem_in in Hin. rewrite Hin in H1. discriminate H1.
Qed.

Lemma step_then_reach {R : relation string} x y :
  clos_refl_trans string R x y ->
  forall a, R a x -> clos_trans string R a y.
Proof.
  intros H. apply clos_rt_rt1n in H.
  induction H as [x|x y z Hxy _ IH]; intros a Ha.
  - now apply t_step.
  - eapply t_trans; [apply t_step; exact Ha | now apply IH].
Qed.

Lemma shrinks_no_empty_parent m m' :
  shrinks m m' -> no_empty_parent m -> no_empty_parent m'.
Proof.
  intros Hs H k t' Hin.
  destruct (shrinks_in _ _ _ _ Hs Hin) as [t [Hin' [->| ->]]].
  - now apply (H k t).
  - discriminate.
Qed.

(** *** Sample batches *)

Definition rec (uid : string) (parent : option string) : task_data :=
  mkTaskData uid "Untitled Task" None Py.PyNone Py.PyNone Py.PyNone None
             (Py.PyInt 0) false parent.

(** One record whose parent reference is the empty string. *)
Definition empty_parent_batch : batch := [("a", rec "a" (Some ""))].

(** A record under the empty key that names itself as parent. *)
Definition empty_self_loop : batch := [("", rec "" (Some ""))].

(** A -> B -> C -> A, and D under a parent E that is not in the batch. *)
Definition cycle_and_orphan : batch :=
  [("A", rec "A" (Some "B")); ("B", rec "B" (Some "C"));
   ("C", rec "C" (Some "A")); ("D", rec "D" (Some "E"))].

(** A chain C -> B -> A and a root D. *)
Definition valid_batch : batch :=
  [("A", rec "A" None); ("B", rec "B" (Some "A"));
   ("C", rec "C" (Some "B")); ("D", rec "D" None)].

Example validate_cycle_and_orphan :
  _validate_task_hierarchy_count cycle_and_orphan
  = ([("A", rec "A" None); ("B", rec "B" (Some "C"));
      ("C", rec "C" (Some "A")); ("D", rec "D" None)], 2).
Proof. reflexivity. Qed.

(** C6, as stated, fails: both passes test [parent_uid] for truth, so a
    parent reference that is the empty string is left alone.  It is not
    null and names no key of the batch; under the empty key it even
    closes a cycle. *)
Lemma validate_keeps_empty_parent :
  _validate_task_hierarchy empty_parent_batch = empty_parent_batch
  /\ ~ parents_resolve (_validate_task_hierarchy empty_parent_batch)
  /\ ~ valid (_validate_task_hierarchy empty_parent_batch)
  /\ ~ acyclic (_validate_task_hierarchy empty_self_loop).
Proof.
  assert (H : ~ parents_resolve (_validate_task_hierarchy empty_parent_batch)).
  { intros H.
    specialize (H "a" (rec "a" (Some "")) "" (or_introl eq_refl) eq_refl).
    discriminate H. }
  repeat split; [exact H | now intros [H' _] |].
  intros Hc. apply (Hc ""). apply t_step.
  exists (rec "" (Some "")). split; reflexivity.
Qed.

(** On a batch without empty parent references the result is a forest
    in the plain sense. *)
Lemma validate_forest_without_empty_parent m :
  no_empty_parent m ->
  parents_resolve (_validate_task_hierarchy m)
  /\ acyclic (_validate_task_hierarchy m).
Proof.
  destruct (validate_spec m) as (m' & n & E & Hs & Hp & Hc).
  unfold _validate_task_hierarchy. rewrite E. cbn [fst].
  intros Hne.
  pose proof (shrinks_no_empty_parent _ _ Hs Hne) as Hne'.
  split.
  - intros k t p Hin Ht. apply (Hp k t p Hin Ht).
    intros ->. now apply (Hne' k t Hin).
  - intros u Hcyc.
    destruct (cycle_first_step u Hcyc) as [p [[t [Hg Ht]] Hr]].
    apply (Hc u t p (get_in _ _ _ Hg) Ht); [|exact Hr].
    intros ->. now apply (Hne' u t (get_in _ _ _ Hg)).
Qed.

(** C6, amended: for every input mapping, validation keeps the keys, and
    in its result every parent reference other than the empty string
    names a key of the mapping and no chain of such references leads back
    to where it started; when no record of the input has the empty string
    for a parent (the decoder never produces one), every non-null
    [parent_uid] of the result is a key of the mapping and the result has
    no parent-chain cycle: it is a forest. *)
Theorem validate_task_hierarchy_forest m :
  keys (_validate_task_hierarchy m) = keys m
  /\ proper_parents_resolve (_validate_task_hierarchy m)
  /\ proper_acyclic (_validate_task_hierarchy m)
  /\ (no_empty_parent m ->
      parents_resolve (_validate_task_hierarchy m)
      /\ acyclic (_validate_task_hierarchy m)).
Proof.
  split; [|split; [|split]].
  - destruct (validate_spec m) as (m' & n & E & Hs & _).
    unfold _validate_task_hierarchy. rewrite E. cbn [fst].
    now apply shrinks_keys.
  - destruct (validate_spec m) as (m' & n & E & _ & Hp & _).
    unfold _validate_task_hierarchy. rewrite E. exact Hp.
  - destruct (validate_spec m) as (m' & n & E & _ & _ & Hc).
    unfold _validate_task_hierarchy. rewrite E. cbn [fst].
    intros u Hcyc.
    destruct (cycle_first_step u Hcyc) as [p [[[t [Hg Ht]] Hne] Hr]].
    apply (Hc u t p (get_in _ _ _ Hg) Ht Hne).
    now apply reach_proper_to_edge.
  - apply validate_forest_without_empty_parent.
Qed.

Lemma validate_task_hierarchy_forest_witness :
  no_empty_parent cycle_and_orphan
  /\ parents_resolve (_validate_task_hierarchy cycle_and_orphan)
  /\ acyclic (_validate_task_hierarchy cycle_and_orphan).
Proof.
  assert (H : no_empty_parent cycle_and_orphan)
    by (apply no_empty_parentb_sound; reflexivity).
  split; [exact H|].
  exact (proj2 (proj2 (proj2
           (validate_task_hierarchy_forest cycle_and_orphan))) H).
Defined.

(** C7: on a batch that satisfies the invariant (every non-null parent
    is a key of the batch, no cycles) validation returns the batch as it
    is and counts zero repairs; and for every batch whatever, validating
    the result of a validation changes nothing and counts zero repairs:
    validating twice equals validating once. *)
Theorem validate_task_hierarchy_idempotent m :
  (NoDup (keys m) -> valid m ->
   _validate_task_hierarchy_count m = (m, 0))
  /\ _validate_task_hierarchy_count (_validate_task_hierarchy m)
     = (_validate_task_hierarchy m, 0)
  /\ _validate_task_hierarchy (_validate_task_hierarchy m)
     = _validate_task_hierarchy m.
Proof.
  assert (Hfix : forall x : batch,
             (forall u t p, In (u, t) x -> td_parent_uid t = Some p ->
                            p <> "" -> contains p x = true) ->
             (forall u t p, In (u, t) x -> td_parent_uid t = Some p ->
                            p <> "" ->
                            ~ clos_refl_trans string (edge x) p u) ->
             _validate_task_hierarchy_count x = (x, 0)).
  { intros x Hp Hc. unfold _validate_task_hierarchy_count.
    rewrite (orphan_loop_unchanged x x 0 Hp).
    rewrite (cycle_loop_unchanged x [] 0); [reflexivity|].
    intros u t p Hin Ht Hne. cbn [app].
    destruct (has_cycle x u (Some p) []) eqn:E; [|reflexivity].
    apply has_cycle_iff in E. now destruct (Hc u t p Hin Ht Hne). }
  assert (Htwice : _validate_task_hierarchy_count (_validate_task_hierarchy m)
                   = (_validate_task_hierarchy m, 0)).
  { destruct (validate_spec m) as (m' & n & E & Hs & Hp & Hc).
    unfold _validate_task_hierarchy at 1 2. rewrite E. cbn [fst].
    now apply Hfix. }
  split; [|split; [exact Htwice|]].
  - intros Hnd [Hp Hc]. apply Hfix.
    + intros u t p Hin Ht _. now apply (Hp u t p).
    + intros u t p Hin Ht _ Hr. apply (Hc u).
      apply (step_then_reach p u Hr).
      exists t. split; [now apply get_nodup | exact Ht].
  - unfold _validate_task_hierarchy at 1. now rewrite Htwice.
Qed.

Lemma validate_task_hierarchy_idempotent_witness :
  NoDup (keys valid_batch) /\ valid valid_batch
  /\ _validate_task_hierarchy_count valid_batch = (valid_batch, 0).
Proof.
  assert (Hnd : NoDup (keys valid_batch))
    by (apply nodupb_sound; reflexivity).
  assert (Hv : valid valid_batch).
  { split; [apply parents_resolveb_sound | apply acyclicb_sound];
      reflexivity. }
  split; [exact Hnd|]. split; [exact Hv|].
  exact (proj1 (validate_task_hierarchy_idempotent valid_batch) Hnd Hv).
Defined.

End HierarchyFacts.

Module PipelineFacts.
Import Py VObject Codec Hierarchy Pull HierarchyFacts.
Local Open Scope string_scope.
Local Open Scope list_scope.

(** The decoder never yields the empty string as a parent reference. *)
Lemma parse_vtodo_parent_not_empty
      parse_date_time local_offset fresh_uuid d t :
  _parse_vtodo_safely parse_date_time local_offset fresh_uuid d = Some t ->
  td_parent_uid t <> Some "".
Proof.
  unfold _parse_vtodo_safely.
  destruct d as [cs|]; [|discriminate].
  destruct (readOne parse_date_time (Some cs)); [|discriminate].
  destruct (find (fun c => comp_name c =? "VTODO") cs) as [rc|];
    [|discriminate].
  destruct (read_lines parse_date_time (comp_lines rc)); [|discriminate].
  intros H. inversion H; subst t; clear H. cbn [td_parent_uid].
  destruct (safe_get_text "RELATED-TO" (comp_lines rc)) as [r|];
    [|discriminate].
  destruct (String.eqb_spec r ""); [discriminate | congruence].
Qed.

Lemma dict_set_in k v (m : batch) k' t' :
  In (k', t') (dict_set k v m) -> (k', t') = (k, v) \/ In (k', t') m.
Proof.
  induction m as [|[k0 v0] r IH]; cbn.
  - intros [H|[]]. now left.
  - destruct (k0 =? k); cbn.
    + intros [H|H]; [now left | right; now right].
    + intros [H|H]; [right; now left|].
      destruct (IH H) as [H'|H']; [now left | right; now right].
Qed.

Lemma task_map_of_in tasks k t :
  In (k, t) (task_map_of tasks) -> In t tasks.
Proof.
  unfold task_map_of.
  assert (H : forall (m : batch),
             In (k, t) (fold_left (fun m t => dict_set (td_uid t) t m)
                                  tasks m) ->
             In t tasks \/ In (k, t) m).
  { induction tasks as [|x r IH]; intros m; cbn; [now right|].
    intros Hin. destruct (IH _ Hin) as [H|H]; [left; now right|].
    destruct (dict_set_in _ _ _ _ _ H) as [H'|H'].
    - inversion H'; subst. left. now left.
    - now right. }
  intros Hin. destruct (H [] Hin) as [H'|[]]. exact H'.
Qed.

Lemma decoded_from_in decode todos :
  forall i t, In t (decoded_from decode i todos) ->
              exists j d, decode j d = Some t.
Proof.
  induction todos as [|d r IH]; intros i t; cbn; [contradiction|].
  destruct (decode i d) as [t0|] eqn:E.
  - intros [<-|H]; [now exists i, d | now apply (IH (S i))].
  - apply IH.
Qed.

(** Within a pull the invariant holds for every fetch: the batch built
    from what decodes is a forest after validation. *)
Lemma pulled_batch_is_forest parse_date_time local_offset uuid_at todos :
  valid (_validate_task_hierarchy
           (task_map_of
              (decoded_from
                 (fun i => _parse_vtodo_safely parse_date_time local_offset
                                              (uuid_at i))
                 0 todos))).
Proof.
  apply validate_forest_without_empty_parent.
  intros k t Hin. apply task_map_of_in in Hin.
  apply decoded_from_in in Hin. destruct Hin as (j & d & Hd).
  eapply parse_vtodo_parent_not_empty. exact Hd.
Qed.

End PipelineFacts.

(* ================================================================== *)
(** * Further properties *)
(* ================================================================== *)

Module RetryMore.
Import Retry RetryFacts.

Section Wrapper.
Context {St A : Type}.
Variable func : St -> outcome pyexc A * St.
Variable max_retries : nat.
Variable delay : Q.

(** [fails_times n s last s' last']: from [s] the call raises a transient
    exception [n] times in a row, leaving [s']; [last'] is the last
    exception raised, or [last] when [n] is 0. *)
Inductive fails_times : nat -> St -> option pyexc -> St -> option pyexc -> Prop :=
| ft_none s last : fails_times 0 s last s last
| ft_more n s e s1 last s' last' :
    func s = (Raised e, s1) -> is_transient e = true ->
    fails_times n s1 (Some e) s' last' ->
    fails_times (S n) s last s' last'.

(** [fails_then_raises n s e s']: the call raises a transient exception
    [n] times in a row and then an exception [e] that is not transient. *)
Inductive fails_then_raises : nat -> St -> pyexc -> St -> Prop :=
| ftx_raises s e s' :
    func s = (Raised e, s') -> is_transient e = false ->
    fails_then_raises 0 s e s'
| ftx_fails n s e0 s1 e s' :
    func s = (Raised e0, s1) -> is_transient e0 = true ->
    fails_then_raises n s1 e s' ->
    fails_then_raises (S n) s e s'.

(** The trace of [n] failed attempts from attempt [k] on when they are the
    last ones allowed: each but the last is followed by its sleep. *)
Fixpoint exhausted_trace (k n : nat) : list event :=
  match n with
  | O => []
  | S O => [Invoked]
  | S n' => Invoked :: Slept (backoff delay k) :: exhausted_trace (S k) n'
  end.

Lemma attempts_exhausted n :
  forall k last s s' last' tr,
    fails_times n s last s' last' ->
    (k + n = max_retries)%nat ->
    attempts func max_retries delay n k last s tr
    = (Raised (CalDAVConnectionError max_retries last'), s',
       tr ++ exhausted_trace k n).
Proof.
  induction n as [|n IH]; intros k last s s' last' tr H Hk; revert Hk;
    inversion H; subst; intros Hk.
  - cbn. now rewrite app_nil_r.
  - cbn [attempts]. rewrite H1, H2.
    destruct n as [|n].
    + assert (Hlt : (k <? max_retries - 1)%nat = false)
        by (apply Nat.ltb_ge; lia).
      rewrite Hlt. inversion H3; subst. reflexivity.
    + assert (Hlt : (k <? max_retries - 1)%nat = true)
        by (apply Nat.ltb_lt; lia).
      rewrite Hlt.
      rewrite (IH (S k) (Some e) s1 s' last'
                  (tr ++ [Invoked; Slept (backoff delay k)]) H3) by lia.
      rewrite <- app_assoc. reflexivity.
Qed.

Lemma invocations_exhausted n : forall k, invocations (exhausted_trace k n) = n.
Proof.
  induction n as [|n IH]; intros k; [reflexivity|].
  destruct n as [|n]; [reflexivity|].
  change (exhausted_trace k (S (S n)))
    with (Invoked :: Slept (backoff delay k) :: exhausted_trace (S k) (S n)).
  unfold invocations in *. cbn [filter length]. now rewrite IH.
Qed.

Lemma sleeps_exhausted n :
  forall k, sleeps (exhausted_trace k n) = map (backoff delay) (seq k (n - 1)).
Proof.
  induction n as [|n IH]; intros k; [reflexivity|].
  destruct n as [|n]; [reflexivity|].
  change (exhausted_trace k (S (S n)))
    with (Invoked :: Slept (backoff delay k) :: exhausted_trace (S k) (S n)).
  cbn [sleeps]. rewrite IH.
  replace (S (S n) - 1)%nat with (S (S n - 1)) by lia. reflexivity.
Qed.

Lemma attempts_fails_then_raises n :
  forall todo k last s e s' tr,
    fails_then_raises n s e s' ->
    (n < todo)%nat -> (k + n < max_retries)%nat ->
    attempts func max_retries delay todo k last s tr
    = (Raised (Reraised e), s', tr ++ expected_trace delay k n).
Proof.
  induction n as [|n IH]; intros todo k last s e s' tr H Htodo Hmax;
    inversion H; subst; destruct todo as [|todo]; try lia; cbn [attempts].
  - rewrite H0, H1. reflexivity.
  - rewrite H1, H2.
    assert (Hlt : (k <? max_retries - 1)%nat = true)
      by (apply Nat.ltb_lt; lia).
    rewrite Hlt.
    rewrite (IH todo (S k) (Some e0) s1 e s'
                (tr ++ [Invoked; Slept (backoff delay k)]) H3) by lia.
    rewrite <- app_assoc. reflexivity.
Qed.

(** The sum of the sleeps of [n] failures from attempt [k] on. *)
Lemma backoff_sum n :
  forall k,
    fold_right Qplus 0 (map (backoff delay) (seq k n))
    == backoff delay k * (inject_Z (2 ^ Z.of_nat n) - 1).
Proof.
  induction n as [|n IH]; intros k.
  - cbn [seq map fold_right]. change (inject_Z (2 ^ Z.of_nat 0)) with 1%Q.
    ring.
  - cbn [seq map fold_right]. rewrite IH, backoff_succ.
    rewrite Nat2Z.inj_succ, Z.pow_succ_r by apply Nat2Z.is_nonneg.
    rewrite inject_Z_mult. change (inject_Z 2) with 2%Q. ring.
Qed.
End Wrapper.

(** When every allowed attempt raises a transient exception, the wrapper
    has called the function [max_retries] times, has slept after each
    failure but the last ([delay * 2^k] after attempt [k]), and raises
    [CalDAVConnectionError] with the last exception; with [max_retries = 0]
    the function is never called. *)
Theorem retry_exhausted_raises_connection_error
        {St A : Type} (func : St -> outcome pyexc A * St)
        (max_retries : nat) (delay : Q) (s s' : St) (last : option pyexc) :
  fails_times func max_retries s None s' last ->
  exists tr,
    wrapper func max_retries delay s
    = (Raised (CalDAVConnectionError max_retries last), s', tr)
    /\ invocations tr = max_retries
    /\ sleeps tr = map (backoff delay) (seq 0 (max_retries - 1))
    /\ (max_retries = 0%nat -> tr = [] /\ last = None /\ s' = s)
    /\ ((0 < max_retries)%nat -> exists e, last = Some e /\ is_transient e = true).
Proof.
  intros H. exists (exhausted_trace delay 0 max_retries). unfold wrapper.
  rewrite (attempts_exhausted func max_retries delay max_retries 0 None s s'
             last [] H) by lia.
  repeat split.
  - apply invocations_exhausted.
  - apply sleeps_exhausted.
  - now subst.
  - subst. now inversion H.
  - subst. now inversion H.
  - intros Hpos. clear - H Hpos.
    assert (G : forall n s0 l0 s1 l1,
               fails_times func n s0 l0 s1 l1 ->
               (forall e, l0 = Some e -> is_transient e = true) ->
               (0 < n \/ l0 <> None)%nat ->
               exists e, l1 = Some e /\ is_transient e = true).
    { induction 1 as [s0 l0|n s0 e s1 l0 s2 l1 Hf Ht Hr IH]; intros Hl Hn.
      - destruct l0 as [e|]; [exists e; auto|].
        destruct Hn as [Hn|Hn]; [lia | contradiction].
      - apply IH; [|right; discriminate].
        intros e0 He0. inversion He0; subst. exact Ht. }
    apply (G _ _ _ _ _ H); [discriminate | now left].
Qed.

(** A call that raises [TimeoutError] every time. *)
Definition always_times_out (s : nat) : outcome pyexc nat * nat :=
  (Raised (TimeoutError "timed out"), S s).

Lemma always_times_out_twice :
  fails_times always_times_out 2 0%nat None 2%nat
              (Some (TimeoutError "timed out")).
Proof.
  eapply ft_more; [reflexivity | reflexivity |].
  eapply ft_more; [reflexivity | reflexivity |].
  apply ft_none.
Defined.

Lemma retry_exhausted_raises_connection_error_witness :
  exists tr,
    wrapper always_times_out 2 1 0%nat
    = (Raised (CalDAVConnectionError 2 (Some (TimeoutError "timed out"))),
       2%nat, tr)
    /\ invocations tr = 2%nat
    /\ sleeps tr = map (backoff 1) (seq 0 (2 - 1))
    /\ (2%nat = 0%nat ->
        tr = [] /\ Some (TimeoutError "timed out") = None /\ 2%nat = 0%nat)
    /\ ((0 < 2)%nat ->
        exists e, Some (TimeoutError "timed out") = Some e
                  /\ is_transient e = true).
Proof.
  exact (retry_exhausted_raises_connection_error always_times_out 2 1
           0%nat 2%nat _ always_times_out_twice).
Defined.

(** An exception that is not transient is re-raised by the attempt that
    meets it: after [n] transient failures ([n] below [max_retries]) the
    function has been called [n + 1] times, nothing is slept after the last
    call, and no further attempt is made. *)
Theorem retry_reraises_other_exception
        {St A : Type} (func : St -> outcome pyexc A * St)
        (max_retries : nat) (delay : Q) (n : nat) (s s' : St) (e : pyexc) :
  (n < max_retries)%nat ->
  fails_then_raises func n s e s' ->
  exists tr,
    wrapper (A := A) func max_retries delay s = (Raised (Reraised e), s', tr)
    /\ invocations tr = S n
    /\ sleeps tr = map (backoff delay) (seq 0 n)
    /\ (n = 0%nat -> tr = [Invoked]).
Proof.
  intros Hn H. exists (expected_trace delay 0 n). unfold wrapper.
  rewrite (attempts_fails_then_raises func max_retries delay n max_retries 0
             None s e s' [] H) by lia.
  repeat split.
  - apply invocations_expected.
  - apply sleeps_expected.
  - now intros ->.
Qed.

(** A call that raises an exception the decorator does not retry. *)
Definition raises_value_error (s : nat) : outcome pyexc nat * nat :=
  (Raised (OtherException "ValueError"), S s).

Lemma raises_value_error_at_once :
  fails_then_raises raises_value_error 0 0%nat (OtherException "ValueError")
                    1%nat.
Proof. apply ftx_raises; reflexivity. Defined.

Lemma retry_reraises_other_exception_witness :
  exists tr,
    wrapper raises_value_error 3 1 0%nat
    = (Raised (Reraised (OtherException "ValueError")), 1%nat, tr)
    /\ invocations tr = 1%nat
    /\ sleeps tr = map (backoff 1) (seq 0 0)
    /\ (0%nat = 0%nat -> tr = [Invoked]).
Proof.
  apply (retry_reraises_other_exception raises_value_error 3 1 0 0%nat 1%nat
           (OtherException "ValueError")); [lia|].
  exact raises_value_error_at_once.
Defined.

(** The schedule in general: after [n] transient failures in a row, [n]
    below [max_retries], and a call that returns, the function has been
    called [n + 1] times, its value is returned, the [j]-th sleep is
    [delay * 2^j], and the wrapper has slept [delay * (2^n - 1)] in all. *)
Theorem retry_returns_after_failures
        {St A : Type} (func : St -> outcome pyexc A * St)
        (max_retries : nat) (delay : Q) (n : nat) (s s' : St) (a : A) :
  (n < max_retries)%nat ->
  fails_then_returns func n s a s' ->
  exists tr,
    wrapper func max_retries delay s = (Returned a, s', tr)
    /\ invocations tr = S n
    /\ sleeps tr = map (backoff delay) (seq 0 n)
    /\ total_delay tr == delay * (inject_Z (2 ^ Z.of_nat n) - 1).
Proof.
  intros Hn H.
  destruct (retry_schedule func max_retries delay n s a s' Hn H)
    as (tr & E & Hi & Hs & _).
  exists tr. repeat split; try assumption.
  unfold total_delay. rewrite Hs, backoff_sum, backoff_0. reflexivity.
Qed.

Lemma retry_returns_after_failures_witness :
  exists tr,
    wrapper (scripted (Raised (OtherException "script exhausted")))
            5 (1 # 2) two_failures
    = (Returned 7%nat, [], tr)
    /\ invocations tr = 3%nat
    /\ sleeps tr = map (backoff (1 # 2)) (seq 0 2)
    /\ total_delay tr == (1 # 2) * (inject_Z (2 ^ Z.of_nat 2) - 1).
Proof.
  apply (retry_returns_after_failures
           (scripted (Raised (OtherException "script exhausted")))
           5 (1 # 2) 2 two_failures [] 7%nat); [lia|].
  exact two_failures_script.
Defined.

End RetryMore.

Module ClientFacts.
Import Py Retry VObject Codec Client VObjectFacts.
Local Open Scope nat_scope.
Local Open Scope string_scope.
Local Open Scope list_scope.

(** What the decorator makes of the outcome of a body that raises only
    the client's own exceptions. *)
Definition reraised {A} (o : outcome client_exc A) : outcome raised A :=
  match o with
  | Returned a => Returned a
  | Raised e => Raised (Reraised (to_pyexc e))
  end.

Lemma to_pyexc_not_transient e : is_transient (to_pyexc e) = false.
Proof. now destruct e. Qed.

Lemma decorated_once {St A} (n : nat)
      (body : St -> outcome client_exc A * St) (st : St) :
  decorated (S n) body st
  = (reraised (fst (body st)), snd (body st), [Invoked]).
Proof.
  unfold decorated, retry_on_failure, wrapper. cbn [attempts].
  destruct (body st) as [[a|e] st']; cbn [fst snd reraised]; [reflexivity|].
  now rewrite to_pyexc_not_transient.
Qed.

Lemma cache_get_set_same k v cache : cache_get k (cache_set k v cache) = Some v.
Proof.
  induction cache as [|[k' v'] r IH]; cbn.
  - now rewrite String.eqb_refl.
  - destruct (k' =? k) eqn:E; cbn; [now rewrite String.eqb_refl|].
    now rewrite E.
Qed.

Lemma cache_get_set_other k k' v cache :
  k' <> k -> cache_get k' (cache_set k v cache) = cache_get k' cache.
Proof.
  intros Hk. induction cache as [|[k0 v0] r IH]; cbn.
  - destruct (k =? k') eqn:E; [apply String.eqb_eq in E; congruence|].
    reflexivity.
  - destruct (k0 =? k) eqn:E; cbn.
    + apply String.eqb_eq in E. subst k0.
      destruct (k =? k') eqn:E'; [apply String.eqb_eq in E'; congruence|].
      reflexivity.
    + destruct (k0 =? k'); [reflexivity | exact IH].
Qed.

(** Every cached calendar is stored under its own URL. *)
Definition cache_consistent (c : client) : Prop :=
  forall k v, cache_get k (_calendar_cache c) = Some v -> url v = k.

Section Server.
Context {W T : Type}.
Variable principal_calendars : W -> outcome pyexc (list calendar) * W.
Variable todo_by_uid : calendar -> string -> W -> outcome pyexc T * W.
Variable todo_delete : T -> W -> outcome pyexc unit * W.

Lemma get_calendar_by_url_once calendar_url st :
  get_calendar_by_url principal_calendars calendar_url st
  = (reraised (fst (get_calendar_by_url_body principal_calendars
                      calendar_url st)),
     snd (get_calendar_by_url_body principal_calendars calendar_url st),
     [Invoked]).
Proof. apply decorated_once. Qed.

(** What a successful lookup leaves behind. *)
Lemma get_calendar_by_url_body_returned calendar_url c w cal c' w' :
  get_calendar_by_url_body principal_calendars calendar_url (c, w)
  = (Returned cal, (c', w')) ->
  is_connected c' = true
  /\ cache_get calendar_url (_calendar_cache c') = Some cal
  /\ (cache_consistent c -> url cal = calendar_url /\ cache_consistent c').
Proof.
  unfold get_calendar_by_url_body.
  destruct (is_connected c) eqn:Hc; cbn [negb]; [|discriminate].
  destruct (cache_get calendar_url (_calendar_cache c)) as [hit|] eqn:Hhit.
  - intros H. inversion H; subst. repeat split; auto.
  - destruct (principal_calendars w) as [[cals|e] w1]; [|discriminate].
    destruct (find (fun cal0 => url cal0 =? calendar_url) cals)
      as [found|] eqn:Hf; [|discriminate].
    intros H. inversion H; subst. cbn.
    apply find_some in Hf. destruct Hf as [_ Hu].
    apply String.eqb_eq in Hu.
    repeat split.
    + exact Hc.
    + apply cache_get_set_same.
    + exact Hu.
    + intros k v. cbn.
      destruct (string_dec k calendar_url) as [->|Hk].
      * rewrite cache_get_set_same. intros Hv. now inversion Hv; subst.
      * rewrite cache_get_set_other by exact Hk. apply H0.
Qed.
End Server.

(** No decorated method of the client is ever retried: whatever the server
    does, [get_calendar_by_url], [delete_task] and [create_task] run their
    body once and never sleep, and what they raise is the body's own
    exception, never the decorator's [CalDAVConnectionError].  A
    [ConnectionError] of the server reaches the decorator wrapped in a
    [CalDAVError], which it does not catch. *)
Theorem client_methods_never_retried
        {W T : Type}
        (principal_calendars : W -> outcome pyexc (list calendar) * W)
        (todo_by_uid : calendar -> string -> W -> outcome pyexc T * W)
        (todo_delete : T -> W -> outcome pyexc unit * W)
        (serialize : component -> outcome pyexc string)
        (add_todo : calendar -> string -> W -> outcome pyexc unit * W)
        (fromisoformat : string -> option datetime) (local_offset : Z)
        (fresh_uuid : string) (now : Z) (st : client * W) :
  (forall calendar_url,
      let '(o, _, tr) :=
        get_calendar_by_url principal_calendars calendar_url st in
      tr = [Invoked]
      /\ forall e, o = Raised e ->
                   exists cls msg, e = Reraised (OtherException msg)
                     /\ fst (get_calendar_by_url_body principal_calendars
                               calendar_url st)
                        = Raised (RaiseCalDAVError cls msg))
  /\ (forall uid calendar_url,
         let '(o, _, tr) :=
           delete_task principal_calendars todo_by_uid todo_delete
                       uid calendar_url st in
         tr = [Invoked]
         /\ forall e, o = Raised e ->
                      exists msg, e = Reraised (OtherException msg))
  /\ (forall summary calendar_url parent_uid description due priority,
         let '(o, _, tr) :=
           create_task principal_calendars todo_by_uid serialize add_todo
                       fromisoformat local_offset fresh_uuid now
                       summary calendar_url parent_uid description due
                       priority st in
         tr = [Invoked]
         /\ forall e, o = Raised e ->
                      exists msg, e = Reraised (OtherException msg))
  /\ (forall calendar_url c w e w',
         st = (c, w) -> is_connected c = true ->
         cache_get calendar_url (_calendar_cache c) = None ->
         principal_calendars w = (Raised e, w') ->
         get_calendar_by_url principal_calendars calendar_url st
         = (Raised (Reraised (OtherException
                                ("Failed to get calendar: " ++ str_exc e))),
            (c, w'), [Invoked])).
Proof.
  split; [|split; [|split]].
  - intros calendar_url. rewrite get_calendar_by_url_once.
    split; [reflexivity|].
    destruct (get_calendar_by_url_body principal_calendars calendar_url st)
      as [[a|x] st'] eqn:Hb; cbn [fst reraised]; intros e He;
      inversion He; subst.
    revert Hb. unfold get_calendar_by_url_body. destruct st as [c w].
    destruct (negb (is_connected c)).
    { intros Hb. inversion Hb; subst. do 2 eexists; split; reflexivity. }
    destruct (cache_get calendar_url (_calendar_cache c)); [discriminate|].
    destruct (principal_calendars w) as [[cals|e0] w1].
    + destruct (find _ cals); [discriminate|].
      intros Hb. inversion Hb; subst. do 2 eexists; split; reflexivity.
    + intros Hb. inversion Hb; subst. do 2 eexists; split; reflexivity.
  - intros uid calendar_url. unfold delete_task. rewrite decorated_once.
    split; [reflexivity|].
    destruct (fst (delete_task_body principal_calendars todo_by_uid
                     todo_delete uid calendar_url st)) as [a|x];
      cbn [reraised]; intros e He; inversion He; subst.
    destruct x; cbn; eauto.
  - intros summary calendar_url parent_uid description due priority.
    unfold create_task. rewrite decorated_once.
    split; [reflexivity|].
    destruct (fst (create_task_body principal_calendars todo_by_uid
                     serialize add_todo
                     fromisoformat local_offset fresh_uuid now summary
                     calendar_url parent_uid description due priority st))
      as [a|x]; cbn [reraised]; intros e He; inversion He; subst.
    destruct x; cbn; eauto.
  - intros calendar_url c w e w' -> Hc Hm He.
    rewrite get_calendar_by_url_once. unfold get_calendar_by_url_body.
    rewrite Hc, Hm, He. reflexivity.
Qed.

(** A calendar found once is served from the cache afterwards: a later
    lookup of the same URL returns the same calendar without a request,
    whatever the server would answer by then.  When the cache holds each
    calendar under its own URL, the calendar returned has the URL asked
    for and the cache stays that way. *)
Theorem get_calendar_by_url_cached
        {W : Type}
        (principal_calendars later_calendars
           : W -> outcome pyexc (list calendar) * W)
        (calendar_url : string) (c c' : client) (w w' w2 : W)
        (cal : calendar) (tr : list event) :
  get_calendar_by_url principal_calendars calendar_url (c, w)
  = (Returned cal, (c', w'), tr) ->
  get_calendar_by_url later_calendars calendar_url (c', w2)
  = (Returned cal, (c', w2), [Invoked])
  /\ (cache_consistent c -> url cal = calendar_url /\ cache_consistent c').
Proof.
  rewrite get_calendar_by_url_once. intros H.
  destruct (get_calendar_by_url_body principal_calendars calendar_url (c, w))
    as [[a|e] [c1 w1]] eqn:Hb; cbn [fst snd reraised] in H;
    inversion H; subst.
  destruct (get_calendar_by_url_body_returned _ _ _ _ _ _ _ Hb)
    as (Hc & Hg & Hk).
  split; [|exact Hk].
  rewrite get_calendar_by_url_once. unfold get_calendar_by_url_body.
  rewrite Hc, Hg. reflexivity.
Qed.

(** A server with one calendar, and one that refuses every request. *)
Definition home : calendar := mkCalendar "https://dav/home/" 1.
Definition one_calendar (w : nat) : outcome pyexc (list calendar) * nat :=
  (Returned [home], S w).
Definition server_down (w : nat) : outcome pyexc (list calendar) * nat :=
  (Raised (ConnectionError "connection refused"), S w).
Definition connected : client := mkClientState true true [].

Lemma get_calendar_by_url_cached_witness :
  get_calendar_by_url server_down "https://dav/home/"
    (mkClientState true true [("https://dav/home/", home)], 7)
  = (Returned home,
     (mkClientState true true [("https://dav/home/", home)], 7), [Invoked])
  /\ (cache_consistent connected ->
      url home = "https://dav/home/"
      /\ cache_consistent
           (mkClientState true true [("https://dav/home/", home)])).
Proof.
  apply (get_calendar_by_url_cached one_calendar server_down
           "https://dav/home/" connected _ 0 1 7 home [Invoked]).
  reflexivity.
Defined.

(** [delete_task] answers [False] without sending a delete when the task
    cannot be looked up, be it that the server does not know the uid or
    that the lookup failed for any other reason (a timeout, say): the
    state of the server is the one the lookup left, and nothing is
    raised.  It answers [True] only after [task.delete()] returned. *)
Theorem delete_task_lookup_failure_returns_false
        {W T : Type}
        (principal_calendars : W -> outcome pyexc (list calendar) * W)
        (todo_by_uid : calendar -> string -> W -> outcome pyexc T * W)
        (todo_delete : T -> W -> outcome pyexc unit * W)
        (uid calendar_url : string) (c c1 : client) (w w1 : W)
        (cal : calendar) (tr : list event) :
  get_calendar_by_url principal_calendars calendar_url (c, w)
  = (Returned cal, (c1, w1), tr) ->
  (forall e w2,
      todo_by_uid cal uid w1 = (Raised e, w2) ->
      delete_task principal_calendars todo_by_uid todo_delete
                  uid calendar_url (c, w)
      = (Returned false, (c1, w2), [Invoked]))
  /\ (forall st',
         fst (fst (delete_task principal_calendars todo_by_uid todo_delete
                               uid calendar_url (c, w))) = Returned true ->
         snd (fst (delete_task principal_calendars todo_by_uid todo_delete
                               uid calendar_url (c, w))) = st' ->
         exists task w2 w3,
           todo_by_uid cal uid w1 = (Returned task, w2)
           /\ todo_delete task w2 = (Returned tt, w3)
           /\ st' = (c1, w3)).
Proof.
  intros Hcal. split.
  - intros e w2 He. unfold delete_task. rewrite decorated_once.
    unfold delete_task_body, _find_task_by_uid. rewrite Hcal, He.
    reflexivity.
  - intros st'. unfold delete_task. rewrite decorated_once.
    unfold delete_task_body, _find_task_by_uid. rewrite Hcal.
    destruct (todo_by_uid cal uid w1) as [[task|e] w2];
      [|cbn; discriminate].
    destruct (todo_delete task w2) as [[[]|e] w3] eqn:Hd; cbn;
      [|discriminate].
    intros _ <-. exists task, w2, w3. now rewrite Hd.
Qed.

(** A lookup that times out, and a delete that would succeed. *)
Definition lookup_times_out (cal : calendar) (uid : string) (w : nat)
  : outcome pyexc nat * nat :=
  (Raised (TimeoutError "timed out"), S w).
Definition delete_succeeds (task : nat) (w : nat)
  : outcome pyexc unit * nat :=
  (Returned tt, S w).

Lemma delete_task_lookup_failure_returns_false_witness :
  (forall e w2,
      lookup_times_out home "task-1" 1 = (Raised e, w2) ->
      delete_task one_calendar lookup_times_out delete_succeeds
                  "task-1" "https://dav/home/" (connected, 0)
      = (Returned false,
         (mkClientState true true [("https://dav/home/", home)], w2),
         [Invoked]))
  /\ (forall st',
         fst (fst (delete_task one_calendar lookup_times_out delete_succeeds
                               "task-1" "https://dav/home/" (connected, 0)))
         = Returned true ->
         snd (fst (delete_task one_calendar lookup_times_out delete_succeeds
                               "task-1" "https://dav/home/" (connected, 0)))
         = st' ->
         exists task w2 w3,
           lookup_times_out home "task-1" 1 = (Returned task, w2)
           /\ delete_succeeds task w2 = (Returned tt, w3)
           /\ st' = (mkClientState true true [("https://dav/home/", home)],
                     w3)).
Proof.
  apply (delete_task_lookup_failure_returns_false one_calendar
           lookup_times_out delete_succeeds "task-1" "https://dav/home/"
           connected _ 0 1 home [Invoked]).
  reflexivity.
Defined.

(** [create_task] drops a parent it cannot look up: when the summary is
    not blank, the calendar is found and the lookup of a non-empty
    [parent_uid] fails (unknown uid, or any error of the request), the
    record [_create_vtodo] builds is the one of a task without parent
    and has no RELATED-TO property.  What follows hangs on
    [serialize()]: when it raises, [create_task] raises 'Task creation
    failed: Failed to create VTODO: ...' and [calendar.add_todo] is not
    called, the server being left as the lookup of the parent left it;
    when it returns, its text is handed to [calendar.add_todo] and the
    new uid is returned as if no parent had been asked for. *)
Theorem create_task_drops_unknown_parent
        {W T : Type}
        (principal_calendars : W -> outcome pyexc (list calendar) * W)
        (todo_by_uid : calendar -> string -> W -> outcome pyexc T * W)
        (serialize : component -> outcome pyexc string)
        (add_todo : calendar -> string -> W -> outcome pyexc unit * W)
        (fromisoformat : string -> option datetime) (local_offset : Z)
        (fresh_uuid : string) (now : Z)
        (summary calendar_url p : string) (description : option string)
        (due priority : pyval)
        (c c1 : client) (w w1 w2 : W) (cal : calendar) (tr : list event)
        (e : pyexc) :
  ((summary =? "") || (strip summary =? ""))%bool = false ->
  p <> "" ->
  get_calendar_by_url principal_calendars calendar_url (c, w)
  = (Returned cal, (c1, w1), tr) ->
  todo_by_uid cal p w1 = (Raised e, w2) ->
  exists vtodo,
    _create_vtodo fromisoformat local_offset fresh_uuid now summary
                  fresh_uuid None description due priority
    = Returned vtodo
    /\ has "RELATED-TO" vtodo = false
    /\ create_task_body principal_calendars todo_by_uid serialize add_todo
         fromisoformat local_offset fresh_uuid now summary
         calendar_url (Some p) description due priority (c, w)
       = match serialize vtodo with
         | Raised e =>
             (Raised (RaiseCalDAVError Base
                        ("Task creation failed: Failed to create VTODO: "
                         ++ str_exc e)),
              (c1, w2))
         | Returned vtodo_data =>
             match add_todo cal vtodo_data w2 with
             | (Returned _, w3) => (Returned fresh_uuid, (c1, w3))
             | (Raised e, w3) =>
                 (Raised (RaiseCalDAVError Base
                            ("Task creation failed: " ++ str_exc e)),
                  (c1, w3))
             end
         end.
Proof.
  intros Hs Hp Hcal Hlook.
  assert (Hv : exists v,
             _create_vtodo fromisoformat local_offset fresh_uuid now summary
                           fresh_uuid None description due priority
             = Returned v /\ has "RELATED-TO" v = false).
  { unfold _create_vtodo. rewrite Hs. eexists. split; [reflexivity|].
    unfold has, add.
    repeat match goal with
           | |- context [match ?x with _ => _ end] => destruct x
           end;
      rewrite ?existsb_app; reflexivity. }
  destruct Hv as (v & Hv & Hr). exists v. repeat split; try assumption.
  unfold create_task_body. rewrite Hs, Hcal.
  apply String.eqb_neq in Hp. rewrite Hp.
  unfold _find_task_by_uid. rewrite Hlook, Hv.
  destruct (serialize v) as [data|e0]; [|reflexivity].
  now destruct (add_todo cal data w2) as [[[]|e'] w3].
Qed.

(** A serializer that refuses integer values, as vobject's does, and
    writes one line for each property that holds a text. *)
Definition has_integer (v : component) : bool :=
  existsb (fun l => isinstance_int (value l)) v.

Definition text_line (l : content_line) : string :=
  match value l with
  | PyStr s => name l ++ ":" ++ s ++ ";"
  | _ => ""
  end.

Definition serialize_texts (v : component) : outcome pyexc string :=
  if has_integer v
  then Raised (OtherException "an integer value cannot be escaped")
  else Returned (String.concat "" (map text_line v)).

Definition add_succeeds (cal : calendar) (vtodo_data : string) (w : nat)
  : outcome pyexc unit * nat :=
  (Returned tt, S w).
Definition no_iso (s : string) : option datetime := None.

Lemma create_task_drops_unknown_parent_witness :
  exists vtodo,
    _create_vtodo no_iso 0 "new-uid" 50 "Buy milk" "new-uid" None None
                  PyNone PyNone
    = Returned vtodo
    /\ has "RELATED-TO" vtodo = false
    /\ create_task_body one_calendar lookup_times_out serialize_texts
         add_succeeds no_iso 0 "new-uid" 50 "Buy milk" "https://dav/home/"
         (Some "gone") None PyNone PyNone (connected, 0)
       = match serialize_texts vtodo with
         | Raised e =>
             (Raised (RaiseCalDAVError Base
                        ("Task creation failed: Failed to create VTODO: "
                         ++ str_exc e)),
              (mkClientState true true [("https://dav/home/", home)], 2))
         | Returned vtodo_data =>
             match add_succeeds home vtodo_data 2 with
             | (Returned _, w3) =>
                 (Returned "new-uid",
                  (mkClientState true true [("https://dav/home/", home)],
                   w3))
             | (Raised e, w3) =>
                 (Raised (RaiseCalDAVError Base
                            ("Task creation failed: " ++ str_exc e)),
                  (mkClientState true true [("https://dav/home/", home)],
                   w3))
             end
         end.
Proof.
  apply (create_task_drops_unknown_parent one_calendar lookup_times_out
           serialize_texts add_succeeds no_iso 0 "new-uid" 50 "Buy milk"
           "https://dav/home/" "gone" None PyNone PyNone
           connected (mkClientState true true [("https://dav/home/", home)])
           0 1 2 home [Invoked] (TimeoutError "timed out")).
  - reflexivity.
  - discriminate.
  - reflexivity.
  - reflexivity.
Defined.

(** The record [_create_vtodo] builds for a priority that [int()]
    accepts holds that priority as an integer. *)
Lemma create_vtodo_holds_integer
      (fromisoformat : string -> option datetime) (local_offset : Z)
      (fresh_uuid : string) (now : Z) (summary uid : string)
      (parent_uid description : option string) (due priority : pyval)
      (z : Z) :
  ((summary =? "") || (strip summary =? ""))%bool = false ->
  priority <> PyNone -> int priority = Some z ->
  exists vtodo,
    _create_vtodo fromisoformat local_offset fresh_uuid now summary uid
                  parent_uid description due priority = Returned vtodo
    /\ existsb isinstance_int (values_of "PRIORITY" vtodo) = true.
Proof.
  intros Hs Hp Hz. unfold _create_vtodo. rewrite Hs.
  assert (E : match priority with
              | PyNone => None
              | _ => option_map clamp_priority (int priority)
              end = Some (clamp_priority z)).
  { destruct priority; try congruence; now rewrite Hz. }
  rewrite E. eexists. split; [reflexivity|].
  rewrite values_of_add_same, existsb_app. cbn. apply orb_true_r.
Qed.

(** With a serializer that raises on a record whose PRIORITY is an
    integer, as vobject's does, [create_task] never creates a task that
    has a priority: for every priority [int()] accepts, whatever the other
    arguments and whatever the server answers, the call raises, once and
    without a retry, and [calendar.add_todo] is not called (the outcome,
    the state left and the trace are the same for every [add_todo]).  When
    the summary is not blank and the calendar is found, the exception is
    the one of the serializer, wrapped twice: 'Task creation failed:
    Failed to create VTODO: ...'. *)
Theorem create_task_with_priority_always_raises
        {W T : Type}
        (principal_calendars : W -> outcome pyexc (list calendar) * W)
        (todo_by_uid : calendar -> string -> W -> outcome pyexc T * W)
        (serialize : component -> outcome pyexc string)
        (add_todo : calendar -> string -> W -> outcome pyexc unit * W)
        (fromisoformat : string -> option datetime) (local_offset : Z)
        (fresh_uuid : string) (now : Z)
        (summary calendar_url : string)
        (parent_uid description : option string) (due priority : pyval)
        (z : Z) (st : client * W) :
  (forall vtodo,
      existsb isinstance_int (values_of "PRIORITY" vtodo) = true ->
      exists e, serialize vtodo = Raised e) ->
  priority <> PyNone -> int priority = Some z ->
  exists msg st',
    create_task principal_calendars todo_by_uid serialize add_todo
                fromisoformat local_offset fresh_uuid now summary
                calendar_url parent_uid description due priority st
    = (Raised (Reraised (OtherException msg)), st', [Invoked])
    /\ (forall other_add_todo,
          create_task principal_calendars todo_by_uid serialize
                      other_add_todo fromisoformat local_offset fresh_uuid
                      now summary calendar_url parent_uid description due
                      priority st
          = (Raised (Reraised (OtherException msg)), st', [Invoked]))
    /\ (forall cal st1 tr,
          ((summary =? "") || (strip summary =? ""))%bool = false ->
          get_calendar_by_url principal_calendars calendar_url st
          = (Returned cal, st1, tr) ->
          exists e vtodo,
            serialize vtodo = Raised e
            /\ msg = ("Task creation failed: Failed to create VTODO: "
                      ++ str_exc e)%string).
Proof.
  intros Hser Hp Hz.
  assert (Hbody : exists x st',
             (forall a : calendar -> string -> W -> outcome pyexc unit * W,
                 create_task_body principal_calendars todo_by_uid serialize
                   a fromisoformat local_offset fresh_uuid now summary
                   calendar_url parent_uid description due priority st
                 = (Raised x, st'))
             /\ (forall cal st1 tr,
                   ((summary =? "") || (strip summary =? ""))%bool = false ->
                   get_calendar_by_url principal_calendars calendar_url st
                   = (Returned cal, st1, tr) ->
                   exists e vtodo,
                     serialize vtodo = Raised e
                     /\ x = RaiseCalDAVError Base
                              ("Task creation failed: "
                               ++ "Failed to create VTODO: " ++ str_exc e))).
  { unfold create_task_body.
    destruct ((summary =? "") || (strip summary =? ""))%bool eqn:Hs.
    { do 2 eexists. split; [intros a; reflexivity|]. discriminate. }
    destruct (get_calendar_by_url principal_calendars calendar_url st)
      as [[[cal|e] [c1 w1]] tr] eqn:Hcal.
    2:{ do 2 eexists. split; [intros a; reflexivity|]. discriminate. }
    set (looked :=
           match parent_uid with
           | Some p =>
               if p =? "" then (parent_uid, w1)
               else
                 match _find_task_by_uid todo_by_uid p cal w1 with
                 | (Some _, w) => (parent_uid, w)
                 | (None, w) => (None, w)
                 end
           | None => (parent_uid, w1)
           end).
    destruct looked as [parent' w2].
    destruct (create_vtodo_holds_integer fromisoformat local_offset
                fresh_uuid now summary fresh_uuid parent' description due
                priority z Hs Hp Hz) as (vtodo & Hv & Hi).
    destruct (Hser vtodo Hi) as [e He].
    rewrite Hv, He. do 2 eexists. split; [intros a; reflexivity|].
    intros cal0 st1 tr0 _ _. exists e, vtodo. split; [exact He | reflexivity]. }
  destruct Hbody as (x & st' & Hb & Hmsg).
  exists (match x with
          | RaiseCalDAVError _ msg => msg
          | RaiseValueError msg => msg
          end), st'.
  assert (Hrun : forall a : calendar -> string -> W -> outcome pyexc unit * W,
             create_task principal_calendars todo_by_uid serialize a
                         fromisoformat local_offset fresh_uuid now summary
                         calendar_url parent_uid description due priority st
             = (Raised (Reraised (OtherException
                                    match x with
                                    | RaiseCalDAVError _ msg => msg
                                    | RaiseValueError msg => msg
                                    end)), st', [Invoked])).
  { intros a. unfold create_task. rewrite decorated_once, (Hb a).
    cbn [fst snd reraised]. now destruct x. }
  split; [apply Hrun|]. split; [exact Hrun|].
  intros cal st1 tr Hs Hcal.
  destruct (Hmsg cal st1 tr Hs Hcal) as (e & vtodo & He & ->).
  exists e, vtodo. split; [exact He | reflexivity].
Qed.

Lemma serialize_texts_refuses_integers vtodo :
  existsb isinstance_int (values_of "PRIORITY" vtodo) = true ->
  exists e, serialize_texts vtodo = Raised e.
Proof.
  intros H. unfold serialize_texts.
  assert (Hi : has_integer vtodo = true).
  { unfold has_integer. apply existsb_exists in H.
    destruct H as (v & Hin & Hv). unfold values_of in Hin.
    apply in_map_iff in Hin. destruct Hin as (l & <- & Hl).
    apply filter_In in Hl. apply existsb_exists. exists l.
    split; [apply Hl | exact Hv]. }
  rewrite Hi. eexists. reflexivity.
Defined.

Lemma create_task_with_priority_always_raises_witness :
  exists msg st',
    create_task one_calendar lookup_times_out serialize_texts add_succeeds
                no_iso 0 "new-uid" 50 "Buy milk" "https://dav/home/"
                None None PyNone (PyInt 5) (connected, 0)
    = (Raised (Reraised (OtherException msg)), st', [Invoked])
    /\ (forall other_add_todo,
          create_task one_calendar lookup_times_out serialize_texts
                      other_add_todo no_iso 0 "new-uid" 50 "Buy milk"
                      "https://dav/home/" None None PyNone (PyInt 5)
                      (connected, 0)
          = (Raised (Reraised (OtherException msg)), st', [Invoked]))
    /\ (forall cal st1 tr,
          (("Buy milk" =? "") || (strip "Buy milk" =? ""))%bool = false ->
          get_calendar_by_url one_calendar "https://dav/home/"
                              (connected, 0)
          = (Returned cal, st1, tr) ->
          exists e vtodo,
            serialize_texts vtodo = Raised e
            /\ msg = ("Task creation failed: Failed to create VTODO: "
                      ++ str_exc e)%string).
Proof.
  apply (create_task_with_priority_always_raises one_calendar
           lookup_times_out serialize_texts add_succeeds no_iso 0 "new-uid"
           50 "Buy milk" "https://dav/home/" None None PyNone (PyInt 5) 5
           (connected, 0)).
  - exact serialize_texts_refuses_integers.
  - discriminate.
  - reflexivity.
Defined.

End ClientFacts.

Module DeleteRouteFacts.
Import Py Models App DeleteRoute SessionFacts.
Local Open Scope nat_scope.
Local Open Scope string_scope.
Local Open Scope list_scope.



Definition local_task : Task :=
  mkTask "task-1" "Buy milk" false None "cal" PyNone (Some 10%Z)
         (Some 10%Z) PyNone None None None None None true None None 0.

Definition one_row : session :=
  mkSession (mkTables [local_task] []) (mkTables [local_task] []).





(** The ways the route does not reach the server: there is no client, or
    [client.delete_task] raises. *)
Inductive not_deleted {R : Type} (uid calendar_url : string) (r : R)
  : option (caldav_client R) -> R -> option SyncLog -> Prop :=
| nd_offline : not_deleted uid calendar_url r None r None
| nd_raised c e r' :
    cl_delete_task c r uid calendar_url = (Raised e, r') ->
    not_deleted uid calendar_url r (Some c) r'
      (Some (mkSyncLog calendar_url "delete" (Some uid) "error" (Some e))).

(** Without a client, or when [client.delete_task] raises, the row is
    kept and committed as unsynced with pending operation 'delete' and
    [sync_attempts] 0, the answer is 200 with [is_synced] false, and the
    failure of a client is logged as 'delete'/'error' with its message. *)
Theorem delete_route_marks_row_when_not_deleted
        {R : Type} (client : option (caldav_client R)) (now : Z)
        (calendar_url uid : string) (r r' : R) (s : session)
        (task : Task) (log : option SyncLog) :
  find_task uid calendar_url s = Some task ->
  not_deleted uid calendar_url r client r' log ->
  exists s',
    delete_task client now calendar_url uid r s
    = (mkDeleteResponse 200 (TaskDeleted false), s', r')
    /\ find_task uid calendar_url s'
       = Some (mark_for_sync "delete" now task)
    /\ is_synced (mark_for_sync "delete" now task) = false
    /\ operation (mark_for_sync "delete" now task) = Some "delete"
    /\ sync_attempts (mark_for_sync "delete" now task) = 0%Z
    /\ committed s' = working s'
    /\ sync_logs (working s')
       = sync_logs (working s)
         ++ match log with Some l => [l] | None => [] end.
Proof.
  intros Hf Hn.
  assert (Hrow : same_row uid calendar_url task = true).
  { unfold find_task in Hf. now apply find_some in Hf. }
  pose proof (find_task_stored uid calendar_url s task
                (mark_for_sync "delete" now task) Hf Hrow) as Hst.
  destruct Hn as [|c e r' Hd]; unfold delete_task; rewrite Hf.
  - eexists. split; [reflexivity|]. repeat split.
    + exact Hst.
    + cbn. now rewrite app_nil_r.
  - rewrite Hd. cbn [handle_caldav_error].
    eexists. split; [reflexivity|]. repeat split. exact Hst.
Qed.

Lemma delete_route_marks_row_when_not_deleted_witness :
  exists s',
    delete_task (R := nat) None 20 "cal" "task-1" 0 one_row
    = (mkDeleteResponse 200 (TaskDeleted false), s', 0)
    /\ find_task "task-1" "cal" s'
       = Some (mark_for_sync "delete" 20 local_task)
    /\ is_synced (mark_for_sync "delete" 20 local_task) = false
    /\ operation (mark_for_sync "delete" 20 local_task) = Some "delete"
    /\ sync_attempts (mark_for_sync "delete" 20 local_task) = 0%Z
    /\ committed s' = working s'
    /\ sync_logs (working s')
       = sync_logs (working one_row)
         ++ match @None SyncLog with Some l => [l] | None => [] end.
Proof.
  apply (delete_route_marks_row_when_not_deleted (R := nat) None 20 "cal"
           "task-1" 0 0 one_row local_task None).
  - reflexivity.
  - apply nd_offline.
Defined.

End DeleteRouteFacts.

Module DecodeFacts.
Import Py VObject Codec Models Pull.
Local Open Scope nat_scope.
Local Open Scope string_scope.
Local Open Scope list_scope.

Lemma convert_date_utc local_offset v d :
  convert_date local_offset v = PyDatetime d -> dt_tzinfo d = Some 0%Z.
Proof.
  destruct v; cbn; try discriminate.
  intros H. inversion H; subst. unfold astimezone_utc.
  now destruct (dt_tzinfo d0).
Qed.

Lemma parse_priority_range raw p :
  parse_priority raw = Some p -> (1 <= p <= 9)%Z.
Proof.
  unfold parse_priority. intros H.
  destruct raw; try discriminate;
    (destruct (int _) as [k|] eqn:E; [|discriminate]);
    inversion H; unfold clamp_priority; lia.
Qed.

Lemma validate_priority_in_range p :
  (1 <= p <= 9)%Z -> validate_priority (PyInt p) = Returned (Some p).
Proof.
  intros Hp. unfold validate_priority, int, int_result.
  assert (E : ((1 <=? p) && (p <=? 9))%Z%bool = true).
  { apply andb_true_iff. split; apply Z.leb_le; lia. }
  now rewrite E.
Qed.

Lemma decoded_priority_accepted
      parse_date_time local_offset fresh_uuid d t :
  _parse_vtodo_safely parse_date_time local_offset fresh_uuid d = Some t ->
  validate_priority (match td_priority t with
                     | Some p => PyInt p
                     | None => PyNone
                     end) = Returned (td_priority t).
Proof.
  unfold _parse_vtodo_safely.
  destruct d as [cs|]; [|discriminate].
  destruct (readOne parse_date_time (Some cs)); [|discriminate].
  destruct (find (fun c => comp_name c =? "VTODO") cs) as [rc|];
    [|discriminate].
  destruct (read_lines parse_date_time (comp_lines rc)) as [vtodo|];
    [|discriminate].
  intros H. inversion H; subst t; clear H. cbn [td_priority].
  destruct (parse_priority (safe_get_value "PRIORITY" vtodo)) as [p|] eqn:E;
    [|reflexivity].
  apply validate_priority_in_range. eapply parse_priority_range. exact E.
Qed.

(** What every decoded record satisfies, whatever the server sent: its
    date-times ([due], [created], [completed_at]) are aware and in UTC,
    its parent reference is never the empty string, its priority is absent
    or within 1..9, and the model's priority validator accepts it
    unchanged. *)
Theorem decoded_record_invariants
        (parse_date_time : string -> option pyval) (local_offset : Z)
        (fresh_uuid : string) (d : todo_data) (t : task_data) :
  _parse_vtodo_safely parse_date_time local_offset fresh_uuid d = Some t ->
  (forall v dt,
      In v [td_due t; td_created t; td_completed_at t] ->
      v = PyDatetime dt -> dt_tzinfo dt = Some 0%Z)
  /\ td_parent_uid t <> Some ""
  /\ (forall p, td_priority t = Some p -> (1 <= p <= 9)%Z)
  /\ validate_priority (match td_priority t with
                        | Some p => PyInt p
                        | None => PyNone
                        end)
     = Returned (td_priority t).
Proof.
  unfold _parse_vtodo_safely.
  destruct d as [cs|]; [|discriminate].
  destruct (readOne parse_date_time (Some cs)); [|discriminate].
  destruct (find (fun c => comp_name c =? "VTODO") cs) as [rc|];
    [|discriminate].
  destruct (read_lines parse_date_time (comp_lines rc)) as [vtodo|];
    [|discriminate].
  intros H. inversion H; subst t; clear H.
  cbn [td_due td_created td_completed_at td_parent_uid td_priority].
  split; [|split; [|split]].
  - intros v dt [<-|[<-|[<-|[]]]] Hv;
      eapply convert_date_utc; exact Hv.
  - destruct (safe_get_text "RELATED-TO" (comp_lines rc)) as [r|];
      [|discriminate].
    destruct (String.eqb_spec r ""); [discriminate | congruence].
  - intros p. apply parse_priority_range.
  - destruct (parse_priority (safe_get_value "PRIORITY" vtodo)) as [p|] eqn:E;
      [|reflexivity].
    apply validate_priority_in_range. eapply parse_priority_range. exact E.
Qed.

(** A record with a local due time, a priority out of range and an empty
    parent reference. *)
Definition odd_record : todo_data :=
  Some [mkComp "VTODO"
          [mkRaw "UID" "task-1"; mkRaw "SUMMARY" "Water plants";
           mkRaw "DUE" "20240101T120000"; mkRaw "PRIORITY" "42";
           mkRaw "RELATED-TO" ""]].

(** A parser that reads every date as one naive reading. *)
Definition naive_parser (s : string) : option pyval :=
  Some (PyDatetime (mkDatetime 1000 None)).

Lemma decoded_record_invariants_witness :
  exists t,
    _parse_vtodo_safely naive_parser 3600 "fresh" odd_record = Some t
    /\ td_due t = PyDatetime (mkDatetime (-2600) (Some 0%Z))
    /\ td_priority t = Some 9%Z
    /\ (forall v dt,
           In v [td_due t; td_created t; td_completed_at t] ->
           v = PyDatetime dt -> dt_tzinfo dt = Some 0%Z)
    /\ td_parent_uid t <> Some ""
    /\ (forall p, td_priority t = Some p -> (1 <= p <= 9)%Z)
    /\ validate_priority (match td_priority t with
                          | Some p => PyInt p
                          | None => PyNone
                          end)
       = Returned (td_priority t).
Proof.
  eexists. split; [reflexivity|]. split; [reflexivity|].
  split; [reflexivity|].
  apply (decoded_record_invariants naive_parser 3600 "fresh" odd_record _
           eq_refl).
Defined.

Definition row_of (now : Z) (t : task_data) (db_task row : Task) : Prop :=
  is_synced row = true /\ operation row = None
  /\ sync_attempts row = 0%Z /\ last_sync row = Some now
  /\ completed row = td_completed t
  /\ parent_uid row = td_parent_uid t
  /\ description row = td_description t
  /\ due row = td_due t
  /\ priority row = td_priority t
  /\ (td_completed t = false -> completed_at row = PyNone)
  /\ uid row = uid db_task /\ summary row = summary db_task
  /\ calendar_url row = calendar_url db_task.

Lemma assign_fields_accepts now t db_task :
  validate_priority (match td_priority t with
                     | Some p => PyInt p
                     | None => PyNone
                     end) = Returned (td_priority t) ->
  exists row,
    assign_fields now t db_task = Returned row /\ row_of now t db_task row.
Proof.
  intros Hv. unfold assign_fields. rewrite Hv.
  eexists. split; [reflexivity|]. unfold row_of.
  destruct (td_completed t); destruct (truthy (td_completed_at t));
    cbn; repeat split; congruence.
Qed.

(** No decoded record makes the field assignments of the pull raise: the
    row comes back marked as synced with no pending operation, with the
    record's completion flag, parent, description, due date and priority,
    and without a completion time when the record is not completed. *)
Theorem pull_assigns_every_decoded_record
        (parse_date_time : string -> option pyval) (local_offset : Z)
        (fresh_uuid : string) (now : Z) (d : todo_data) (t : task_data)
        (db_task : Task) :
  _parse_vtodo_safely parse_date_time local_offset fresh_uuid d = Some t ->
  exists row,
    assign_fields now t db_task = Returned row
    /\ is_synced row = true /\ operation row = None
    /\ sync_attempts row = 0%Z /\ last_sync row = Some now
    /\ completed row = td_completed t
    /\ parent_uid row = td_parent_uid t
    /\ description row = td_description t
    /\ due row = td_due t
    /\ priority row = td_priority t
    /\ (td_completed t = false -> completed_at row = PyNone)
    /\ uid row = uid db_task /\ summary row = summary db_task
    /\ calendar_url row = calendar_url db_task.
Proof.
  intros H.
  destruct (assign_fields_accepts now t db_task
              (decoded_priority_accepted _ _ _ _ _ H)) as (row & Hr & Hp).
  exists row. split; [exact Hr|]. exact Hp.
Qed.

Lemma pull_assigns_every_decoded_record_witness :
  exists row,
    assign_fields 77
      {| td_uid := "task-1"; td_summary := "Water plants";
         td_description := None;
         td_due := PyDatetime (mkDatetime (-2600) (Some 0%Z));
         td_created := PyNone; td_completed_at := PyNone;
         td_priority := Some 9%Z; td_percent_complete := PyInt 0;
         td_completed := false; td_parent_uid := None |}
      (new_task "task-1" "cal" 5) = Returned row
    /\ is_synced row = true /\ operation row = None
    /\ sync_attempts row = 0%Z /\ last_sync row = Some 77%Z
    /\ completed row = false
    /\ parent_uid row = None
    /\ description row = None
    /\ due row = PyDatetime (mkDatetime (-2600) (Some 0%Z))
    /\ priority row = Some 9%Z
    /\ (false = false -> completed_at row = PyNone)
    /\ uid row = "task-1" /\ summary row = ""
    /\ calendar_url row = "cal".
Proof.
  exact (pull_assigns_every_decoded_record naive_parser 3600 "fresh" 77
           odd_record _ (new_task "task-1" "cal" 5) eq_refl).
Defined.

End DecodeFacts.

Module EncodeMore.
Import Py VObject Codec VObjectFacts EncodeFacts.
Local Open Scope nat_scope.
Local Open Scope string_scope.
Local Open Scope list_scope.

(** The type a property must have for [serialize()]: a date or date-time
    under the date-time names, a string under every other name. *)
Definition well_typed (l : content_line) : bool :=
  if mem_name (name l) datetime_properties then has_year (value l)
  else isinstance_str (value l).

Lemma integer_not_datetime n :
  mem_name n integer_properties = true ->
  mem_name n datetime_properties = false.
Proof.
  unfold mem_name, integer_properties. cbn [existsb].
  rewrite !orb_true_iff.
  intros [H|[H|[H|H]]]; try discriminate;
    apply String.eqb_eq in H; subst n; reflexivity.
Qed.

Lemma safe_get_value_hd n c : safe_get_value n c = hd PyNone (values_of n c).
Proof.
  unfold safe_get_value, first, values_of.
  induction c as [|l r IH]; [reflexivity|].
  cbn [find filter]. destruct (named n l); [reflexivity | exact IH].
Qed.

Lemma int_of_str_of_digit k :
  (1 <= k <= 9)%Z -> int_of_str (str_of_int k) = Some k.
Proof.
  intros H.
  assert (C : (k = 1 \/ k = 2 \/ k = 3 \/ k = 4 \/ k = 5 \/ k = 6
               \/ k = 7 \/ k = 8 \/ k = 9)%Z) by lia.
  repeat (destruct C as [->|C]; [reflexivity|]). now subst k.
Qed.

Lemma parse_priority_str_of_clamped z :
  parse_priority (PyStr (str_of_int (clamp_priority z)))
  = Some (clamp_priority z).
Proof.
  unfold parse_priority, int, int_result.
  rewrite int_of_str_of_digit by (unfold clamp_priority; lia).
  f_equal. unfold clamp_priority. lia.
Qed.

Section Encode.
Variable fromisoformat : string -> option datetime.
Variable local_offset : Z.
Variable str_other : pyval -> string.

Lemma fix_of_keep_iff l :
  fix_of str_other l = Keep <-> well_typed l = true.
Proof.
  unfold fix_of, well_typed.
  destruct (mem_name (name l) integer_properties) eqn:Ei.
  - rewrite (integer_not_datetime _ Ei).
    destruct (value l); cbn; split; intros H; try discriminate;
      try reflexivity.
  - destruct (mem_name (name l) datetime_properties);
      destruct (value l); cbn; split; intros H; try discriminate;
      reflexivity.
Qed.

Lemma fix_of_update_str l v :
  fix_of str_other l = Update v ->
  isinstance_str v = true
  /\ mem_name (name l) datetime_properties = false.
Proof.
  unfold fix_of.
  destruct (mem_name (name l) integer_properties) eqn:Ei.
  - rewrite (integer_not_datetime _ Ei).
    destruct (value l); cbn; intros H; inversion H; auto.
  - destruct (mem_name (name l) datetime_properties);
      destruct (value l); cbn; intros H; inversion H; auto.
Qed.

Lemma apply_fix_well_typed l l' :
  In l' (apply_fix str_other l) -> well_typed l' = true.
Proof.
  unfold apply_fix.
  destruct (fix_of str_other l) eqn:E; cbn [In]; intros H;
    try contradiction; destruct H as [<-|[]].
  - now apply fix_of_keep_iff.
  - destruct (fix_of_update_str _ _ E) as [Hs Hd].
    unfold well_typed. cbn [name value]. now rewrite Hd.
Qed.

Lemma is_fix_not_well_typed l :
  is_fix str_other l = negb (well_typed l).
Proof.
  unfold is_fix.
  destruct (well_typed l) eqn:E.
  - apply fix_of_keep_iff in E. now rewrite E.
  - destruct (fix_of str_other l) eqn:F; try reflexivity.
    apply fix_of_keep_iff in F. congruence.
Qed.

Lemma validate_well_typed_unchanged c :
  forallb well_typed c = true ->
  _validate_and_fix_vtodo_properties str_other c = (c, false).
Proof.
  unfold _validate_and_fix_vtodo_properties. intros H.
  f_equal.
  - induction c as [|l r IH]; [reflexivity|].
    cbn [forallb flat_map] in *.
    apply andb_true_iff in H. destruct H as [Hl Hr].
    rewrite (IH Hr). unfold apply_fix.
    apply fix_of_keep_iff in Hl. now rewrite Hl.
  - induction c as [|l r IH]; [reflexivity|].
    cbn [forallb existsb] in *.
    apply andb_true_iff in H. destruct H as [Hl Hr].
    now rewrite (IH Hr), is_fix_not_well_typed, Hl.
Qed.

Lemma validate_output_well_typed c :
  forallb well_typed (fst (_validate_and_fix_vtodo_properties str_other c))
  = true.
Proof.
  apply forallb_forall. intros l' Hin. cbn in Hin.
  apply in_flat_map in Hin. destruct Hin as (l & _ & Hl).
  eapply apply_fix_well_typed. exact Hl.
Qed.

(** *** The blocks of [update_task], one name at a time *)

Lemma summary_other n s st :
  n <> "SUMMARY" ->
  values_of n (fst (update_summary s st)) = values_of n (fst st).
Proof.
  intros H. unfold update_summary. destruct s; [|reflexivity].
  cbn [fst]. apply values_of_set_or_add_other. congruence.
Qed.

Lemma description_other n d st :
  n <> "DESCRIPTION" ->
  values_of n (fst (update_description d st)) = values_of n (fst st).
Proof.
  intros H. unfold update_description. destruct d as [d|]; [|reflexivity].
  cbn [fst]. destruct (has "DESCRIPTION" (fst st)); destruct (negb _);
    try rewrite values_of_set_value_other by congruence;
    try rewrite values_of_remove_first_other by congruence;
    try rewrite values_of_add_other by congruence; reflexivity.
Qed.

Lemma parent_uid_other n p st :
  n <> "RELATED-TO" ->
  values_of n (fst (update_parent_uid p st)) = values_of n (fst st).
Proof.
  intros H. unfold update_parent_uid. destruct p as [p|]; [|reflexivity].
  cbn [fst]. destruct (p =? "");
    try rewrite values_of_add_other by congruence;
    destruct (has "RELATED-TO" (fst st));
    try rewrite values_of_remove_first_other by congruence; reflexivity.
Qed.

Lemma due_other n due st :
  n <> "DUE" ->
  values_of n (fst (update_due fromisoformat local_offset due st)) = values_of n (fst st).
Proof.
  intros H. unfold update_due.
  destruct (_normalize_date_value fromisoformat local_offset due);
    [|reflexivity].
  cbn [fst]. apply values_of_set_or_add_other. congruence.
Qed.

Lemma priority_other n p st :
  n <> "PRIORITY" ->
  values_of n (fst (update_priority p st)) = values_of n (fst st).
Proof.
  intros H. unfold update_priority.
  destruct p; try reflexivity; cbn [fst];
    apply values_of_set_priority_safely; congruence.
Qed.

Lemma completed_other n now c st :
  n <> "STATUS" -> n <> "COMPLETED" -> n <> "PERCENT-COMPLETE" ->
  values_of n (fst (update_completed now c st)) = values_of n (fst st).
Proof.
  intros H1 H2 H3. unfold update_completed.
  destruct c as [[|]|]; [| |reflexivity]; cbn [fst].
  - rewrite values_of_add_other, values_of_remove_all_other,
      !values_of_set_or_add_other by congruence. reflexivity.
  - rewrite values_of_add_other, values_of_remove_all_other by congruence.
    destruct (has "COMPLETED" _);
      try rewrite values_of_remove_first_other by congruence;
      rewrite values_of_set_or_add_other by congruence; reflexivity.
Qed.

Lemma finish_other n now st :
  n <> "LAST-MODIFIED" ->
  values_of n (fst (update_finish str_other now st))
  = if snd st then flat_map (fix_value str_other n) (values_of n (fst st))
    else values_of n (fst st).
Proof.
  intros H. unfold update_finish. destruct (snd st); [|reflexivity].
  cbn [fst]. rewrite (values_of_validate str_other n).
  rewrite values_of_set_or_add_other by congruence. reflexivity.
Qed.

(** [changed] is never reset. *)
Lemma changed_summary s st :
  snd (update_summary s st) = (match s with Some _ => true | None => snd st end).
Proof. now destruct s. Qed.
Lemma changed_description d st :
  snd st = true -> snd (update_description d st) = true.
Proof. now destruct d. Qed.
Lemma changed_parent_uid p st :
  snd st = true -> snd (update_parent_uid p st) = true.
Proof. now destruct p. Qed.
Lemma changed_due d st : snd st = true -> snd (update_due fromisoformat local_offset d st) = true.
Proof. unfold update_due. now destruct (_normalize_date_value _ _ d). Qed.
Lemma changed_priority p st :
  snd st = true -> snd (update_priority p st) = true.
Proof. now destruct p. Qed.
Lemma changed_completed now c st :
  snd st = true -> snd (update_completed now c st) = true.
Proof. now destruct c. Qed.

Lemma set_priority_same c p z :
  p <> PyNone -> int p = Some z ->
  values_of "PRIORITY" (_set_priority_safely c p)
  = tl (values_of "PRIORITY" c) ++ [PyStr (str_of_int (clamp_priority z))].
Proof.
  intros Hp Hz. unfold _set_priority_safely.
  destruct p; try congruence; rewrite Hz, values_of_add_same, has_values_of;
    (destruct (values_of "PRIORITY" c) eqn:E;
     [now rewrite E | now rewrite values_of_remove_first_same, E]).
Qed.

End Encode.

(** The validation pass brings every record to a normal form: afterwards
    every property holds a value of the type [serialize()] needs (a date or
    date-time under a date-time name, a string elsewhere; none is [None]);
    the pass reports a fix exactly when the record was not in that form; a
    record in that form is returned as it is; and a second pass changes
    nothing and reports no fix. *)
Theorem validate_and_fix_normal_form
        (str_other : pyval -> string) (vtodo : component) :
  let fixed := _validate_and_fix_vtodo_properties str_other vtodo in
  forallb well_typed (fst fixed) = true
  /\ (forall l, In l (fst fixed) -> value l <> PyNone)
  /\ snd fixed = negb (forallb well_typed vtodo)
  /\ (snd fixed = false -> fst fixed = vtodo)
  /\ _validate_and_fix_vtodo_properties str_other (fst fixed)
     = (fst fixed, false).
Proof.
  cbv zeta. split; [apply validate_output_well_typed|].
  split; [|split; [|split]].
  - intros l Hin Hv.
    pose proof (validate_output_well_typed str_other vtodo) as Hw.
    rewrite forallb_forall in Hw. specialize (Hw l Hin).
    unfold well_typed in Hw. rewrite Hv in Hw.
    now destruct (mem_name (name l) datetime_properties).
  - cbn [_validate_and_fix_vtodo_properties snd].
    induction vtodo as [|l r IH]; [reflexivity|].
    cbn [existsb forallb]. rewrite IH, is_fix_not_well_typed.
    now destruct (well_typed l).
  - intros Hs.
    assert (Hw : forallb well_typed vtodo = true).
    { revert Hs. cbn [_validate_and_fix_vtodo_properties snd].
      induction vtodo as [|l r IH]; [reflexivity|].
      cbn [existsb forallb]. rewrite is_fix_not_well_typed.
      destruct (well_typed l); cbn; [exact IH | discriminate]. }
    now rewrite (validate_well_typed_unchanged str_other vtodo Hw).
  - apply validate_well_typed_unchanged, validate_output_well_typed.
Qed.

(** What a later read of the record finds after [update_task] has edited
    it: the stripped summary; the stripped description when it is not
    blank; the status that goes with [completed]; the priority clamped to
    1..9, as the only PRIORITY and as [_parse_vtodo_safely] reads it back,
    and the new parent as the only RELATED-TO (none for the empty string),
    when the record held at most one such property before. *)
Theorem update_task_round_trip
        (fromisoformat : string -> option datetime) (local_offset : Z)
        (str_other : pyval -> string) (now : Z) (vtodo : component)
        (summary description parent_uid : option string)
        (due priority : pyval) (completed : option bool) :
  let edited :=
    fst (update_vtodo fromisoformat local_offset str_other now vtodo
                      summary description parent_uid due priority
                      completed) in
  (forall s, summary = Some s ->
             safe_get_value "SUMMARY" edited = PyStr (strip s))
  /\ (forall d, description = Some d ->
                ((d =? "") || (strip d =? ""))%bool = false ->
                safe_get_value "DESCRIPTION" edited = PyStr (strip d))
  /\ (forall b, completed = Some b ->
                safe_get_value "STATUS" edited
                = PyStr (if b then "COMPLETED" else "NEEDS-ACTION"))
  /\ (forall z, priority <> PyNone -> int priority = Some z ->
                length (values_of "PRIORITY" vtodo) <= 1 ->
                values_of "PRIORITY" edited
                = [PyStr (str_of_int (clamp_priority z))]
                /\ parse_priority (safe_get_value "PRIORITY" edited)
                   = Some (clamp_priority z))
  /\ (forall p, parent_uid = Some p ->
                length (values_of "RELATED-TO" vtodo) <= 1 ->
                values_of "RELATED-TO" edited
                = if p =? "" then [] else [PyStr p]).
Proof.
  cbv zeta. unfold update_vtodo.
  set (st0 := (vtodo, false)).
  set (st1 := update_summary summary st0).
  set (st2 := update_description description st1).
  set (st3 := update_parent_uid parent_uid st2).
  set (st4 := update_due fromisoformat local_offset due st3).
  set (st5 := update_priority priority st4).
  set (st6 := update_completed now completed st5).
  split; [|split; [|split; [|split]]].
  - intros s ->.
    assert (Hc : snd st6 = true).
    { apply changed_completed, changed_priority, changed_due,
        changed_parent_uid, changed_description. reflexivity. }
    rewrite safe_get_value_hd, finish_other, Hc by discriminate.
    unfold st6. rewrite completed_other by discriminate.
    unfold st5. rewrite priority_other by discriminate.
    unfold st4. rewrite due_other by discriminate.
    unfold st3. rewrite parent_uid_other by discriminate.
    unfold st2. rewrite description_other by discriminate.
    unfold st1, update_summary. cbn [fst].
    rewrite values_of_set_or_add_same.
    now destruct (values_of "SUMMARY" (fst st0)).
  - intros d -> Hd.
    assert (Hc : snd st6 = true).
    { apply changed_completed, changed_priority, changed_due,
        changed_parent_uid. reflexivity. }
    rewrite safe_get_value_hd, finish_other, Hc by discriminate.
    unfold st6. rewrite completed_other by discriminate.
    unfold st5. rewrite priority_other by discriminate.
    unfold st4. rewrite due_other by discriminate.
    unfold st3. rewrite parent_uid_other by discriminate.
    unfold st2, update_description. cbn [fst].
    apply orb_false_iff in Hd. destruct Hd as [Hd1 Hd2].
    rewrite Hd1, Hd2. cbn [negb].
    rewrite has_values_of.
    destruct (values_of "DESCRIPTION" (fst st1)) eqn:E.
    + now rewrite values_of_add_same, E.
    + now rewrite values_of_set_value_same, E.
  - intros b ->.
    rewrite safe_get_value_hd, finish_other by discriminate.
    assert (Hc : snd st6 = true) by reflexivity. rewrite Hc.
    unfold st6, update_completed. cbn [fst].
    destruct b.
    + rewrite values_of_add_other, values_of_remove_all_other,
        values_of_set_or_add_other, values_of_set_or_add_same
        by discriminate.
      now destruct (values_of "STATUS" (fst st5)).
    + rewrite values_of_add_other, values_of_remove_all_other by discriminate.
      assert (Hx : forall x,
                 values_of "STATUS"
                   (if has "COMPLETED" x then remove_first "COMPLETED" x
                    else x) = values_of "STATUS" x).
      { intros x. destruct (has "COMPLETED" x); [|reflexivity].
        apply values_of_remove_first_other. discriminate. }
      rewrite Hx, values_of_set_or_add_same.
      now destruct (values_of "STATUS" (fst st5)).
  - intros z Hp Hz Hlen.
    assert (Hc : snd st6 = true).
    { apply changed_completed. unfold st5, update_priority.
      destruct priority; try congruence; reflexivity. }
    assert (Hv : values_of "PRIORITY"
                   (fst (update_finish str_other now st6))
                 = [PyStr (str_of_int (clamp_priority z))]).
    { rewrite finish_other, Hc by discriminate.
      unfold st6. rewrite completed_other by discriminate.
      assert (H5 : values_of "PRIORITY" (fst st5)
                   = tl (values_of "PRIORITY" (fst st4))
                     ++ [PyStr (str_of_int (clamp_priority z))]).
      { unfold st5, update_priority.
        destruct priority; try congruence; cbn [fst];
          apply set_priority_same; assumption. }
      rewrite H5.
      unfold st4. rewrite due_other by discriminate.
      unfold st3. rewrite parent_uid_other by discriminate.
      unfold st2. rewrite description_other by discriminate.
      unfold st1. rewrite summary_other by discriminate.
      cbn [st0 fst].
      destruct (values_of "PRIORITY" vtodo) as [|x [|y r]];
        cbn [length tl app] in *; try lia; reflexivity. }
    split; [exact Hv|].
    rewrite safe_get_value_hd, Hv. cbn [hd].
    apply parse_priority_str_of_clamped.
  - intros p -> Hlen.
    assert (Hc : snd st6 = true).
    { apply changed_completed, changed_priority, changed_due. reflexivity. }
    rewrite finish_other, Hc by discriminate.
    unfold st6. rewrite completed_other by discriminate.
    unfold st5. rewrite priority_other by discriminate.
    unfold st4. rewrite due_other by discriminate.
    unfold st3, update_parent_uid. cbn [fst].
    assert (H2 : values_of "RELATED-TO" (fst st2)
                 = values_of "RELATED-TO" vtodo).
    { unfold st2. rewrite description_other by discriminate.
      unfold st1. rewrite summary_other by discriminate. reflexivity. }
    assert (Hr : values_of "RELATED-TO"
                   (if has "RELATED-TO" (fst st2)
                    then remove_first "RELATED-TO" (fst st2)
                    else fst st2) = []).
    { rewrite <- H2 in Hlen. clear H2. rewrite has_values_of.
      destruct (values_of "RELATED-TO" (fst st2)) as [|x r] eqn:E;
        [exact E|].
      rewrite values_of_remove_first_same, E. cbn [tl].
      try rewrite E in Hlen. cbn [length] in Hlen.
      destruct r; [reflexivity | cbn in Hlen; lia]. }
    destruct (p =? "").
    + now rewrite Hr.
    + now rewrite values_of_add_same, Hr.
Qed.

Lemma multi_text_not_native n :
  is_multi_text n = true -> is_native n = false.
Proof.
  unfold is_multi_text, multi_text_names. cbn [existsb].
  rewrite !orb_true_iff.
  intros [Hm|[Hm|Hm]]; try discriminate;
    apply String.eqb_eq in Hm; subst n; reflexivity.
Qed.

(** The values of a CATEGORIES or RESOURCES property as the parser gives
    them: one list of texts for each line. *)
Lemma read_lines_multi_text parse_date_time raw :
  forall c n,
    read_lines parse_date_time raw = Some c ->
    is_multi_text n = true ->
    values_of n c
    = map (fun l => PyList (text_values (raw_value l)))
          (filter (fun l => raw_name l =? n) raw).
Proof.
  induction raw as [|l r IH]; intros c n H Hm.
  - inversion H. reflexivity.
  - cbn [read_lines] in H.
    destruct (native_value parse_date_time l) as [v|] eqn:Ev;
      [|discriminate].
    destruct (read_lines parse_date_time r) as [c'|] eqn:Er;
      [|discriminate].
    inversion H; subst c. clear H.
    rewrite values_of_cons. unfold named. cbn [name value filter].
    rewrite (IH c' n eq_refl Hm).
    destruct (raw_name l =? n) eqn:E; [|reflexivity].
    cbn [map]. f_equal.
    apply String.eqb_eq in E. unfold native_value in Ev.
    rewrite E, Hm, (multi_text_not_native n Hm) in Ev. now inversion Ev.
Qed.

Lemma multi_text_other_lists n :
  is_multi_text n = true ->
  mem_name n integer_properties = false
  /\ mem_name n datetime_properties = false.
Proof.
  unfold is_multi_text, multi_text_names. cbn [existsb].
  rewrite !orb_true_iff.
  intros [Hm|[Hm|Hm]]; try discriminate;
    apply String.eqb_eq in Hm; subst n; split; reflexivity.
Qed.

(** What the validation pass makes of a value under a name that is in
    neither of its lists: [None] goes, a string stays, anything else is
    replaced by its [str()]. *)
Definition text_fix (str_other : pyval -> string) (v : pyval)
  : list pyval :=
  match v with
  | PyNone => []
  | PyStr _ => [v]
  | _ => [PyStr (str str_other v)]
  end.

Lemma fix_value_text_fix str_other n v :
  mem_name n integer_properties = false ->
  mem_name n datetime_properties = false ->
  fix_value str_other n v = text_fix str_other v.
Proof.
  intros Hi Hd. unfold fix_value, fix_of. cbn [name value].
  rewrite Hi, Hd. now destruct v.
Qed.

Lemma fix_value_keeps str_other n v :
  well_typed (mkLine n v []) = true -> fix_value str_other n v = [v].
Proof.
  intros H. unfold fix_value.
  apply (fix_of_keep_iff str_other) in H. now rewrite H.
Qed.

Lemma changed_finish str_other now st :
  snd (update_finish str_other now st) = snd st.
Proof.
  unfold update_finish. destruct (snd st) eqn:E; [reflexivity | exact E].
Qed.

(** What [update_task] does to the properties it is not asked to edit,
    that is under every name other than SUMMARY, DESCRIPTION, RELATED-TO,
    DUE, PRIORITY, STATUS, COMPLETED, PERCENT-COMPLETE and LAST-MODIFIED.
    For every record, the values under such a name are the old ones, each
    passed through the validation when anything was changed.  So the
    values that have the type [serialize()] needs are kept as they are, a
    text under UID for one.  Under a name in neither list of the
    validation a value that is no string does not stay: [None] is removed
    and any other value is replaced by its [str()].  That is what happens
    to CATEGORIES and RESOURCES, which the parser gives as lists: after
    any edit each such line holds the text of the Python list in place of
    the list. *)
Theorem update_task_keeps_other_properties
        (fromisoformat : string -> option datetime) (local_offset : Z)
        (str_other : pyval -> string) (now : Z) (vtodo : component)
        (summary description parent_uid : option string)
        (due priority : pyval) (completed : option bool) (n : string) :
  untouched n ->
  n <> "STATUS" -> n <> "COMPLETED" -> n <> "PERCENT-COMPLETE" ->
  n <> "LAST-MODIFIED" ->
  let edit :=
    update_vtodo fromisoformat local_offset str_other now vtodo
                 summary description parent_uid due priority completed in
  values_of n (fst edit)
  = (if snd edit
     then flat_map (fix_value str_other n) (values_of n vtodo)
     else values_of n vtodo)
  /\ (Forall (fun v => well_typed (mkLine n v []) = true)
             (values_of n vtodo) ->
      values_of n (fst edit) = values_of n vtodo)
  /\ (mem_name n integer_properties = false ->
      mem_name n datetime_properties = false ->
      snd edit = true ->
      values_of n (fst edit)
      = flat_map (text_fix str_other) (values_of n vtodo))
  /\ (forall parse_date_time raw,
         read_lines parse_date_time raw = Some vtodo ->
         is_multi_text n = true ->
         snd edit = true ->
         values_of n (fst edit)
         = map (fun l =>
                  PyStr (str_other (PyList (text_values (raw_value l)))))
               (filter (fun l => raw_name l =? n) raw)).
Proof.
  intros (H1 & H2 & H3 & H4 & H5) H6 H7 H8 H9. cbv zeta.
  set (edit := update_vtodo fromisoformat local_offset str_other now vtodo
                            summary description parent_uid due priority
                            completed).
  assert (E1 : values_of n (fst edit)
               = if snd edit
                 then flat_map (fix_value str_other n) (values_of n vtodo)
                 else values_of n vtodo).
  { unfold edit, update_vtodo.
    rewrite changed_finish, finish_other by assumption.
    rewrite completed_other, priority_other, due_other, parent_uid_other,
      description_other, summary_other by assumption.
    reflexivity. }
  assert (E3 : mem_name n integer_properties = false ->
               mem_name n datetime_properties = false ->
               snd edit = true ->
               values_of n (fst edit)
               = flat_map (text_fix str_other) (values_of n vtodo)).
  { intros Hi Hd Hc. rewrite E1, Hc. clear E1.
    induction (values_of n vtodo) as [|v r IH]; [reflexivity|].
    cbn [flat_map]. now rewrite IH, (fix_value_text_fix _ _ _ Hi Hd). }
  split; [exact E1|]. split; [|split; [exact E3|]].
  - intros Hw. rewrite E1. clear E1 E3.
    destruct (snd edit); [|reflexivity].
    induction Hw as [|v r Hv Hr IH]; [reflexivity|].
    cbn [flat_map]. now rewrite IH, (fix_value_keeps _ _ _ Hv).
  - intros parse_date_time raw Hread Hm Hc.
    destruct (multi_text_other_lists n Hm) as [Hi Hd].
    rewrite (E3 Hi Hd Hc), (read_lines_multi_text _ _ _ _ Hread Hm).
    induction (filter (fun l => raw_name l =? n) raw) as [|l r IH];
      [reflexivity|].
    cbn [map flat_map text_fix str app]. now rewrite IH.
Qed.

(** A record as the parser gives it. *)
Definition parsed_lines : list raw_line :=
  [mkRaw "UID" "task-1"; mkRaw "SUMMARY" "Old";
   mkRaw "CATEGORIES" "home,errands"; mkRaw "DUE" "19700101T000820"].

Definition parsed_record : component :=
  [mkLine "UID" (PyStr "task-1") []; mkLine "SUMMARY" (PyStr "Old") [];
   mkLine "CATEGORIES" (PyList ["home"; "errands"]) [];
   mkLine "DUE" (PyDatetime (mkDatetime 500 None)) []].

(** [repr] of a list of plain texts. *)
Definition repr_list (v : pyval) : string :=
  match v with
  | PyList l =>
      ("[" ++ String.concat ", " (map (fun x => "'" ++ x ++ "'") l)
       ++ "]")%string
  | _ => "?"
  end.

Lemma update_task_keeps_other_properties_witness :
  values_of "CATEGORIES"
    (fst (update_vtodo (fun _ => None) 0 repr_list 900 parsed_record
                       (Some "New") None None PyNone (PyInt 3) (Some true)))
  = [PyStr "['home', 'errands']"]
  /\ read_lines (fun _ => Some (PyDatetime (mkDatetime 500 None)))
                parsed_lines = Some parsed_record
  /\ values_of "UID"
       (fst (update_vtodo (fun _ => None) 0 repr_list 900 parsed_record
                          (Some "New") None None PyNone (PyInt 3)
                          (Some true)))
     = values_of "UID" parsed_record.
Proof.
  assert (Hu : untouched "UID") by (repeat split; discriminate).
  assert (Hc : untouched "CATEGORIES") by (repeat split; discriminate).
  destruct (update_task_keeps_other_properties (fun _ => None) 0 repr_list
              900 parsed_record (Some "New") None None PyNone (PyInt 3)
              (Some true) "CATEGORIES" Hc)
    as (_ & _ & _ & Hlist); try discriminate.
  destruct (update_task_keeps_other_properties (fun _ => None) 0 repr_list
              900 parsed_record (Some "New") None None PyNone (PyInt 3)
              (Some true) "UID" Hu)
    as (_ & Hkept & _); try discriminate.
  split; [|split; [reflexivity|]].
  - exact (Hlist (fun _ => Some (PyDatetime (mkDatetime 500 None)))
                 parsed_lines eq_refl eq_refl eq_refl).
  - apply Hkept. repeat constructor.
Defined.

(** The due date on its way out and back.  [_normalize_date_value] always
    gives an aware date-time in UTC, reading a naive argument as UTC and
    converting an aware one.  [update_task] then writes DUE as a naive
    date-time that holds this UTC reading.  [_parse_vtodo_safely] converts
    a naive date-time with [astimezone], that is as local time: a DUE that
    comes back naive is moved by the local UTC offset. *)
Theorem update_task_due_is_naive_utc
        (fromisoformat : string -> option datetime) (local_offset : Z)
        (str_other : pyval -> string) (now : Z) (vtodo : component)
        (summary description parent_uid : option string)
        (due priority : pyval) (completed : option bool) (d : datetime) :
  _normalize_date_value fromisoformat local_offset due = Some d ->
  dt_tzinfo d = Some 0%Z
  /\ (forall x, due = PyDatetime x -> dt_tzinfo x = None ->
                dt_wall d = dt_wall x)
  /\ (forall x off, due = PyDatetime x -> dt_tzinfo x = Some off ->
                    dt_wall d = (dt_wall x - off)%Z)
  /\ safe_get_value "DUE"
       (fst (update_vtodo fromisoformat local_offset str_other now vtodo
                          summary description parent_uid due priority
                          completed))
     = PyDatetime (mkDatetime (dt_wall d) None)
  /\ convert_date local_offset (PyDatetime (mkDatetime (dt_wall d) None))
     = PyDatetime (mkDatetime (dt_wall d - local_offset) (Some 0%Z)).
Proof.
  intros Hn.
  assert (Htz : dt_tzinfo d = Some 0%Z).
  { revert Hn. unfold _normalize_date_value, astimezone_utc, replace_tzinfo.
    destruct due as [| b | z | str | x | |]; try discriminate.
    - intros H. now inversion H.
    - destruct ((0 <=? z)%Z && (z <=? 2147483647)%Z)%bool; [|discriminate].
      intros H. now inversion H.
    - destruct (fromisoformat str) as [x|]; [|discriminate].
      destruct (dt_tzinfo x) eqn:E; cbn; rewrite ?E; intros H;
        now inversion H.
    - destruct (dt_tzinfo x) eqn:E; cbn; rewrite ?E; intros H;
        now inversion H. }
  split; [exact Htz|].
  split; [|split; [|split]].
  - intros x -> Hx. cbn in Hn. rewrite Hx in Hn. now inversion Hn.
  - intros x off -> Hx. cbn in Hn. rewrite Hx in Hn.
    unfold astimezone_utc in Hn. rewrite Hx in Hn. now inversion Hn.
  - unfold update_vtodo.
    set (st3 := update_parent_uid _ _).
    set (st4 := update_due fromisoformat local_offset due st3).
    assert (H4 : snd st4 = true
                 /\ hd PyNone (values_of "DUE" (fst st4))
                    = PyDatetime (mkDatetime (dt_wall d) None)).
    { unfold st4, update_due. rewrite Hn. cbn [fst snd].
      split; [reflexivity|]. rewrite values_of_set_or_add_same.
      unfold astimezone_utc, replace_tzinfo. rewrite Htz. cbn [dt_wall].
      rewrite Z.sub_0_r. now destruct (values_of "DUE" (fst st3)). }
    destruct H4 as [Hc Hv].
    rewrite safe_get_value_hd, finish_other by discriminate.
    rewrite changed_completed by now apply changed_priority.
    rewrite completed_other, priority_other by discriminate.
    destruct (values_of "DUE" (fst st4)) as [|v r]; [discriminate Hv|].
    cbn [hd] in Hv. subst v. reflexivity.
  - reflexivity.
Qed.

(** Half past noon, five hours west of UTC. *)
Definition local_noon : datetime := mkDatetime 45000 (Some (-18000)%Z).

Lemma update_task_due_is_naive_utc_witness :
  safe_get_value "DUE"
    (fst (update_vtodo (fun _ => None) 3600 (fun _ => "?") 900
                       parsed_record None None None (PyDatetime local_noon)
                       PyNone None))
  = PyDatetime (mkDatetime 63000 None)
  /\ convert_date 3600 (PyDatetime (mkDatetime 63000 None))
     = PyDatetime (mkDatetime 59400 (Some 0%Z)).
Proof.
  destruct (update_task_due_is_naive_utc (fun _ => None) 3600
              (fun _ => "?") 900 parsed_record None None None
              (PyDatetime local_noon) PyNone None
              (mkDatetime 63000 (Some 0%Z)) eq_refl)
    as (_ & _ & _ & H1 & H2).
  split; [exact H1 | exact H2].
Defined.

End EncodeMore.

Module HierarchyMore.
Import Codec Hierarchy HierarchyFacts.
Local Open Scope nat_scope.
Local Open Scope string_scope.
Local Open Scope list_scope.

(** [repaired m e e']: entry [e'] stands where [e] stood, under the same
    key; its record is the one of [e], or that record with nothing but the
    parent cleared, and then the parent was a non-empty reference that
    named no key of [m] or from which the parent links of [m] lead to the
    key of [e]. *)
Definition repaired (m : batch) (e e' : string * task_data) : Prop :=
  fst e' = fst e
  /\ (snd e' = snd e
      \/ (snd e' = set_td_parent_uid None (snd e)
          /\ exists p, td_parent_uid (snd e) = Some p /\ p <> ""
                       /\ (contains p m = false
                           \/ clos_refl_trans string (edge m) p (fst e)))).

(** The number of entries whose parent reference was taken away. *)
Fixpoint cleared (m m' : batch) : nat :=
  match m, m' with
  | (_, t) :: r, (_, t') :: r' =>
      (if (truthy_uid (td_parent_uid t)
           && negb (truthy_uid (td_parent_uid t')))%bool then 1 else 0)
      + cleared r r'
  | _, _ => 0
  end.

Definition orphan_fixed (task_map : batch) (e e' : string * task_data)
  : Prop :=
  fst e' = fst e
  /\ (snd e' = snd e
      \/ (snd e' = set_td_parent_uid None (snd e)
          /\ exists p, td_parent_uid (snd e) = Some p /\ p <> ""
                       /\ contains p task_map = false)).

Definition cycle_fixed (m0 : batch) (e e' : string * task_data) : Prop :=
  fst e' = fst e
  /\ (snd e' = snd e
      \/ (snd e' = set_td_parent_uid None (snd e)
          /\ exists p, td_parent_uid (snd e) = Some p /\ p <> ""
                       /\ clos_refl_trans string (edge m0) p (fst e))).

Lemma not_cleared t :
  (truthy_uid (td_parent_uid t) && negb (truthy_uid (td_parent_uid t)))%bool
  = false.
Proof. now destruct (truthy_uid (td_parent_uid t)). Qed.

Lemma orphan_loop_precise task_map todo :
  forall n,
  exists todo',
    orphan_loop task_map todo n = (todo', n + cleared todo todo')
    /\ Forall2 (orphan_fixed task_map) todo todo'.
Proof.
  induction todo as [|[uid task] rest IH]; intros n.
  - exists []. cbn. rewrite Nat.add_0_r. split; [reflexivity | constructor].
  - cbn [orphan_loop].
    destruct (truthy_uid (td_parent_uid task)
              && negb match td_parent_uid task with
                      | Some p => contains p task_map
                      | None => false
                      end)%bool eqn:E.
    + destruct (IH (S n)) as (rest' & -> & Hf).
      exists ((uid, set_td_parent_uid None task) :: rest').
      apply andb_true_iff in E. destruct E as [Et Ec].
      split.
      * cbn [cleared td_parent_uid set_td_parent_uid truthy_uid].
        rewrite Et. cbn. f_equal. lia.
      * constructor; [|exact Hf]. split; [reflexivity|]. right.
        split; [reflexivity|].
        cbn [fst snd].
        destruct (td_parent_uid task) as [p|]; [|discriminate].
        exists p. split; [reflexivity|].
        split; [now apply truthy_uid_some|].
        now destruct (contains p task_map).
    + destruct (IH n) as (rest' & -> & Hf).
      exists ((uid, task) :: rest'). split.
      * cbn [cleared]. rewrite not_cleared. reflexivity.
      * constructor; [|exact Hf]. split; [reflexivity | now left].
Qed.

Lemma cycle_loop_precise todo :
  forall done n m0,
    shrinks m0 (done ++ todo) ->
    exists todo',
      cycle_loop done todo n = (done ++ todo', n + cleared todo todo')
      /\ Forall2 (cycle_fixed m0) todo todo'.
Proof.
  induction todo as [|[uid task] rest IH]; intros done n m0 Hs.
  - exists []. cbn. rewrite app_nil_r, Nat.add_0_r.
    split; [reflexivity | constructor].
  - cbn [cycle_loop].
    destruct (truthy_uid (td_parent_uid task)
              && has_cycle (done ++ (uid, task) :: rest) uid
                           (td_parent_uid task) [])%bool eqn:E.
    + assert (Hs' : shrinks m0
                      ((done ++ [(uid, set_td_parent_uid None task)])
                       ++ rest)).
      { rewrite <- app_assoc. cbn [app].
        eapply shrinks_trans; [exact Hs|].
        apply shrinks_app; [apply shrinks_refl|].
        constructor; [split; [reflexivity | now right]
                     | apply shrinks_refl]. }
      destruct (IH _ (S n) m0 Hs') as (rest' & -> & Hf).
      exists ((uid, set_td_parent_uid None task) :: rest').
      apply andb_true_iff in E. destruct E as [Et Ec].
      split.
      * rewrite <- app_assoc. cbn [app].
        cbn [cleared td_parent_uid set_td_parent_uid truthy_uid].
        rewrite Et. cbn. f_equal. lia.
      * constructor; [|exact Hf]. split; [reflexivity|]. right.
        split; [reflexivity|].
        cbn [fst snd].
        destruct (td_parent_uid task) as [p|]; [|discriminate].
        exists p. split; [reflexivity|].
        split; [now apply truthy_uid_some|].
        apply has_cycle_iff in Ec.
        exact (shrinks_reach _ _ _ _ Hs Ec).
    + assert (Hs' : shrinks m0 ((done ++ [(uid, task)]) ++ rest)).
      { now rewrite <- app_assoc. }
      destruct (IH _ n m0 Hs') as (rest' & -> & Hf).
      exists ((uid, task) :: rest'). split.
      * rewrite <- app_assoc. cbn [app cleared]. now rewrite not_cleared.
      * constructor; [|exact Hf]. split; [reflexivity | now left].
Qed.

Lemma orphan_fixed_shrinks task_map m m' :
  Forall2 (orphan_fixed task_map) m m' -> shrinks m m'.
Proof.
  induction 1 as [|e e' r r' [Hk Hv] _ IH]; constructor; [|exact IH].
  split; [exact Hk|]. destruct Hv as [Hv|[Hv _]]; auto.
Qed.

Lemma repaired_compose m :
  forall m0 m1 m2,
    Forall2 (orphan_fixed m) m0 m1 ->
    Forall2 (cycle_fixed m) m1 m2 ->
    Forall2 (repaired m) m0 m2
    /\ cleared m0 m1 + cleared m1 m2 = cleared m0 m2.
Proof.
  intros m0 m1 m2 H1. revert m2.
  induction H1 as [|[k t] [k1 t1] r r1 [Hk Hv] Hr IH]; intros m2 H2;
    inversion H2 as [|e1 [k2 t2] r1' r2 [Hk2 Hv2] Hr2]; subst.
  - split; [constructor | reflexivity].
  - destruct (IH _ Hr2) as [Hf Hc]. cbn [fst snd] in *. subst k1 k2.
    split.
    + constructor; [|exact Hf]. split; [reflexivity|]. cbn [fst snd].
      destruct Hv as [->|[-> (p & Hp & Hne & Hd)]].
      * destruct Hv2 as [->|[-> (p & Hp & Hne & Hreach)]]; [now left|].
        right. split; [reflexivity|]. exists p. auto.
      * destruct Hv2 as [->|[_ (q & Hq & _)]]; [|discriminate Hq].
        right. split; [reflexivity|]. exists p. auto.
    + cbn [cleared]. rewrite <- Hc.
      destruct Hv as [->|[-> (p & Hp & Hne & Hd)]].
      * rewrite not_cleared. lia.
      * destruct Hv2 as [->|[_ (q & Hq & _)]]; [|discriminate Hq].
        rewrite not_cleared. lia.
Qed.

(** Validation repairs and does nothing else: the result has the same
    keys in the same order; every record is the one of the input, or that
    record with only its parent cleared; a parent is cleared only when it
    was a non-empty reference that named no key of the input or lay on a
    chain of parent links of the input that leads back to the record; and
    [fixed_count] is the number of parents taken away. *)
Theorem validate_task_hierarchy_only_repairs (m : batch) :
  Forall2 (repaired m) m (fst (_validate_task_hierarchy_count m))
  /\ keys (_validate_task_hierarchy m) = keys m
  /\ snd (_validate_task_hierarchy_count m)
     = cleared m (_validate_task_hierarchy m).
Proof.
  unfold _validate_task_hierarchy, _validate_task_hierarchy_count.
  destruct (orphan_loop_precise m m 0) as (m1 & -> & H1).
  pose proof (orphan_fixed_shrinks _ _ _ H1) as Hs1.
  destruct (cycle_loop_precise m1 [] (0 + cleared m m1) m1
              (shrinks_refl m1)) as (m2 & -> & H2).
  cbn [app fst snd].
  assert (H2' : Forall2 (cycle_fixed m) m1 m2).
  { clear - H2 Hs1. induction H2 as [|e e' r r' [Hk Hv] _ IH];
      constructor; [|exact IH].
    split; [exact Hk|]. destruct Hv as [Hv|[Hv (p & Hp & Hne & Hr)]];
      [now left|].
    right. split; [exact Hv|]. exists p. repeat split; auto.
    eapply shrinks_reach; eassumption. }
  destruct (repaired_compose m m m1 m2 H1 H2') as [Hf Hc].
  repeat split.
  - exact Hf.
  - clear - Hf. unfold keys.
    induction Hf as [|e e' r r' [Hk _] _ IH]; cbn; [reflexivity|].
    now rewrite Hk, IH.
  - lia.
Qed.

(** The cycle test is exact and ends on its own: on a batch of [n]
    entries [has_cycle(start, p, set())] returns within [n + 1] nested
    calls, and it returns [True] exactly when following the parent links
    from [p] reaches [start]. *)
Theorem has_cycle_decides_reachability
        (m : batch) (start p : string) (fuel : nat) :
  S (length m) <= fuel ->
  has_cycle_fuel fuel m start (Some p) [] = has_cycle m start (Some p) []
  /\ (has_cycle m start (Some p) [] = true
      <-> clos_refl_trans string (edge m) p start).
Proof.
  intros Hf. split; [|apply has_cycle_iff].
  unfold has_cycle. apply has_cycle_fuel_enough;
    pose proof (unvisited_le_length m []); lia.
Qed.

Lemma has_cycle_decides_reachability_witness :
  has_cycle_fuel 10 cycle_and_orphan "A" (Some "B") []
  = has_cycle cycle_and_orphan "A" (Some "B") []
  /\ (has_cycle cycle_and_orphan "A" (Some "B") [] = true
      <-> clos_refl_trans string (edge cycle_and_orphan) "B" "A").
Proof.
  apply (has_cycle_decides_reachability cycle_and_orphan "A" "B" 10).
  cbn. lia.
Defined.

End HierarchyMore.

Module PullMore.
Import Py VObject Codec Hierarchy Models Pull HierarchyFacts PipelineFacts.
Import PullFacts SessionFacts DecodeFacts.
Local Open Scope nat_scope.
Local Open Scope string_scope.
Local Open Scope list_scope.

(** *** The dictionary built from a fetch *)

Lemma get_dict_set k v (m : batch) k' :
  get k' (dict_set k v m) = if k =? k' then Some v else get k' m.
Proof.
  induction m as [|[k0 v0] r IH]; cbn.
  - reflexivity.
  - destruct (String.eqb_spec k0 k) as [->|Hk]; cbn.
    + now destruct (k =? k').
    + destruct (String.eqb_spec k0 k') as [->|Hk'].
      * destruct (String.eqb_spec k k'); [congruence | reflexivity].
      * exact IH.
Qed.

Lemma keys_dict_set k v (m : batch) :
  keys (dict_set k v m) = if contains k m then keys m else keys m ++ [k].
Proof.
  unfold contains, keys. induction m as [|[k0 v0] r IH]; cbn; [reflexivity|].
  destruct (String.eqb_spec k0 k) as [->|Hk]; cbn; [reflexivity|].
  rewrite IH. now destruct (get k r).
Qed.

Lemma nodup_dict_set k v (m : batch) :
  NoDup (keys m) -> NoDup (keys (dict_set k v m)).
Proof.
  intros H. rewrite keys_dict_set.
  destruct (contains k m) eqn:E; [exact H|].
  apply NoDup_app; [exact H | repeat constructor; intros [] |].
  intros x Hx [<-|[]].
  apply contains_keys in Hx. congruence.
Qed.

Lemma keyed_dict_set k v (m : batch) :
  k = td_uid v ->
  (forall k' t, In (k', t) m -> td_uid t = k') ->
  forall k' t, In (k', t) (dict_set k v m) -> td_uid t = k'.
Proof.
  intros -> H k' t Hin.
  destruct (dict_set_in _ _ _ _ _ Hin) as [E|Hm]; [|now apply H].
  now inversion E.
Qed.

Lemma find_app_first {A} (f : A -> bool) (l1 l2 : list A) :
  find f (l1 ++ l2)
  = match find f l1 with Some x => Some x | None => find f l2 end.
Proof.
  induction l1 as [|x r IH]; cbn; [reflexivity|].
  now destruct (f x).
Qed.

Lemma fold_dict_set tasks :
  forall m : batch,
    let m' := fold_left (fun m t => dict_set (td_uid t) t m) tasks m in
    (NoDup (keys m) -> NoDup (keys m'))
    /\ ((forall k t, In (k, t) m -> td_uid t = k) ->
        forall k t, In (k, t) m' -> td_uid t = k)
    /\ forall k,
        get k m'
        = match find (fun t => td_uid t =? k) (rev tasks) with
          | Some t => Some t
          | None => get k m
          end.
Proof.
  induction tasks as [|x r IH]; intros m; cbn zeta.
  - cbn. repeat split; auto.
  - cbn [fold_left rev].
    destruct (IH (dict_set (td_uid x) x m)) as (Hn & Hk & Hg).
    repeat split.
    + intros H. apply Hn. now apply nodup_dict_set.
    + intros H. apply Hk. now apply keyed_dict_set.
    + intros k. rewrite Hg, get_dict_set, find_app_first.
      destruct (find (fun t => td_uid t =? k) (rev r)); [reflexivity|].
      cbn [find]. now destruct (td_uid x =? k).
Qed.

Lemma keys_length (m : batch) : length (keys m) = length m.
Proof. apply length_map. Qed.

Lemma in_keys_task_map_of tasks k :
  In k (keys (task_map_of tasks)) <-> In k (map td_uid tasks).
Proof.
  rewrite <- contains_keys. unfold contains, task_map_of.
  destruct (fold_dict_set tasks []) as (_ & _ & Hg). rewrite Hg. cbn [get].
  destruct (find (fun t => td_uid t =? k) (rev tasks)) as [t|] eqn:E.
  - apply find_some in E. destruct E as [Hin Hk].
    apply String.eqb_eq in Hk. apply in_rev in Hin.
    split; [intros _ | reflexivity].
    rewrite <- Hk. now apply in_map.
  - split; [discriminate|]. intros Hin.
    apply in_map_iff in Hin. destruct Hin as (t & Ht & Hin).
    apply in_rev in Hin.
    pose proof (find_none _ _ E t Hin) as Hn. cbn in Hn.
    rewrite Ht, String.eqb_refl in Hn. discriminate.
Qed.

(** The dictionary [{task['uid']: task for task in tasks_from_caldav}]
    holds each uid once, in the order of first appearance; under a uid it
    holds the last fetched record of that uid, so of two records with the
    same uid the later one wins and the earlier one is never synced; and
    it has as many entries as there are distinct uids. *)
Theorem task_map_of_last_record_wins (tasks : list task_data) :
  NoDup (keys (task_map_of tasks))
  /\ (forall k t, In (k, t) (task_map_of tasks) -> td_uid t = k /\ In t tasks)
  /\ (forall k,
         get k (task_map_of tasks)
         = find (fun t => td_uid t =? k) (rev tasks))
  /\ length (task_map_of tasks)
     = length (nodup string_dec (map td_uid tasks)).
Proof.
  unfold task_map_of.
  destruct (fold_dict_set tasks []) as (Hn & Hk & Hg). cbn zeta in *.
  assert (Hnd : NoDup (keys (fold_left (fun m t => dict_set (td_uid t) t m)
                                       tasks []))).
  { apply Hn. constructor. }
  repeat split.
  - exact Hnd.
  - apply Hk; [intros ? ? []| assumption].
  - now apply task_map_of_in with (k := k).
  - intros k. rewrite Hg. cbn [get].
    now destruct (find (fun t => td_uid t =? k) (rev tasks)).
  - rewrite <- keys_length.
    apply Nat.le_antisymm; apply NoDup_incl_length;
      try exact Hnd; try apply NoDup_nodup.
    + intros k Hin. apply nodup_In.
      now apply (in_keys_task_map_of tasks k).
    + intros k Hin. apply nodup_In in Hin.
      now apply (in_keys_task_map_of tasks k).
Qed.


Lemma task_map_of_keyed tasks :
  NoDup (keys (task_map_of tasks))
  /\ forall k t, In (k, t) (task_map_of tasks) -> td_uid t = k /\ In t tasks.
Proof.
  unfold task_map_of.
  destruct (fold_dict_set tasks []) as (Hn & Hk & _). cbn zeta in *.
  split; [apply Hn; constructor|].
  intros k t Hin. split.
  - apply (Hk (fun _ _ F => match F with end) k t Hin).
  - now apply task_map_of_in with (k := k).
Qed.

(** *** The loop over the dictionary *)

Section Loop.
Variable calendar_url : string.
Variable now : Z.
Variable model_uuid : string.

Definition sync_one' := sync_one calendar_url now model_uuid.

Lemma sync_one_counts st td :
  ls_created (sync_one' st td) + ls_updated (sync_one' st td)
  = S (ls_created st + ls_updated st)
  /\ ls_errors st <= ls_errors (sync_one' st td)
  /\ ls_errors (sync_one' st td) <= S (ls_errors st).
Proof.
  unfold sync_one', sync_one.
  destruct (find_task (td_uid td) calendar_url (ls_session st));
    destruct (validate_summary (td_summary td));
    try destruct (assign_fields now td _); cbn; lia.
Qed.

Lemma fold_sync_counts l :
  forall st,
    let st' := fold_left sync_one' l st in
    ls_created st' + ls_updated st'
    = ls_created st + ls_updated st + length l
    /\ ls_errors st' <= ls_errors st + length l.
Proof.
  induction l as [|x r IH]; intros st; cbn zeta.
  - cbn. lia.
  - cbn [fold_left length]. destruct (IH (sync_one' st x)) as [H1 H2].
    destruct (sync_one_counts st x) as (H3 & H4 & H5). lia.
Qed.

(** The priority of the record passes the validator of the model. *)
Definition priority_ok (td : task_data) : Prop :=
  validate_priority (match td_priority td with
                     | Some p => PyInt p
                     | None => PyNone
                     end) = Returned (td_priority td).

(** The row the pull leaves for a record whose summary is [sm]. *)
Definition pulled_row (td : task_data) (sm : string) (row : Task) : Prop :=
  uid row = td_uid td /\ Models.calendar_url row = calendar_url
  /\ is_synced row = true /\ operation row = None
  /\ sync_attempts row = 0%Z
  /\ summary row = sm
  /\ completed row = td_completed td
  /\ parent_uid row = td_parent_uid td
  /\ description row = td_description td
  /\ due row = td_due td
  /\ priority row = td_priority td.

Lemma same_row_refl u cal t :
  uid t = u -> Models.calendar_url t = cal -> same_row u cal t = true.
Proof.
  intros <- <-. unfold same_row. now rewrite !String.eqb_refl.
Qed.

Lemma find_task_same_row u cal s t :
  find_task u cal s = Some t -> uid t = u /\ Models.calendar_url t = cal.
Proof.
  unfold find_task. intros H. apply find_some in H. destruct H as [_ H].
  unfold same_row in H. apply andb_true_iff in H.
  destruct H as [H1 H2]. now apply String.eqb_eq in H1, H2.
Qed.

Lemma sync_one_other st td u :
  td_uid td <> "" -> priority_ok td -> u <> td_uid td ->
  find_task u calendar_url (ls_session (sync_one' st td))
  = find_task u calendar_url (ls_session st).
Proof.
  intros Hne Hp Hu. unfold sync_one', sync_one.
  destruct (find_task (td_uid td) calendar_url (ls_session st))
    as [db_task|] eqn:Ef.
  - destruct (find_task_same_row _ _ _ _ Ef) as [Hk Hc].
    destruct (validate_summary (td_summary td)) as [sm|]; [|reflexivity].
    destruct (assign_fields_accepts now td (set_summary sm db_task) Hp)
      as (row & -> & Hrow).
    cbn [ls_session]. rewrite Hk.
    apply find_task_store_other; [exact Hu|].
    destruct Hrow as (_ & _ & _ & _ & _ & _ & _ & _ & _ & _ & H1 & _ & H2).
    apply same_row_refl; [now rewrite H1 | now rewrite H2].
  - assert (Hkey : validate_uid model_uuid (td_uid td) = td_uid td).
    { unfold validate_uid. apply String.eqb_neq in Hne. now rewrite Hne. }
    rewrite Hkey.
    assert (Hadd : find_task u calendar_url
                     (add_task (new_task (td_uid td) calendar_url now)
                               (ls_session st))
                   = find_task u calendar_url (ls_session st)).
    { rewrite find_task_add.
      destruct (find_task u calendar_url (ls_session st)); [reflexivity|].
      rewrite (same_row_other (td_uid td) u calendar_url); auto.
      now apply same_row_refl. }
    destruct (validate_summary (td_summary td)) as [sm|]; [|exact Hadd].
    destruct (assign_fields_accepts now td
                (set_summary sm (new_task (td_uid td) calendar_url now)) Hp)
      as (row & -> & Hrow).
    cbn [ls_session]. rewrite find_task_store_other; [exact Hadd|exact Hu|].
    destruct Hrow as (_ & _ & _ & _ & _ & _ & _ & _ & _ & _ & H1 & _ & H2).
    apply same_row_refl; [now rewrite H1 | now rewrite H2].
Qed.

Lemma sync_one_this st td sm :
  td_uid td <> "" -> priority_ok td ->
  validate_summary (td_summary td) = Some sm ->
  exists row,
    find_task (td_uid td) calendar_url (ls_session (sync_one' st td))
    = Some row
    /\ pulled_row td sm row.
Proof.
  intros Hne Hp Hs. unfold sync_one', sync_one. rewrite Hs.
  destruct (find_task (td_uid td) calendar_url (ls_session st))
    as [db_task|] eqn:Ef.
  - destruct (find_task_same_row _ _ _ _ Ef) as [Hk Hc].
    destruct (assign_fields_accepts now td (set_summary sm db_task) Hp)
      as (row & -> & Hrow).
    cbn [ls_session]. rewrite Hk. exists row.
    destruct Hrow
      as (R1 & R2 & R3 & R4 & R5 & R6 & R7 & R8 & R9 & _ & R11 & R12 & R13).
    cbn [uid summary Models.calendar_url set_summary] in R11, R12, R13.
    split.
    + apply (find_task_stored _ _ _ db_task); [exact Ef|].
      apply same_row_refl; congruence.
    + unfold pulled_row. repeat split; congruence.
  - assert (Hkey : validate_uid model_uuid (td_uid td) = td_uid td).
    { unfold validate_uid. apply String.eqb_neq in Hne. now rewrite Hne. }
    rewrite Hkey.
    destruct (assign_fields_accepts now td
                (set_summary sm (new_task (td_uid td) calendar_url now)) Hp)
      as (row & -> & Hrow).
    cbn [ls_session]. exists row.
    destruct Hrow
      as (R1 & R2 & R3 & R4 & R5 & R6 & R7 & R8 & R9 & _ & R11 & R12 & R13).
    cbn [uid summary Models.calendar_url set_summary new_task]
      in R11, R12, R13.
    split.
    + apply (find_task_stored _ _ _
               (new_task (td_uid td) calendar_url now)).
      * rewrite find_task_add, Ef.
        now rewrite same_row_refl.
      * apply same_row_refl; congruence.
    + unfold pulled_row. repeat split; congruence.
Qed.

Lemma fold_sync_other l :
  forall st u,
    (forall td, In td l ->
                td_uid td <> "" /\ priority_ok td /\ u <> td_uid td) ->
    find_task u calendar_url (ls_session (fold_left sync_one' l st))
    = find_task u calendar_url (ls_session st).
Proof.
  induction l as [|x r IH]; intros st u H; [reflexivity|].
  cbn [fold_left]. rewrite IH by (intros td Hin; apply H; now right).
  destruct (H x (or_introl eq_refl)) as (H1 & H2 & H3).
  now apply sync_one_other.
Qed.

Lemma fold_sync_this l :
  forall st td sm,
    NoDup (map td_uid l) ->
    (forall x, In x l -> td_uid x <> "" /\ priority_ok x) ->
    In td l ->
    validate_summary (td_summary td) = Some sm ->
    exists row,
      find_task (td_uid td) calendar_url
                (ls_session (fold_left sync_one' l st)) = Some row
      /\ pulled_row td sm row.
Proof.
  induction l as [|x r IH]; intros st td sm Hnd Hall Hin Hs;
    [contradiction|].
  cbn [fold_left]. cbn [map] in Hnd. inversion Hnd as [|? ? Hx Hr]; subst.
  destruct Hin as [->|Hin].
  - destruct (Hall td (or_introl eq_refl)) as [H1 H2].
    destruct (sync_one_this st td sm H1 H2 Hs) as (row & Hf & Hrow).
    exists row. split; [|exact Hrow].
    rewrite fold_sync_other; [exact Hf|].
    intros y Hy. destruct (Hall y (or_intror Hy)) as [Hy1 Hy2].
    repeat split; auto.
    intros E. apply Hx. rewrite E. now apply in_map.
  - apply IH; auto. intros y Hy. apply Hall. now right.
Qed.
End Loop.

Lemma shrinks_length m m' : shrinks m m' -> length m' = length m.
Proof. induction 1; cbn; congruence. Qed.

Lemma validate_shrinks m : shrinks m (_validate_task_hierarchy m).
Proof.
  unfold _validate_task_hierarchy.
  destruct (validate_spec m) as (m' & n & -> & Hs & _). exact Hs.
Qed.

(** The statistics of a pull that returns: [total_fetched] is the number
    of records that decoded; [count] is [created + updated], which is the
    number of distinct uids among them (a uid fetched twice counts once);
    [errors] is at most [count]; [hierarchy_fixes] is 0 whatever the
    validation repaired, since nothing assigns to it; and the session is
    committed, or left as it was when nothing decoded. *)
Theorem pull_statistics
        (decode : nat -> todo_data -> option task_data)
        (calendar_url : string) (now : Z) (model_uuid : string)
        (todos : list todo_data) (s s' : session) (res : sync_result) :
  sync_tasks_to_db decode calendar_url now model_uuid (Returned todos) s
  = (Returned res, s') ->
  let decoded := decoded_from decode 0 todos in
  total_fetched (stats res) = length decoded
  /\ count res = created (stats res) + updated (stats res)
  /\ count res = length (nodup string_dec (map td_uid decoded))
  /\ errors (stats res) <= count res
  /\ hierarchy_fixes (stats res) = 0
  /\ (decoded = [] -> s' = s)
  /\ (decoded <> [] -> committed s' = working s').
Proof.
  unfold sync_tasks_to_db. rewrite get_all_tasks_decoded. cbn zeta.
  destruct (decoded_from decode 0 todos) as [|t0 r] eqn:Ed.
  - intros H. inversion H; subst. cbn. repeat split; auto. congruence.
  - set (tm := _validate_task_hierarchy (task_map_of (t0 :: r))).
    destruct (fold_sync_counts calendar_url now model_uuid (map snd tm)
                (mkLoop s 0 0 0 false)) as [Hc He].
    cbn [ls_created ls_updated ls_errors] in Hc, He.
    fold (sync_one' calendar_url now model_uuid).
    destruct (ls_incomplete_row _); [discriminate|].
    intros H. inversion H; subst. clear H.
    cbn [count stats total_fetched created updated errors hierarchy_fixes].
    assert (Hlen : length (map snd tm)
                   = length (nodup string_dec (map td_uid (t0 :: r)))).
    { rewrite length_map. unfold tm.
      rewrite (shrinks_length _ _ (validate_shrinks _)).
      destruct (fold_dict_set (t0 :: r) []) as (Hn & _ & _).
      cbn zeta in Hn. fold (task_map_of (t0 :: r)) in Hn.
      rewrite <- keys_length.
      apply Nat.le_antisymm; apply NoDup_incl_length;
        try (apply Hn; constructor); try apply NoDup_nodup.
      - intros k Hin. apply nodup_In.
        now apply (in_keys_task_map_of (t0 :: r) k).
      - intros k Hin. apply nodup_In in Hin.
        now apply (in_keys_task_map_of (t0 :: r) k). }
    repeat split; try lia; try reflexivity.
    discriminate.
Qed.

Lemma pull_statistics_witness :
  exists res s',
    sync_tasks_to_db decode_at "cal" 500 "model-uuid"
                     (Returned one_bad_one_good) empty_db
    = (Returned res, s')
    /\ total_fetched (stats res) = 1
    /\ count res = created (stats res) + updated (stats res)
    /\ count res
       = length (nodup string_dec
                   (map td_uid (decoded_from decode_at 0 one_bad_one_good)))
    /\ errors (stats res) <= count res
    /\ hierarchy_fixes (stats res) = 0
    /\ (decoded_from decode_at 0 one_bad_one_good = [] -> s' = empty_db)
    /\ (decoded_from decode_at 0 one_bad_one_good <> [] ->
        committed s' = working s').
Proof.
  do 2 eexists. split; [reflexivity|].
  apply (pull_statistics decode_at "cal" 500 "model-uuid" one_bad_one_good
           empty_db _ _ eq_refl).
Defined.


(** A pull that returns takes the server's state for every record it
    stores, whatever the local row held: for each entry of the validated
    dictionary whose summary the model accepts, the committed table has
    the row of that uid in this calendar, and the row carries the
    stripped summary, the completion flag, parent, description, due date
    and priority of the record and is marked as synced with no pending
    operation.  A local edit of such a task that was still waiting to be
    pushed is overwritten and its pending mark is gone. *)
Theorem pull_overwrites_local_rows
        (parse_date_time : string -> option pyval) (local_offset : Z)
        (uuid_at : nat -> string)
        (calendar_url : string) (now : Z) (model_uuid : string)
        (todos : list todo_data) (s s' : session) (res : sync_result)
        (u : string) (td : task_data) (sm : string) :
  let decode :=
    fun i => _parse_vtodo_safely parse_date_time local_offset (uuid_at i) in
  sync_tasks_to_db decode calendar_url now model_uuid (Returned todos) s
  = (Returned res, s') ->
  (forall t, In t (decoded_from decode 0 todos) -> td_uid t <> "") ->
  In (u, td)
     (_validate_task_hierarchy (task_map_of (decoded_from decode 0 todos))) ->
  validate_summary (td_summary td) = Some sm ->
  exists row,
    find_task u calendar_url s' = Some row
    /\ In row (tasks (committed s'))
    /\ uid row = u /\ Models.calendar_url row = calendar_url
    /\ is_synced row = true /\ operation row = None
    /\ sync_attempts row = 0%Z
    /\ summary row = sm
    /\ completed row = td_completed td
    /\ parent_uid row = td_parent_uid td
    /\ description row = td_description td
    /\ due row = td_due td
    /\ priority row = td_priority td.
Proof.
  cbv zeta. set (decode := fun i => _parse_vtodo_safely _ _ (uuid_at i)).
  intros Hsync Huid Hin Hsm.
  set (decoded := decoded_from decode 0 todos) in *.
  set (tm := task_map_of decoded) in *.
  pose proof (validate_shrinks tm) as Hsh.
  destruct (task_map_of_keyed decoded) as (Hnd & Hkeyed).
  (* every entry of the validated dictionary comes from a decoded record *)
  assert (Hentry : forall k t,
             In (k, t) (_validate_task_hierarchy tm) ->
             td_uid t = k /\ td_uid t <> "" /\ priority_ok t).
  { intros k t Hkt.
    destruct (shrinks_in _ _ _ _ Hsh Hkt) as (t0 & Hin0 & Ht).
    destruct (Hkeyed k t0 Hin0) as [Hk Hd].
    pose proof (Huid t0 Hd) as Hne.
    destruct (decoded_from_in decode todos 0 t0 Hd) as (j & d & Hdec).
    pose proof (decoded_priority_accepted _ _ _ _ _ Hdec) as Hp.
    destruct Ht as [->| ->]; repeat split; auto. }
  assert (Hmap : map td_uid (map snd (_validate_task_hierarchy tm))
                 = keys (_validate_task_hierarchy tm)).
  { unfold keys. rewrite map_map. apply map_ext_in.
    intros [k t] Hkt. cbn. now apply Hentry. }
  destruct (Hentry u td Hin) as (Hu & Hne & Hp).
  destruct (fold_sync_this calendar_url now model_uuid
              (map snd (_validate_task_hierarchy tm))
              (mkLoop s 0 0 0 false) td sm) as (row & Hf & Hrow).
  { rewrite Hmap, (shrinks_keys _ _ Hsh). exact Hnd. }
  { intros x Hx. apply in_map_iff in Hx. destruct Hx as ([k t] & <- & Hkt).
    cbn. now apply (Hentry k t). }
  { change td with (snd (u, td)). now apply in_map. }
  { exact Hsm. }
  revert Hsync. unfold sync_tasks_to_db. rewrite get_all_tasks_decoded.
  fold decoded. fold tm.
  destruct decoded as [|t0 r] eqn:Ed.
  { exfalso. unfold tm, task_map_of in Hin. cbn in Hin. exact Hin. }
  fold (sync_one' calendar_url now model_uuid).
  destruct (ls_incomplete_row _); [discriminate|].
  intros H. inversion H; subst res s'. clear H.
  exists row.
  destruct Hrow as (R1 & R2 & R3 & R4 & R5 & R6 & R7 & R8 & R9 & R10 & R11).
  rewrite Hu in Hf, R1.
  split; [exact Hf|]. split.
  { unfold find_task in Hf. apply find_some in Hf. now destruct Hf. }
  repeat split; assumption.
Qed.

(** A row that was edited locally and still waits to be pushed. *)
Definition edited_locally : session :=
  let row :=
    mkTask "task-1" "Water the plants tonight" false None "cal" PyNone
           (Some 10%Z) (Some 400%Z) PyNone (Some 1%Z) None None None None
           false (Some "update") None 0 in
  mkSession (mkTables [row] []) (mkTables [row] []).

Definition fetched_record : task_data :=
  mkTaskData "task-1" "Water plants" None PyNone PyNone PyNone None
             (PyInt 0) false None.

Lemma pull_overwrites_local_rows_witness :
  exists row,
    find_task "task-1" "cal"
      (snd (sync_tasks_to_db decode_at "cal" 500 "model-uuid"
                             (Returned one_bad_one_good) edited_locally))
    = Some row
    /\ is_synced row = true /\ operation row = None
    /\ summary row = "Water plants" /\ priority row = None.
Proof.
  destruct (pull_overwrites_local_rows (fun _ => None) 0
              (fun i => ("uuid-" ++ NilZero.string_of_uint (Nat.to_uint i))%string)
              "cal" 500 "model-uuid" one_bad_one_good edited_locally
              (snd (sync_tasks_to_db decode_at "cal" 500 "model-uuid"
                      (Returned one_bad_one_good) edited_locally))
              (mkResult 1 (mkStats 1 0 1 0 0))
              "task-1" fetched_record "Water plants")
    as (row & Hf & _ & _ & _ & H1 & H2 & _ & H3 & _ & _ & _ & _ & H4).
  - reflexivity.
  - intros t Hin. vm_compute in Hin. destruct Hin as [<-|[]]. discriminate.
  - vm_compute. left. reflexivity.
  - reflexivity.
  - exists row. repeat split; assumption.
Defined.

End PullMore.

Module AppMore.
Import Py Models App PyFacts AppFacts SessionFacts.
Local Open Scope nat_scope.
Local Open Scope string_scope.
Local Open Scope list_scope.

(** *** PATCH /tasks/<uid> *)

(** The route never reports an edit as synced.  [client.update_task] has
    no return value, so the test [if result:] fails also when the server
    has accepted the update: every answer 'Task updated' carries
    [is_synced] false; the task in the answer is the edited task marked
    unsynced with pending operation 'update' and [sync_attempts] 0, and it
    is the row the committed session holds under the key.  With a client
    the update was sent, the state of the server is the one
    [client.update_task] left, whatever it answered, and the sync log has
    one more entry, 'update' with status 'error'; without a client the
    log is as it was. *)
Theorem update_route_never_reports_synced
        {R : Type} (client : option (caldav_client R))
        (parse : string -> option datetime) (now : Z)
        (data : update_request) (uid : string) (r r' : R) (s s' : session)
        (changes : list string) (synced : bool) (task' : Task) :
  update_task client parse now data uid r s
  = (mkResponse 200 (Updated changes synced task'), s', r') ->
  synced = false
  /\ is_synced task' = false
  /\ operation task' = Some "update"
  /\ sync_attempts task' = 0%Z
  /\ committed s' = working s'
  /\ exists calendar_url task edited,
      ur_calendar_url data = Some calendar_url
      /\ find_task uid calendar_url s = Some task
      /\ apply_edits parse now calendar_url s data task
         = Continue (edited, changes)
      /\ task' = mark_for_sync "update" now edited
      /\ find_task uid calendar_url s' = Some task'
      /\ (client = None ->
          r' = r /\ sync_logs (working s') = sync_logs (working s))
      /\ (forall c, client = Some c ->
            exists todo r1 error,
              cl_get_task_by_uid c r uid calendar_url = (Returned todo, r1)
              /\ r' = snd (cl_update_task c r1 todo (args_of edited))
              /\ sync_logs (working s')
                 = sync_logs (working s)
                   ++ [mkSyncLog calendar_url "update" (Some uid) "error"
                                 error]).
Proof.
  unfold update_task.
  destruct (ur_calendar_url data) as [cal|]; [|discriminate].
  destruct (cal =? ""); [discriminate|].
  destruct (find_task uid cal s) as [task|] eqn:Hf; [|discriminate].
  destruct (apply_edits parse now cal s data task) as [[t ch]|resp|e] eqn:Ea.
  - destruct ch as [|c0 ch]; [discriminate|].
    pose proof (apply_edits_keeps_key parse now _ _ _ _ _ _ Ea) as Hk.
    pose proof (same_row_marked now uid cal s task t "update" Hf Hk)
      as Hrow.
    rewrite sync_edit_outcome.
    destruct client as [c|].
    + destruct (cl_get_task_by_uid c r uid cal) as [[todo|e] r1] eqn:Eg;
        [|discriminate].
      intros H. inversion H; subst. clear H.
      split; [reflexivity|]. split; [reflexivity|].
      split; [reflexivity|]. split; [reflexivity|].
      split; [reflexivity|].
      exists cal, task, t.
      split; [reflexivity|]. split; [exact Hf|].
      split; [exact Ea|]. split; [reflexivity|].
      split.
      { exact (proj2 (find_task_written_back uid cal s task
                        (mark_for_sync "update" now t) _ Hf Hrow)). }
      split; [discriminate|].
      intros c' Hc. inversion Hc; subst c'.
      exists todo, r1,
        (snd (handle_caldav_error
                (fst (cl_update_task c r1 todo (args_of t))))).
      split; [exact Eg|]. split; reflexivity.
    + intros H. inversion H; subst. clear H.
      split; [reflexivity|]. split; [reflexivity|].
      split; [reflexivity|]. split; [reflexivity|].
      split; [reflexivity|].
      exists cal, task, t.
      split; [reflexivity|]. split; [exact Hf|].
      split; [exact Ea|]. split; [reflexivity|].
      split.
      { exact (proj1 (find_task_written_back uid cal s task
                        (mark_for_sync "update" now t) None Hf Hrow)). }
      split; [intros _; split; reflexivity | discriminate].
  - intros H. inversion H; subst.
    apply apply_edits_returns_error in Ea. contradiction Ea.
  - discriminate.
Qed.

(** A server that holds the task and accepts every update. *)
Definition accepting_client : caldav_client nat :=
  mkClient nat
    (fun r _ _ _ _ _ _ => (Returned "srv-1", S r))
    (fun r uid _ => (Returned (Some uid), r))
    (fun r _ _ => (Returned tt, S r))
    (fun r _ _ => (Returned true, S r)).

Definition synced_task : Task :=
  mkTask "task-1" "Buy milk" false None "cal" PyNone (Some 100%Z)
         (Some 100%Z) PyNone None None None None None true None
         (Some 100%Z) 0.

Definition synced_session : session :=
  mkSession (mkTables [synced_task] []) (mkTables [synced_task] []).

Lemma update_route_never_reports_synced_witness :
  exists task' s',
    update_task (Some accepting_client) no_parse 200 rename_request
                "task-1" 0 synced_session
    = (mkResponse 200 (Updated ["summary"] false task'), s', 1)
    /\ is_synced task' = false
    /\ operation task' = Some "update"
    /\ find_task "task-1" "cal" s' = Some task'
    /\ sync_logs (working s')
       = [mkSyncLog "cal" "update" (Some "task-1") "error" None].
Proof.
  do 2 eexists. split; [reflexivity|].
  destruct (update_route_never_reports_synced (Some accepting_client)
              no_parse 200 rename_request "task-1" 0 1 synced_session
              _ ["summary"] false _ eq_refl)
    as (_ & H1 & H2 & _ & _ & cal & task & edited & Hcal & _ & _ & _
        & Hrow & _).
  split; [exact H1|]. split; [exact H2|].
  split; [|reflexivity].
  inversion Hcal; subst cal. exact Hrow.
Defined.

(** *** POST /tasks *)

Section Create.
Context {R : Type}.
Variable client : option (caldav_client R).
Variable parse : string -> option datetime.
Variable route_uuid model_uuid : string.
Variable now : Z.

(** The due date as the route parses it; [None] is the answer 400. *)
Definition route_due (data : create_request) : option pyval :=
  if truthy_str (cr_due data)
  then match cr_due data with
       | Some d => option_map PyDatetime (parse d)
       | None => Some PyNone
       end
  else Some PyNone.

(** The checks of the route on the priority. *)
Definition route_priority (data : create_request)
  : outcome string (outcome response pyval) :=
  match cr_priority data with
  | PyNone => Returned (Returned PyNone)
  | p =>
      match int_result p with
      | Returned z =>
          if ((z <? 0) || (9 <? z))%Z%bool
          then Returned (Raised
                 (mkResponse 400
                    (Error "Priority must be between 0 and 9 ")))
          else Returned (Returned (PyInt z))
      | Raised ValueError =>
          Returned (Raised
            (mkResponse 400 (Error "Priority must be a number")))
      | Raised TypeError => Raised "int() argument"
      end
  end.

Lemma route_priority_rejects data resp :
  route_priority data = Returned (Raised resp) -> status resp = 400.
Proof.
  unfold route_priority.
  destruct (cr_priority data); try discriminate; cbn;
    try (destruct (int_of_str s); cbn);
    try (match goal with
         | |- context [if ?b then _ else _] => destruct b
         end);
    intros H; inversion H; reflexivity.
Qed.

Lemma route_priority_accepts data p :
  route_priority data = Returned (Returned p) ->
  p = PyNone \/ exists z, p = PyInt z /\ (0 <= z <= 9)%Z.
Proof.
  unfold route_priority.
  assert (G : forall z,
             (if ((z <? 0) || (9 <? z))%Z%bool
              then Returned (Raised
                     (mkResponse 400
                        (Error "Priority must be between 0 and 9 ")))
              else Returned (Returned (PyInt z)))
             = (Returned (Returned p)
                : outcome string (outcome response pyval)) ->
             p = PyNone \/ exists z, p = PyInt z /\ (0 <= z <= 9)%Z).
  { intros z. destruct ((z <? 0) || (9 <? z))%Z%bool eqn:E;
      [discriminate|].
    intros H. inversion H. right. exists z. split; [reflexivity|].
    apply orb_false_iff in E. destruct E as [E1 E2].
    apply Z.ltb_ge in E1, E2. lia. }
  destruct (cr_priority data); try discriminate; cbn.
  - intros H. inversion H. now left.
  - apply G.
  - apply G.
  - destruct (int_of_str s); cbn; [apply G | discriminate].
Qed.
End Create.


Ltac settle :=
  cbn [status resp_body]; repeat split; auto;
  repeat match goal with H : _ \/ _ |- _ => destruct H end;
  try discriminate; auto.

(** What the route can answer and what each answer leaves behind: the
    status is 201, 400, 404 or 500; a 400 or 404 leaves the session and
    the server untouched (no request was sent); after a 500 nothing is
    pending in the session; a 201 has added exactly one row and committed
    it.  The row carries the stripped summary, the calendar, the due date
    as parsed and the priority as validated, within 1..9 if any.  Its uid
    and its sync state are decided by [client.create_task], which was
    called with the stripped summary and the values checked: when it
    returns a uid that is not empty the row has that uid and is synced
    with no pending operation, and 'create'/'success' is logged; when it
    returns an empty uid or raises, the row has the uid of the route and
    is unsynced with pending operation 'create', and 'create'/'error' is
    logged with the message of the exception; without a client the row is
    unsynced with pending 'create' and nothing is logged.  The state of
    the server is the one the call left. *)
Theorem create_route_outcomes
        {R : Type} (client : option (caldav_client R))
        (parse : string -> option datetime)
        (route_uuid model_uuid : string) (now : Z)
        (data : create_request) (r : R) (s : session) :
  let '(resp, s', r') :=
    create_task client parse route_uuid model_uuid now data r s in
  (status resp = 201 \/ status resp = 400 \/ status resp = 404
   \/ status resp = 500)
  /\ (status resp = 400 \/ status resp = 404 -> s' = s /\ r' = r)
  /\ (status resp = 500 -> working s' = committed s')
  /\ (status resp = 201 ->
      exists uid synced task calendar_url due priority logged,
        resp_body resp = Created uid synced task
        /\ cr_calendar_url data = Some calendar_url
        /\ route_due parse data = Some due
        /\ route_priority data = Returned (Returned priority)
        /\ tasks (working s') = tasks (working s) ++ [task]
        /\ sync_logs (working s') = sync_logs (working s) ++ logged
        /\ committed s' = working s'
        /\ is_synced task = synced
        /\ operation task = (if synced then None else Some "create")
        /\ Models.calendar_url task = calendar_url
        /\ summary task = strip (cr_summary data)
        /\ Models.uid task = validate_uid model_uuid uid
        /\ Models.due task = due
        /\ validate_priority priority = Returned (Models.priority task)
        /\ match client with
           | None =>
               uid = route_uuid /\ synced = false /\ r' = r
               /\ logged = []
           | Some c =>
               let '(o, r1) :=
                 cl_create_task c r (strip (cr_summary data)) calendar_url
                                (cr_parent_uid data) (cr_description data)
                                due priority in
               r' = r1
               /\ match o with
                  | Returned result =>
                      if result =? "" then
                        uid = route_uuid /\ synced = false
                        /\ logged = [mkSyncLog calendar_url "create"
                                               (Some route_uuid) "error"
                                               None]
                      else
                        uid = result /\ synced = true
                        /\ logged = [mkSyncLog calendar_url "create"
                                               (Some result) "success"
                                               None]
                  | Raised e =>
                      uid = route_uuid /\ synced = false
                      /\ logged = [mkSyncLog calendar_url "create"
                                             (Some route_uuid) "error"
                                             (Some e)]
                  end
           end
        /\ match Models.priority task with
           | Some p => (1 <= p <= 9)%Z
           | None => True
           end).
Proof.
  unfold create_task.
  destruct (cr_calendar_url data) as [cal|];
    [|settle].
  destruct (cal =? ""); [settle|].
  destruct (strip (cr_summary data) =? "") eqn:Esum; [settle|].
  fold (route_due parse data).
  destruct (route_due parse data) as [due|] eqn:Ed; [|settle].
  fold (route_priority data).
  destruct (route_priority data) as [[pr|resp]|e] eqn:Ep; [| |settle].
  2:{ pose proof (route_priority_rejects _ _ Ep) as Hst.
      rewrite Hst. settle. }
  match goal with
  | |- context [if ?b then (mkResponse 404 _, _, _) else _] => destruct b
  end; [settle|].
  unfold construct_task. rewrite (validate_summary_strip _ Esum).
  assert (Hpr : forall p, validate_priority pr = Returned (Some p) ->
                          (1 <= p <= 9)%Z).
  { intros p. unfold validate_priority.
    destruct (route_priority_accepts _ _ Ep) as [->|(z & -> & Hz)];
      [discriminate|].
    cbn. destruct ((1 <=? z)%Z && (z <=? 9)%Z)%bool eqn:E; [|discriminate].
    intros H. inversion H; subst.
    apply andb_true_iff in E. destruct E as [E1 E2].
    apply Z.leb_le in E1, E2. lia. }
  assert (Hfin :
            forall (tie : string -> pyval -> pyval -> string -> bool -> R ->
                          list SyncLog -> Prop)
                   (new_uid : string) (synced : bool) (op : option string)
                   (s1 : session) (r1 : R) (logged : list SyncLog),
              op = (if synced then None else Some "create") ->
              tasks (working s1) = tasks (working s) ->
              sync_logs (working s1) = sync_logs (working s) ++ logged ->
              tie cal due pr new_uid synced r1 logged ->
              working s1 = committed s1 \/ s1 = s ->
              let '(resp, s', r') :=
                match
                  match validate_priority pr with
                  | Returned priority =>
                      Returned
                        (mkTask (validate_uid model_uuid new_uid)
                           (strip (cr_summary data)) false
                           (cr_parent_uid data) cal due (Some now)
                           (Some now) PyNone priority
                           (cr_description data) (cr_tags data)
                           (cr_estimated_duration data) None synced op
                           None 0)
                  | Raised e => Raised e
                  end
                with
                | Returned new_task =>
                    (mkResponse 201 (Created new_uid synced new_task),
                     commit (add_task new_task s1), r1)
                | Raised e => (mkResponse 500 (Error e), rollback s1, r1)
                end in
              (status resp = 201 \/ status resp = 400 \/ status resp = 404
               \/ status resp = 500)
              /\ (status resp = 400 \/ status resp = 404 ->
                  s' = s /\ r' = r)
              /\ (status resp = 500 -> working s' = committed s')
              /\ (status resp = 201 ->
                  exists uid synced task calendar_url due0 priority logged,
                    resp_body resp = Created uid synced task
                    /\ Some cal = Some calendar_url
                    /\ Some due = Some due0
                    /\ (Returned (Returned pr)
                        : outcome string (outcome response pyval))
                       = Returned (Returned priority)
                    /\ tasks (working s') = tasks (working s) ++ [task]
                    /\ sync_logs (working s')
                       = sync_logs (working s) ++ logged
                    /\ committed s' = working s'
                    /\ is_synced task = synced
                    /\ operation task
                       = (if synced then None else Some "create")
                    /\ Models.calendar_url task = calendar_url
                    /\ summary task = strip (cr_summary data)
                    /\ Models.uid task = validate_uid model_uuid uid
                    /\ Models.due task = due0
                    /\ validate_priority priority
                       = Returned (Models.priority task)
                    /\ tie calendar_url due0 priority uid synced r' logged
                    /\ match Models.priority task with
                       | Some p => (1 <= p <= 9)%Z
                       | None => True
                       end)).
  { intros tie new_uid synced op s1 r1 logged Hop Ht Hl Htie Hs1.
    destruct (validate_priority pr) as [p|e] eqn:Ev.
    - cbn [status resp_body]. split; [now left|].
      split; [intros [H|H]; discriminate H|].
      split; [discriminate|]. intros _.
      exists new_uid, synced, (mkTask (validate_uid model_uuid new_uid)
                                 (strip (cr_summary data)) false
                                 (cr_parent_uid data) cal due (Some now)
                                 (Some now) PyNone p
                                 (cr_description data) (cr_tags data)
                                 (cr_estimated_duration data) None synced op
                                 None 0), cal, due, pr, logged.
      cbn. rewrite Ht, Hl.
      split; [reflexivity|]. split; [reflexivity|].
      split; [reflexivity|]. split; [reflexivity|].
      split; [reflexivity|]. split; [reflexivity|].
      split; [reflexivity|]. split; [reflexivity|].
      split; [exact Hop|].
      split; [reflexivity|]. split; [reflexivity|].
      split; [reflexivity|]. split; [reflexivity|].
      split; [exact Ev|]. split; [exact Htie|].
      destruct p as [q|]; [now apply Hpr | exact I].
    - cbn [status]. split; [now do 3 right|].
      split; [intros [H|H]; discriminate H|].
      split; [reflexivity | discriminate]. }
  destruct client as [c|].
  - set (tie := fun (cal0 : string) (due0 pr0 : pyval) (u : string)
                    (b : bool) (r2 : R) (l : list SyncLog) =>
                  let '(o, r1) :=
                    cl_create_task c r (strip (cr_summary data)) cal0
                                   (cr_parent_uid data)
                                   (cr_description data) due0 pr0 in
                  r2 = r1
                  /\ match o with
                     | Returned result =>
                         if result =? "" then
                           u = route_uuid /\ b = false
                           /\ l = [mkSyncLog cal0 "create"
                                             (Some route_uuid) "error"
                                             None]
                         else
                           u = result /\ b = true
                           /\ l = [mkSyncLog cal0 "create" (Some result)
                                             "success" None]
                     | Raised e =>
                         u = route_uuid /\ b = false
                         /\ l = [mkSyncLog cal0 "create"
                                           (Some route_uuid) "error"
                                           (Some e)]
                     end).
    destruct (cl_create_task c r (strip (cr_summary data)) cal
                (cr_parent_uid data) (cr_description data) due pr)
      as [[result|e] r1] eqn:Ec; cbn [handle_caldav_error].
    + destruct (result =? "") eqn:Er; cbn [negb].
      * apply (Hfin tie route_uuid false (Some "create") _ r1
                 [mkSyncLog cal "create" (Some route_uuid) "error" None]);
          auto.
        unfold tie. rewrite Ec, Er. auto.
      * apply (Hfin tie result true None _ r1
                 [mkSyncLog cal "create" (Some result) "success" None]);
          auto.
        unfold tie. rewrite Ec, Er. auto.
    + apply (Hfin tie route_uuid false (Some "create") _ r1
               [mkSyncLog cal "create" (Some route_uuid) "error" (Some e)]);
        auto.
      unfold tie. rewrite Ec. auto.
  - apply (Hfin (fun _ _ _ u b r2 l =>
                   u = route_uuid /\ b = false /\ r2 = r /\ l = [])
                route_uuid false (Some "create") s r []);
      auto.
    now rewrite app_nil_r.
Qed.

(** *** POST /push_pending *)

(** The rows of a calendar that wait to be pushed. *)
Definition is_pending (calendar_url : string) (t : Task) : bool :=
  (negb (is_synced t) && (Models.calendar_url t =? calendar_url))%bool.

Lemma insert_by_updated_perm t l :
  Permutation (insert_by_updated t l) (t :: l).
Proof.
  induction l as [|x r IH]; cbn; [reflexivity|].
  destruct (updated_leb x t); [|reflexivity].
  rewrite IH. apply perm_swap.
Qed.

Lemma order_by_updated_perm l : Permutation (order_by_updated l) l.
Proof.
  unfold order_by_updated.
  assert (H : forall acc,
             Permutation (fold_left (fun acc t => insert_by_updated t acc)
                                    l acc)
                         (acc ++ l)).
  { induction l as [|x r IH]; intros acc; cbn.
    - now rewrite app_nil_r.
    - rewrite IH, insert_by_updated_perm.
      change (x :: acc ++ r) with ((x :: acc) ++ r).
      rewrite (Permutation_middle acc r x). reflexivity. }
  exact (H []).
Qed.

Section Push.
Context {R : Type}.
Variable now : Z.
Variable c : caldav_client R.
Variable calendar_url : string.

(** Every row that waits to be pushed has its uid in [todo]. *)
Definition covered (todo : list Task) (s : session) : Prop :=
  forall row, In row (tasks (working s)) ->
              is_synced row = false ->
              Models.calendar_url row = calendar_url ->
              exists t, In t todo /\ uid t = uid row.

Lemma covered_tasks todo s s1 :
  tasks (working s1) = tasks (working s) ->
  covered todo s -> covered todo s1.
Proof. unfold covered. intros ->. auto. Qed.

Lemma covered_store task rest T s :
  covered (task :: rest) s -> is_synced T = true ->
  covered rest (store_task (uid task) calendar_url T s).
Proof.
  intros Hc HT row Hin Hs Hcal. unfold store_task in Hin.
  cbn [working tasks] in Hin. apply in_map_iff in Hin.
  destruct Hin as (r0 & Hr & Hin).
  destruct (same_row (uid task) calendar_url r0) eqn:E.
  - subst row. congruence.
  - subst row. destruct (Hc r0 Hin Hs Hcal) as (t & [<-|Ht] & Hu).
    + unfold same_row in E. now rewrite Hu, Hcal, !String.eqb_refl in E.
    + now exists t.
Qed.

Lemma covered_delete task rest s :
  covered (task :: rest) s ->
  covered rest (delete_task_row (uid task) calendar_url s).
Proof.
  intros Hc row Hin Hs Hcal. unfold delete_task_row in Hin.
  cbn [working tasks] in Hin. apply in_map_iff in Hin.
  destruct Hin as (row0 & <- & Hin). apply filter_In in Hin.
  destruct Hin as [Hin E]. apply negb_true_iff in E.
  assert (Hsame : is_synced (orphaned (uid task) row0) = is_synced row0
                  /\ Models.calendar_url (orphaned (uid task) row0)
                     = Models.calendar_url row0
                  /\ uid (orphaned (uid task) row0) = uid row0).
  { unfold orphaned. destruct (parent_uid row0) as [p|]; [|now repeat split].
    now destruct (p =? uid task). }
  destruct Hsame as (H1 & H2 & H3). rewrite H1 in Hs. rewrite H2 in Hcal.
  rewrite H3.
  destruct (Hc row0 Hin Hs Hcal) as (t & [<-|Ht] & Hu).
  - unfold same_row in E. now rewrite Hu, Hcal, !String.eqb_refl in E.
  - now exists t.
Qed.

Lemma push_done_session key task (st : @push_state R) r :
  ps_session (push_done now calendar_url key task st r)
  = commit (add_log (mkSyncLog calendar_url "unknown" (Some (uid task))
                               "success" None)
              (store_task key calendar_url (mark_synced now task)
                          (ps_session st))).
Proof. reflexivity. Qed.

Lemma push_done_count key task (st : @push_state R) r :
  ps_pushed_count (push_done now calendar_url key task st r)
  = S (ps_pushed_count st).
Proof. reflexivity. Qed.

Lemma covered_push_done task rest task' (st : @push_state R) r :
  covered (task :: rest) (ps_session st) ->
  covered rest
    (ps_session (push_done now calendar_url (uid task) task' st r)).
Proof.
  intros Hc. rewrite push_done_session.
  eapply covered_tasks;
    [|apply (covered_store task rest (mark_synced now task') _ Hc)];
    reflexivity.
Qed.

Lemma push_loop_completes todo :
  forall st : @push_state R,
    covered todo (ps_session st) ->
    fst (push_loop now c calendar_url todo st) = Returned tt ->
    covered [] (ps_session (snd (push_loop now c calendar_url todo st)))
    /\ ps_pushed_count (snd (push_loop now c calendar_url todo st))
       = ps_pushed_count st + length todo.
Proof.
  induction todo as [|task rest IH]; intros st Hc; cbn [push_loop].
  - intros _. split; [exact Hc | cbn; lia].
  - cbn [length].
    destruct (operation_is "create" task).
    { destruct (cl_create_task c (ps_remote st) (summary task) calendar_url
                  (parent_uid task) (description task) (due task) _)
        as [[result|e] r1]; [|discriminate].
      intros H. apply IH in H; [|now apply covered_push_done].
      rewrite push_done_count in H. destruct H as [H1 H2].
      split; [exact H1 | lia]. }
    destruct (operation_is "update" task).
    { destruct (cl_get_task_by_uid c (ps_remote st) (uid task) calendar_url)
        as [[[todo|]|e] r1]; try discriminate.
      destruct (cl_update_task c r1 (Some todo) (args_of task))
        as [[u|e] r2]; [|discriminate].
      intros H. apply IH in H; [|now apply covered_push_done].
      rewrite push_done_count in H. destruct H as [H1 H2].
      split; [exact H1 | lia]. }
    destruct (operation_is "delete" task).
    { destruct (cl_delete_task c (ps_remote st) (uid task) calendar_url)
        as [[b|e] r1]; [|discriminate].
      intros H. apply IH in H; [|now apply covered_delete].
      cbn [ps_pushed_count] in H. destruct H as [H1 H2].
      split; [exact H1 | lia]. }
    intros H. apply IH in H; [|now apply covered_push_done].
    rewrite push_done_count in H. destruct H as [H1 H2].
    split; [exact H1 | lia].
Qed.

(** The log entries a push writes. *)
Definition push_entry (l : SyncLog) : Prop :=
  log_calendar_url l = calendar_url /\ log_operation l = "unknown"
  /\ log_status l = "success".

Lemma push_loop_logs todo :
  forall st : @push_state R,
  exists entries,
    sync_logs (working (ps_session
                          (snd (push_loop now c calendar_url todo st))))
    = sync_logs (working (ps_session st)) ++ entries
    /\ Forall push_entry entries.
Proof.
  induction todo as [|task rest IH]; intros st; cbn [push_loop].
  - exists []. cbn. now rewrite app_nil_r.
  - assert (Hdone : forall task' r1,
               exists entries,
                 sync_logs
                   (working
                      (ps_session
                         (snd (push_loop now c calendar_url rest
                                 (push_done now calendar_url (uid task)
                                            task' st r1)))))
                 = sync_logs (working (ps_session st)) ++ entries
                 /\ Forall push_entry entries).
    { intros task' r1.
      destruct (IH (push_done now calendar_url (uid task) task' st r1))
        as (entries & -> & Hf).
      rewrite push_done_session. cbn [commit add_log working sync_logs
                                        store_task].
      eexists. rewrite <- app_assoc. split; [reflexivity|].
      constructor; [|exact Hf]. repeat split. }
    assert (Hstop : forall e r1,
               exists entries,
                 sync_logs (working (ps_session (snd (push_raise e st r1))))
                 = sync_logs (working (ps_session st)) ++ entries
                 /\ Forall push_entry entries).
    { intros e r1. exists []. cbn. now rewrite app_nil_r. }
    destruct (operation_is "create" task).
    { destruct (cl_create_task c (ps_remote st) (summary task) calendar_url
                  (parent_uid task) (description task) (due task) _)
        as [[result|e] r1]; [apply Hdone | apply Hstop]. }
    destruct (operation_is "update" task).
    { destruct (cl_get_task_by_uid c (ps_remote st) (uid task) calendar_url)
        as [[[todo|]|e] r1]; try apply Hstop.
      destruct (cl_update_task c r1 (Some todo) (args_of task))
        as [[u|e] r2]; [apply Hdone | apply Hstop]. }
    destruct (operation_is "delete" task).
    { destruct (cl_delete_task c (ps_remote st) (uid task) calendar_url)
        as [[b|e] r1]; [|apply Hstop].
      destruct (IH (mkPush (delete_task_row (uid task) calendar_url
                                            (ps_session st))
                           r1 (S (ps_pushed_count st)) (ps_errors st)))
        as (entries & -> & Hf).
      exists entries. split; [reflexivity | exact Hf]. }
    apply Hdone.
Qed.
End Push.

(** A push that completes leaves nothing pending: the answer counts every
    task that was waiting as pushed, [remaining_unsynced] is 0, [errors]
    is empty, the session is committed, and no row of the calendar is
    unsynced afterwards (each was marked synced or deleted). *)
Theorem push_pending_completed_leaves_nothing_pending
        {R : Type} (client : option (caldav_client R)) (now : Z)
        (calendar_url : string) (r r' : R) (s s' : session)
        (st pushed remaining : nat) (errors : list push_error) :
  push_pending client now calendar_url r s
  = (Returned (mkResponse st (PushCompleted pushed errors remaining)),
     s', r') ->
  st = 200
  /\ pushed = length (unsynced_tasks calendar_url s)
  /\ remaining = 0
  /\ errors = []
  /\ unsynced_tasks calendar_url s' = []
  /\ committed s' = working s'.
Proof.
  intros H.
  pose proof (push_pending_reports_no_errors _ _ _ _ _ _ _ _ _ _ _ H)
    as Herr.
  revert H. unfold push_pending. destruct client as [c|]; [|discriminate].
  destruct (unsynced_tasks calendar_url s) as [|t l] eqn:Eu;
    [discriminate|].
  assert (Hcov : covered calendar_url (t :: l)
                         (ps_session (mkPush s r 0 []))).
  { intros row Hin Hs Hcal. exists row. split; [|reflexivity].
    rewrite <- Eu. unfold unsynced_tasks.
    apply (Permutation_in _ (Permutation_sym (order_by_updated_perm _))).
    apply filter_In. split; [exact Hin|].
    now rewrite Hs, Hcal, String.eqb_refl. }
  pose proof (push_loop_completes now c calendar_url (t :: l)
                (mkPush s r 0 []) Hcov) as Hdone.
  destruct (push_loop now c calendar_url (t :: l) (mkPush s r 0 []))
    as [[[]|e] st'] eqn:El; [|discriminate].
  destruct (Hdone eq_refl) as [Hc Hn].
  cbn [snd ps_pushed_count length] in Hc, Hn.
  intros H. inversion H; subst. clear H.
  repeat split.
  - exact Hn.
  - rewrite Hn. cbn. apply Nat.sub_diag.
  - assumption.
  - assert (Hnil : filter (is_pending calendar_url)
                          (tasks (working (ps_session st'))) = []).
    { destruct (filter _ _) as [|x rest] eqn:Ef; [reflexivity|].
      assert (Hx : In x (x :: rest)) by now left.
      rewrite <- Ef in Hx. apply filter_In in Hx. destruct Hx as [Hin Hp].
      apply andb_true_iff in Hp. destruct Hp as [H1 H2].
      apply negb_true_iff in H1. apply String.eqb_eq in H2.
      destruct (Hc x Hin H1 H2) as (t0 & [] & _). }
    change (unsynced_tasks calendar_url (commit (ps_session st')))
      with (order_by_updated
              (filter (is_pending calendar_url)
                      (tasks (working (ps_session st'))))).
    now rewrite Hnil.
Qed.

Lemma push_pending_completed_leaves_nothing_pending_witness :
  exists s',
    push_pending (Some accepting_client) 300 "cal" 0 pending_session
    = (Returned (mkResponse 200 (PushCompleted 2 [] 0)), s', 2)
    /\ unsynced_tasks "cal" s' = []
    /\ committed s' = working s'.
Proof.
  eexists. split; [reflexivity|].
  destruct (push_pending_completed_leaves_nothing_pending
              (Some accepting_client) 300 "cal" 0 2 pending_session _
              200 2 0 [] eq_refl)
    as (_ & _ & _ & _ & H1 & H2).
  split; [exact H1 | exact H2].
Defined.

(** The sync log never tells which operation was pushed: every entry
    [push_pending] writes, whether it completes or stops at an exception,
    has status 'success' and operation 'unknown', because the operation
    is read after [mark_synced()] has cleared it; no entry names 'create',
    'update' or 'delete'. *)
Theorem push_pending_logs_unknown_operation
        {R : Type} (client : option (caldav_client R)) (now : Z)
        (calendar_url : string) (r : R) (s : session) :
  let '(_, s', _) := push_pending client now calendar_url r s in
  exists entries,
    sync_logs (working s') = sync_logs (working s) ++ entries
    /\ Forall (fun l => log_calendar_url l = calendar_url
                        /\ log_operation l = "unknown"
                        /\ log_status l = "success") entries.
Proof.
  unfold push_pending. destruct client as [c|].
  - destruct (unsynced_tasks calendar_url s) as [|t l].
    + exists []. cbn. now rewrite app_nil_r.
    + destruct (push_loop_logs now c calendar_url (t :: l)
                  (mkPush s r 0 [])) as (entries & He & Hf).
      destruct (push_loop now c calendar_url (t :: l) (mkPush s r 0 []))
        as [[u|e] st']; exists entries; cbn [snd] in He;
        (split; [exact He | exact Hf]).
  - exists []. cbn. now rewrite app_nil_r.
Qed.

End AppMore.

Module ModelsFacts.
Import Py Models PyFacts.
Local Open Scope nat_scope.
Local Open Scope string_scope.
Local Open Scope list_scope.

Lemma lstrip_strip s : lstrip (strip s) = strip s.
Proof.
  unfold strip. pose proof (lstrip_head s) as H.
  destruct (lstrip s) as [|c r]; [reflexivity|].
  destruct (rstrip_head c r H) as [r' E]. rewrite E.
  cbn [lstrip]. now rewrite H.
Qed.

(** The summary validator of [Task] has a normal form: it rejects exactly
    the summaries that are empty or all whitespace, and what it stores is
    the stripped text, which is not empty, has no whitespace at either
    end, and passes the validator unchanged. *)
Theorem validate_summary_normal_form (summary : string) :
  match validate_summary summary with
  | Some stored =>
      stored = strip summary /\ stored <> ""
      /\ lstrip stored = stored /\ rstrip stored = stored
      /\ validate_summary stored = Some stored
  | None => strip summary = ""
  end.
Proof.
  unfold validate_summary.
  destruct (String.eqb_spec summary "") as [->|Hne]; [reflexivity|].
  destruct (String.eqb_spec (strip summary) "") as [He|Hs];
    cbn [orb]; [exact He|].
  split; [reflexivity|]. split; [exact Hs|].
  split; [apply lstrip_strip|].
  split; [apply rstrip_idempotent|].
  rewrite strip_idempotent.
  destruct (String.eqb_spec (strip summary) ""); [contradiction|].
  reflexivity.
Qed.

End ModelsFacts.

Module BulkFacts.
Import Py Models App BulkRoute SessionFacts.
Local Open Scope nat_scope.
Local Open Scope string_scope.
Local Open Scope list_scope.

(** Selecting rows keeps their uids distinct. *)
Lemma selected_uids_distinct (selected : Task -> bool) (rows : list Task) :
  NoDup (map uid rows) -> NoDup (map uid (filter selected rows)).
Proof.
  induction rows as [|row rest IH]; cbn; [auto|].
  intros H. inversion H as [|? ? Hrow Hrest]; subst.
  destruct (selected row); cbn; [|auto].
  constructor; [|auto].
  intros Hin. apply Hrow. apply in_map_iff in Hin.
  destruct Hin as (y & Hy & Hin). apply filter_In in Hin.
  rewrite <- Hy. apply in_map. tauto.
Qed.

Section Completion.
Context {R : Type}.
Variable client : option (caldav_client R).
Variable now : Z.
Variable calendar_url : string.
Variable operation : string.
Variable priority : pyval.
Hypothesis Hop : operation = "complete" \/ operation = "incomplete".

(** Whether the operation changes the completion flag of a task, and the
    task after the first block of the loop. *)
Definition flips (task : Task) : bool :=
  if operation =? "complete" then negb (completed task)
  else completed task.

Definition completion_of (task : Task) : Task :=
  if operation =? "complete" then
    if negb (completed task) then mark_completed now task else task
  else
    if completed task then mark_incomplete now task else task.

Definition bulk_row (task : Task) : Task :=
  sync_completion client now (completion_of task).

Lemma bulk_one_completion (st : @bulk_state R) task :
  bulk_one client now calendar_url operation priority st task
  = mkBulkState
      (store_task (uid task) calendar_url (bulk_row task) (bs_session st))
      (bs_remote st)
      (bs_updated_count st + (if flips task then 1 else 0))
      (bs_errors st).
Proof.
  unfold bulk_one, bulk_row, completion_of, flips.
  destruct Hop as [-> | ->]; cbn [String.eqb Ascii.eqb Bool.eqb];
    destruct (completed task); cbn [negb]; f_equal; lia.
Qed.

Lemma same_row_bulk_row task :
  same_row (uid task) (Models.calendar_url task) (bulk_row task) = true.
Proof.
  unfold bulk_row, sync_completion, completion_of, same_row.
  destruct client; destruct (operation =? "complete");
    destruct (completed task); cbn; now rewrite !String.eqb_refl.
Qed.

Lemma fold_completion_frame l :
  forall st : @bulk_state R,
    let st' := fold_left (bulk_one client now calendar_url operation
                                   priority) l st in
    bs_remote st' = bs_remote st
    /\ bs_errors st' = bs_errors st
    /\ bs_updated_count st'
       = bs_updated_count st + length (filter flips l).
Proof.
  induction l as [|x r IH]; intros st; cbn zeta.
  - cbn. repeat split. lia.
  - cbn [fold_left filter]. destruct (IH (bulk_one client now calendar_url
                                            operation priority st x))
      as (H1 & H2 & H3).
    rewrite H1, H2, H3, bulk_one_completion.
    cbn [bs_remote bs_errors bs_updated_count].
    repeat split. destruct (flips x); cbn [length]; lia.
Qed.

Lemma fold_completion_other u l :
  forall st : @bulk_state R,
    (forall t, In t l ->
               uid t <> u /\ Models.calendar_url t = calendar_url) ->
    find_task u calendar_url
      (bs_session (fold_left (bulk_one client now calendar_url operation
                                       priority) l st))
    = find_task u calendar_url (bs_session st).
Proof.
  induction l as [|x r IH]; intros st H; [reflexivity|].
  cbn [fold_left]. rewrite IH by (intros t Ht; apply H; now right).
  destruct (H x (or_introl eq_refl)) as [Hu Hc].
  rewrite bulk_one_completion. cbn [bs_session].
  apply find_task_store_other; [congruence|].
  rewrite <- Hc. apply same_row_bulk_row.
Qed.

Lemma fold_completion_this l :
  forall (st : @bulk_state R) task x,
    NoDup (map uid l) ->
    (forall t, In t l -> Models.calendar_url t = calendar_url) ->
    In task l ->
    find_task (uid task) calendar_url (bs_session st) = Some x ->
    find_task (uid task) calendar_url
      (bs_session (fold_left (bulk_one client now calendar_url operation
                                       priority) l st))
    = Some (bulk_row task).
Proof.
  induction l as [|y r IH]; intros st task x Hnd Hcal Hin Hf;
    [contradiction|].
  cbn [fold_left]. cbn [map] in Hnd. inversion Hnd as [|? ? Hy Hr]; subst.
  destruct Hin as [->|Hin].
  - rewrite fold_completion_other.
    + rewrite bulk_one_completion. cbn [bs_session].
      apply (find_task_stored _ _ _ x); [exact Hf|].
      rewrite <- (Hcal task (or_introl eq_refl)).
      apply same_row_bulk_row.
    + intros t Ht. split; [|apply Hcal; now right].
      intros E. apply Hy. rewrite <- E. now apply in_map.
  - apply (IH _ task x);
      [exact Hr | intros t Ht; apply Hcal; now right | exact Hin |].
    rewrite bulk_one_completion. cbn [bs_session].
    rewrite find_task_store_other; [exact Hf| |].
    + intros E. apply Hy. rewrite <- E. now apply in_map.
    + rewrite <- (Hcal y (or_introl eq_refl)). apply same_row_bulk_row.
Qed.
End Completion.

Lemma matching_tasks_spec task_uids cal s t :
  In t (matching_tasks task_uids cal s)
  <-> In t (tasks (working s)) /\ In (uid t) task_uids
      /\ Models.calendar_url t = cal.
Proof.
  unfold matching_tasks. rewrite filter_In, andb_true_iff, existsb_exists.
  split.
  - intros (Hin & (x & Hx & E) & Hc). apply String.eqb_eq in E, Hc.
    subst x. auto.
  - intros (Hin & Hu & Hc). split; [exact Hin|]. split.
    + exists (uid t). split; [exact Hu | apply String.eqb_refl].
    + now apply String.eqb_eq.
Qed.

(** Bulk 'complete' and 'incomplete'.  The server is never contacted: the
    call of [client.update_task] raises [TypeError] on its arguments.  The
    answer is 200 with no errors and counts the tasks whose flag changed.
    With a client every selected task, changed or not, is committed as
    unsynced with pending operation 'update'.  Without a client the flag
    is changed and committed but the row keeps its sync state: a task
    completed in bulk while offline is not queued for the next push. *)
Theorem bulk_completion_sync_state
        {R : Type} (client : option (caldav_client R)) (now : Z)
        (data : bulk_request) (r : R) (s : session)
        (calendar_url u : string) (task : Task) :
  bk_calendar_url data = Some calendar_url -> calendar_url <> "" ->
  bk_operation data = "complete" \/ bk_operation data = "incomplete" ->
  NoDup (map uid (tasks (working s))) ->
  In u (bk_task_uids data) ->
  find_task u calendar_url s = Some task ->
  exists n s' row,
    bulk_task_operations client now data r s
    = (mkBulkResponse 200
         (BulkCompleted (bk_operation data) n
                        (length (bk_task_uids data)) []),
       s', r)
    /\ n = length (filter (flips (bk_operation data))
                          (matching_tasks (bk_task_uids data)
                                          calendar_url s))
    /\ committed s' = working s'
    /\ find_task u calendar_url s' = Some row
    /\ completed row = (bk_operation data =? "complete")
    /\ (forall c, client = Some c ->
                  is_synced row = false /\ operation row = Some "update")
    /\ (client = None ->
        is_synced row = is_synced task /\ operation row = operation task).
Proof.
  intros Hcal Hne Hop Hnd Hu Hf.
  assert (Hrow : uid task = u /\ Models.calendar_url task = calendar_url
                 /\ In task (tasks (working s))).
  { unfold find_task in Hf. apply find_some in Hf. destruct Hf as [Hin E].
    unfold same_row in E. apply andb_true_iff in E. destruct E as [E1 E2].
    apply String.eqb_eq in E1, E2. auto. }
  destruct Hrow as (Hk & Hc & Hin).
  set (sel := matching_tasks (bk_task_uids data) calendar_url s).
  assert (Hsel : In task sel).
  { apply matching_tasks_spec. rewrite Hk. auto. }
  destruct (fold_completion_frame client now calendar_url
              (bk_operation data) (bk_priority data) Hop sel
              (mkBulkState s r 0 [])) as (F1 & F2 & F3).
  cbn [bs_remote bs_errors bs_updated_count] in F1, F2, F3.
  pose proof (fold_completion_this client now calendar_url
                (bk_operation data) (bk_priority data) Hop sel
                (mkBulkState s r 0 []) task task) as Hthis.
  cbn [bs_session] in Hthis. rewrite Hk in Hthis.
  specialize (Hthis (selected_uids_distinct _ _ Hnd)
                    (fun t Ht => proj2 (proj2 (proj1
                       (matching_tasks_spec _ _ _ t) Ht)))
                    Hsel Hf).
  exists (length (filter (flips (bk_operation data)) sel)),
    (commit (bs_session
               (fold_left (bulk_one client now calendar_url
                                    (bk_operation data) (bk_priority data))
                          sel (mkBulkState s r 0 [])))),
    (bulk_row client now (bk_operation data) task).
  split.
  - unfold bulk_task_operations. rewrite Hcal.
    apply String.eqb_neq in Hne. rewrite Hne.
    destruct (bk_task_uids data) as [|u0 us] eqn:Eu; [contradiction|].
    assert (Hv : existsb (String.eqb (bk_operation data)) valid_operations
                 = true).
    { destruct Hop as [-> | ->]; reflexivity. }
    rewrite Hv. cbn [negb]. fold sel.
    destruct sel as [|t0 ts] eqn:Es; [contradiction|].
    cbv zeta. rewrite F1, F2, F3. reflexivity.
  - split; [reflexivity|]. split; [reflexivity|].
    split; [exact Hthis|].
    unfold bulk_row, sync_completion, completion_of.
    destruct Hop as [E | E]; rewrite E; cbn [String.eqb Ascii.eqb Bool.eqb];
      destruct (completed task) eqn:Ec; cbn [negb];
      (split; [destruct client; cbn; congruence|]);
      (split; [intros c ->; split; reflexivity
              | intros ->; split; reflexivity]).
Qed.

(** A synced task of the calendar, not completed. *)
Definition open_task : Task :=
  mkTask "task-1" "Buy milk" false None "cal" PyNone (Some 100%Z)
         (Some 100%Z) PyNone None None None None None true None
         (Some 100%Z) 0.

Definition open_session : session :=
  mkSession (mkTables [open_task] []) (mkTables [open_task] []).

Definition complete_request : bulk_request :=
  mkBulk (Some "cal") "complete" ["task-1"] PyNone.

Lemma bulk_completion_sync_state_witness :
  exists n s' row,
    bulk_task_operations (R := unit) None 300 complete_request tt
                         open_session
    = (mkBulkResponse 200 (BulkCompleted "complete" n 1 []), s', tt)
    /\ n = 1
    /\ committed s' = working s'
    /\ find_task "task-1" "cal" s' = Some row
    /\ completed row = true
    /\ (forall c : caldav_client unit, None = Some c ->
          is_synced row = false /\ operation row = Some "update")
    /\ (@None (caldav_client unit) = None ->
        is_synced row = is_synced open_task
        /\ operation row = operation open_task).
Proof.
  apply (bulk_completion_sync_state (R := unit) None 300 complete_request
           tt open_session "cal" "task-1" open_task).
  - reflexivity.
  - discriminate.
  - left. reflexivity.
  - repeat constructor. intros [].
  - left. reflexivity.
  - reflexivity.
Defined.

(** Whether [task.priority = int(priority)] raises. *)
Definition priority_rejected (priority : pyval) : Prop :=
  match int_result priority with
  | Raised _ => True
  | Returned z => ~ (1 <= z <= 9)%Z
  end.

Lemma fold_set_priority_rejected {R} (client : option (caldav_client R))
      now cal priority l :
  priority <> PyNone -> priority_rejected priority ->
  forall st : @bulk_state R,
    let st' := fold_left (bulk_one client now cal "set_priority" priority)
                         l st in
    bs_session st' = bs_session st /\ bs_remote st' = bs_remote st
    /\ bs_updated_count st' = bs_updated_count st
    /\ map be_uid (bs_errors st') = map be_uid (bs_errors st) ++ map uid l.
Proof.
  intros Hp Hr. induction l as [|x r IH]; intros st; cbn zeta.
  - cbn. now rewrite app_nil_r.
  - cbn [fold_left map].
    destruct (IH (bulk_one client now cal "set_priority" priority st x))
      as (H1 & H2 & H3 & H4).
    rewrite H1, H2, H3, H4. clear IH H1 H2 H3 H4.
    unfold bulk_one. cbn [String.eqb Ascii.eqb Bool.eqb].
    unfold priority_rejected in Hr.
    assert (G : forall st1 : @bulk_state R,
               st1 = match int_result priority with
                     | Returned z =>
                         match validate_priority (PyInt z) with
                         | Returned p =>
                             mkBulkState
                               (store_task (uid x) cal
                                  (mark_for_sync "update" now
                                     (set_priority p x)) (bs_session st))
                               (bs_remote st) (S (bs_updated_count st))
                               (bs_errors st)
                         | Raised msg =>
                             mkBulkState (bs_session st) (bs_remote st)
                               (bs_updated_count st)
                               (bs_errors st
                                ++ [mkBulkError (uid x)
                                                (PriorityError msg)])
                         end
                     | Raised e =>
                         mkBulkState (bs_session st) (bs_remote st)
                           (bs_updated_count st)
                           (bs_errors st
                            ++ [mkBulkError (uid x) (IntError e)])
                     end ->
               bs_session st1 = bs_session st
               /\ bs_remote st1 = bs_remote st
               /\ bs_updated_count st1 = bs_updated_count st
               /\ map be_uid (bs_errors st1) ++ map uid r
                  = map be_uid (bs_errors st) ++ uid x :: map uid r).
    { intros st1 ->. destruct (int_result priority) as [z|e].
      - unfold validate_priority, int, int_result.
        destruct ((1 <=? z)%Z && (z <=? 9)%Z)%bool eqn:E.
        + exfalso. apply Hr. apply andb_true_iff in E.
          destruct E as [E1 E2]. apply Z.leb_le in E1, E2. lia.
        + cbn. rewrite map_app, <- app_assoc. repeat split.
      - cbn. rewrite map_app, <- app_assoc. repeat split. }
    destruct priority; try congruence; apply G; reflexivity.
Qed.

(** Bulk 'set_priority' with a priority the model rejects (not an
    integer, or outside 1..9, 0 included): the answer is still 200 with
    status 'completed'; [updated_count] is 0, [errors] has one entry for
    each selected task, in order; no row is changed and the server is not
    contacted. *)
Theorem bulk_set_priority_rejected_changes_nothing
        {R : Type} (client : option (caldav_client R)) (now : Z)
        (data : bulk_request) (r : R) (s : session)
        (calendar_url : string) :
  bk_calendar_url data = Some calendar_url -> calendar_url <> "" ->
  bk_operation data = "set_priority" ->
  matching_tasks (bk_task_uids data) calendar_url s <> [] ->
  bk_priority data <> PyNone ->
  priority_rejected (bk_priority data) ->
  exists errors,
    bulk_task_operations client now data r s
    = (mkBulkResponse 200
         (BulkCompleted "set_priority" 0 (length (bk_task_uids data))
                        errors),
       commit s, r)
    /\ map be_uid errors
       = map uid (matching_tasks (bk_task_uids data) calendar_url s).
Proof.
  intros Hcal Hne Hop Hsel Hp Hr.
  destruct (fold_set_priority_rejected client now calendar_url
              (bk_priority data)
              (matching_tasks (bk_task_uids data) calendar_url s) Hp Hr
              (mkBulkState s r 0 [])) as (F1 & F2 & F3 & F4).
  cbn [bs_session bs_remote bs_updated_count bs_errors map app] in *.
  eexists. split; [|exact F4].
  unfold bulk_task_operations. rewrite Hcal, Hop.
  apply String.eqb_neq in Hne. rewrite Hne.
  destruct (bk_task_uids data) as [|u0 us] eqn:Eu.
  { exfalso. apply Hsel. unfold matching_tasks.
    induction (tasks (working s)); cbn; auto. }
  cbn [existsb valid_operations String.eqb Ascii.eqb Bool.eqb orb negb].
  destruct (matching_tasks (u0 :: us) calendar_url s) as [|t0 ts] eqn:Es;
    [contradiction|].
  cbv zeta. rewrite F1, F2, F3. reflexivity.
Qed.

Definition priority_zero_bulk : bulk_request :=
  mkBulk (Some "cal") "set_priority" ["task-1"] (PyInt 0).

Lemma bulk_set_priority_rejected_changes_nothing_witness :
  exists errors,
    bulk_task_operations (R := unit) None 300 priority_zero_bulk tt
                         open_session
    = (mkBulkResponse 200 (BulkCompleted "set_priority" 0 1 errors),
       commit open_session, tt)
    /\ map be_uid errors = ["task-1"].
Proof.
  apply (bulk_set_priority_rejected_changes_nothing (R := unit) None 300
           priority_zero_bulk tt open_session "cal").
  - reflexivity.
  - discriminate.
  - reflexivity.
  - discriminate.
  - discriminate.
  - cbn. lia.
Defined.

End BulkFacts.
